(** * Header and footer mount components (components/header.js, components/footer.js)

    The two scripts inject a fixed HTML fragment into a placeholder element and,
    for the header, wire click handlers for the collapsible mobile menu.  The
    development models the part of the browser the scripts talk to (a DOM tree
    with node identity, [innerHTML], [getElementById], [querySelectorAll],
    [classList], [addEventListener], click dispatch with bubbling and the
    [DOMContentLoaded] signal) and embeds [loadHeader] and [loadFooter] over it. *)

From Stdlib Require Import List String Ascii Arith Bool Lia.
Import ListNotations.
Open Scope string_scope.
Open Scope list_scope.
Open Scope nat_scope.

(** * The model *)

(** ** JavaScript values and errors *)

(** A DOM node reference.  Two references are the same object exactly when
    the numbers agree. *)
Definition ref := nat.

(** A statement either completes or throws; the only exception this code can
    meet is the [TypeError] of a property access on [null]. *)
Inductive result (A : Type) : Type :=
| Ok (a : A)
| TypeError.
Arguments Ok {A} a.
Arguments TypeError {A}.

Definition bind {A B : Type} (m : result A) (k : A -> result B) : result B :=
  match m with
  | Ok a => k a
  | TypeError => TypeError
  end.

Notation "x <- m ;; k" := (bind m (fun x => k))
  (at level 61, m at next level, right associativity).

(** JavaScript truthiness of an object-or-null value, as in [if (headerContainer)]. *)
Definition truthy {A : Type} (v : option A) : bool :=
  match v with
  | Some _ => true
  | None => false
  end.

(** ** The DOM *)

(** The two arrow functions that header.js registers.  Each closes over the
    variable [mobileMenu] of the call that created it. *)
Inductive listener : Type :=
| ToggleHidden (mobileMenu : option ref)  (* () => mobileMenu.classList.toggle('hidden') *)
| AddHidden (mobileMenu : option ref).    (* () => mobileMenu.classList.add('hidden') *)

(** An element: identity, tag, attributes other than [class], the token list
    behind [classList] (the [class] attribute), and its click listeners in
    registration order. *)
Record element : Type := mkElement {
  uid : ref;
  localName : string;
  attributes : list (string * string);
  classList : list string;
  listeners : list listener
}.

#[local] Unset Elimination Schemes.
Inductive node : Type :=
| Element (e : element) (childNodes : list node)
| Text (data : string)
| Comment (data : string).
#[local] Set Elimination Schemes.

Fixpoint assoc (k : string) (l : list (string * string)) : option string :=
  match l with
  | [] => None
  | (k', v) :: r => if String.eqb k k' then Some v else assoc k r
  end.

(** [element.id]: the value of the [id] attribute. *)
Definition elem_id (e : element) : option string := assoc "id" (attributes e).

Definition has_id (s : string) (e : element) : bool :=
  match elem_id e with
  | Some v => String.eqb v s
  | None => false
  end.

Definition has_tag (s : string) (e : element) : bool := String.eqb (localName e) s.

(** ** HTML fragment parsing, for the markup the templates use

    Start tags with double-quoted attributes, end tags, comments and text. *)
Module Html.

Inductive token : Type :=
| StartTag (name : string) (attrs : list (string * string))
| EndTag (name : string)
| Characters (data : string)
| CommentTok (data : string).

Inductive state : Type :=
| Data (text : string)
| TagOpen
| EndTagName (name : string)
| TagName (name : string)
| BeforeAttrName (name : string) (attrs : list (string * string))
| AttrName (name : string) (attrs : list (string * string)) (an : string)
| BeforeAttrValue (name : string) (attrs : list (string * string)) (an : string)
| AttrValue (name : string) (attrs : list (string * string)) (an av : string)
| MarkupDecl (dashes : nat)
| CommentData (data : string) (dashes : nat).

Definition snoc (s : string) (c : ascii) : string := (s ++ String c EmptyString)%string.

Definition is_space (c : ascii) : bool :=
  Ascii.eqb c " " || Ascii.eqb c "010" || Ascii.eqb c "009" || Ascii.eqb c "013" || Ascii.eqb c "012".

Definition dquote : ascii := "034".

Definition flush (text : string) : list token :=
  match text with
  | EmptyString => []
  | _ => [Characters text]
  end.

(** One character of input: the next state and the tokens emitted. *)
Definition step (st : state) (c : ascii) : state * list token :=
  match st with
  | Data text =>
      if Ascii.eqb c "<" then (TagOpen, flush text) else (Data (snoc text c), [])
  | TagOpen =>
      if Ascii.eqb c "/" then (EndTagName EmptyString, [])
      else if Ascii.eqb c "!" then (MarkupDecl 0, [])
      else (TagName (String c EmptyString), [])
  | EndTagName name =>
      if Ascii.eqb c ">" then (Data EmptyString, [EndTag name]) else (EndTagName (snoc name c), [])
  | TagName name =>
      if Ascii.eqb c ">" then (Data EmptyString, [StartTag name []])
      else if is_space c then (BeforeAttrName name [], [])
      else (TagName (snoc name c), [])
  | BeforeAttrName name attrs =>
      if Ascii.eqb c ">" then (Data EmptyString, [StartTag name attrs])
      else if is_space c then (BeforeAttrName name attrs, [])
      else (AttrName name attrs (String c EmptyString), [])
  | AttrName name attrs an =>
      if Ascii.eqb c "=" then (BeforeAttrValue name attrs an, [])
      else if Ascii.eqb c ">" then (Data EmptyString, [StartTag name (attrs ++ [(an, EmptyString)])])
      else if is_space c then (BeforeAttrName name (attrs ++ [(an, EmptyString)]), [])
      else (AttrName name attrs (snoc an c), [])
  | BeforeAttrValue name attrs an =>
      if Ascii.eqb c dquote then (AttrValue name attrs an EmptyString, [])
      else (BeforeAttrValue name attrs an, [])
  | AttrValue name attrs an av =>
      if Ascii.eqb c dquote then (BeforeAttrName name (attrs ++ [(an, av)]), [])
      else (AttrValue name attrs an (snoc av c), [])
  | MarkupDecl dashes =>
      if Ascii.eqb c "-" then
        match dashes with
        | 0 => (MarkupDecl 1, [])
        | _ => (CommentData EmptyString 0, [])
        end
      else (MarkupDecl dashes, [])
  | CommentData data dashes =>
      if Ascii.eqb c "-" then
        match dashes with
        | 0 => (CommentData data 1, [])
        | 1 => (CommentData data 2, [])
        | _ => (CommentData (snoc data c) 2, [])
        end
      else if Ascii.eqb c ">" then
        match dashes with
        | 0 => (CommentData (snoc data c) 0, [])
        | 1 => (CommentData (snoc (snoc data "-") c) 0, [])
        | _ => (Data EmptyString, [CommentTok data])
        end
      else
        match dashes with
        | 0 => (CommentData (snoc data c) 0, [])
        | 1 => (CommentData (snoc (snoc data "-") c) 0, [])
        | _ => (CommentData (snoc (snoc (snoc data "-") "-") c) 0, [])
        end
  end.

Fixpoint tokenize_from (st : state) (s : string) : list token :=
  match s with
  | EmptyString =>
      match st with
      | Data text => flush text
      | CommentData data _ => [CommentTok data]
      | _ => []
      end
  | String c r => let (st', out) := step st c in out ++ tokenize_from st' r
  end.

Definition tokenize (s : string) : list token := tokenize_from (Data EmptyString) s.

(** Class attribute value to token list: split on ASCII whitespace, keep the
    first occurrence of each token. *)
Fixpoint split_ws (cur : string) (s : string) : list string :=
  match s with
  | EmptyString => match cur with EmptyString => [] | _ => [cur] end
  | String c r =>
      if is_space c then
        match cur with
        | EmptyString => split_ws EmptyString r
        | _ => cur :: split_ws EmptyString r
        end
      else split_ws (snoc cur c) r
  end.

Definition class_tokens (attrs : list (string * string)) : list string :=
  match assoc "class" attrs with
  | Some v => nodup string_dec (split_ws EmptyString v)
  | None => []
  end.

(** A freshly created element: no identity assigned yet, no listeners. *)
Definition createElement (name : string) (attrs : list (string * string)) : element :=
  {| uid := 0;
     localName := name;
     attributes := filter (fun kv => negb (String.eqb (fst kv) "class")) attrs;
     classList := class_tokens attrs;
     listeners := [] |}.

(** Tree construction with a stack of open elements; [cur] holds the children
    of the innermost open element, newest first. *)
Definition close_top (open : list (element * list node)) (cur : list node)
  : list (element * list node) * list node :=
  match open with
  | [] => ([], cur)
  | (e, above) :: rest => (rest, Element e (rev cur) :: above)
  end.

Fixpoint close_all (open : list (element * list node)) (cur : list node) : list node :=
  match open with
  | [] => rev cur
  | (e, above) :: rest => close_all rest (Element e (rev cur) :: above)
  end.

Fixpoint build (toks : list token) (open : list (element * list node)) (cur : list node)
  : list node :=
  match toks with
  | [] => close_all open cur
  | StartTag name attrs :: r => build r ((createElement name attrs, cur) :: open) []
  | EndTag name :: r =>
      match open with
      | (e, _) :: _ =>
          if String.eqb (localName e) name
          then let (open', cur') := close_top open cur in build r open' cur'
          else build r open cur
      | [] => build r open cur
      end
  | Characters data :: r => build r open (Text data :: cur)
  | CommentTok data :: r => build r open (Comment data :: cur)
  end.

Definition parse (s : string) : list node := build (tokenize s) [] [].

(** Tree construction in an insertion mode that takes characters and
    comments and ignores the tags that the templates use: [in select] takes
    every character, [in column group] and [in frameset] take white space
    only.  The characters taken between two comments make one text node. *)
Fixpoint keep_chars (keep : ascii -> bool) (s : string) : string :=
  match s with
  | EmptyString => EmptyString
  | String c r => if keep c then String c (keep_chars keep r) else keep_chars keep r
  end.

Definition text_node (text : string) : list node :=
  match text with
  | EmptyString => []
  | _ => [Text text]
  end.

Fixpoint build_text (keep : ascii -> bool) (toks : list token) (text : string) : list node :=
  match toks with
  | [] => text_node text
  | Characters data :: r => build_text keep r (text ++ keep_chars keep data)
  | CommentTok data :: r => text_node text ++ Comment data :: build_text keep r EmptyString
  | _ :: r => build_text keep r text
  end.

Definition parse_text (keep : ascii -> bool) (s : string) : list node :=
  build_text keep (tokenize s) EmptyString.

(** Tree construction that starts [before head], for markup whose first
    token after white space is a start tag, as in both templates: the white
    space is dropped, a [head] and a [body] element are made and the rest is
    read in the body. *)
Fixpoint skip_space (s : string) : string :=
  match s with
  | EmptyString => EmptyString
  | String c r => if is_space c then skip_space r else s
  end.

Definition parse_document (s : string) : list node :=
  [Element (createElement "head" []) [];
   Element (createElement "body" []) (parse (skip_space s))].

End Html.

(** ** The two templates

    The templates are written below with an apostrophe wherever the source
    has a double quote (the source text contains no apostrophe);
    [template] puts the double quotes back. *)
Fixpoint template (s : string) : string :=
  match s with
  | EmptyString => EmptyString
  | String c r => String (if Ascii.eqb c "'" then Html.dquote else c) (template r)
  end.

(** header.js, [const headerHTML]. *)
Definition headerHTML : string := template
"
    <header class='sticky top-0 z-50 bg-background-light/95 dark:bg-background-dark/95 backdrop-blur-sm border-b border-gray-200 dark:border-gray-700'>
      <div class='flex items-center p-4 justify-between max-w-7xl mx-auto'>
        <a href='index.html' class='flex items-center gap-3 group'>
          <div class='w-1 h-12 bg-primary rounded-full'></div>
          <div>
            <h1 class='text-text-dark-gray dark:text-background-light text-xl font-black leading-tight group-hover:text-primary transition-colors'>
              Jose Aristizabal
            </h1>
            <p class='text-gray-600 dark:text-gray-400 text-sm leading-tight'>Solution Architect</p>
          </div>
        </a>
        <button id='menuBtn' aria-label='Open menu' class='text-text-dark-gray dark:text-background-light flex size-12 shrink-0 items-center justify-end'>
          <span class='material-symbols-outlined text-3xl'>menu</span>
        </button>
      </div>

      <!-- Mobile Menu -->
      <nav id='mobileMenu' class='hidden bg-white dark:bg-gray-800 border-t border-gray-200 dark:border-gray-700'>
        <div class='flex flex-col p-4 space-y-2'>
          <a href='index.html' class='py-2 px-4 hover:bg-gray-100 dark:hover:bg-gray-700 rounded-lg transition-colors'>Home</a>
          <!-- <a href='projects.html' class='py-2 px-4 hover:bg-gray-100 dark:hover:bg-gray-700 rounded-lg transition-colors'>All Projects</a>
          <a href='./blog/index.html' class='py-2 px-4 hover:bg-gray-100 dark:hover:bg-gray-700 rounded-lg transition-colors'>Blog</a> -->
          <a href='contact.html' class='py-2 px-4 hover:bg-gray-100 dark:hover:bg-gray-700 rounded-lg transition-colors'>Contact</a>
        </div>
      </nav>
    </header>
  ".

(** footer.js, [const footerHTML]. *)
Definition footerHTML : string := template
"
    <footer class='bg-white dark:bg-gray-800 border-t border-gray-200 dark:border-gray-700 py-6'>
      <div class='max-w-7xl mx-auto px-4 text-center'>
        <p class='text-gray-500 dark:text-gray-400 text-sm'>© 2025 Jose Aristizabal. All Rights Reserved.</p>
      </div>
    </footer>
  ".

(** ** Tree traversals *)

(** First result of [f] along a list. *)
Definition first_some {A B : Type} (f : A -> option B) : list A -> option B :=
  fix go (l : list A) : option B :=
    match l with
    | [] => None
    | x :: r => match f x with
                | Some y => Some y
                | None => go r
                end
    end.

(** The elements of a subtree in tree order (the node itself first). *)
Fixpoint elements (n : node) : list element :=
  match n with
  | Element e kids => e :: flat_map elements kids
  | _ => []
  end.

Definition elements_of (f : list node) : list element := flat_map elements f.

Definition uids_of (f : list node) : list ref := map uid (elements_of f).

(** Apply [f] to the data of every element. *)
Fixpoint map_elements (f : element -> element) (n : node) : node :=
  match n with
  | Element e kids => Element (f e) (map (map_elements f) kids)
  | _ => n
  end.

(** The child list of the element [c], if [c] is in the subtree. *)
Fixpoint childNodes_of (c : ref) (n : node) : option (list node) :=
  match n with
  | Element e kids =>
      if uid e =? c then Some kids else first_some (childNodes_of c) kids
  | _ => None
  end.

(** Give the element [c] the child list [kids]. *)
Fixpoint replaceChildren (c : ref) (kids : list node) (n : node) : node :=
  match n with
  | Element e old =>
      if uid e =? c then Element e kids
      else Element e (map (replaceChildren c kids) old)
  | _ => n
  end.

(** The selector [#anc tag] (descendant combinator): every [tag] element that
    has an ancestor whose id is [anc], in tree order.  [inside] tells whether
    such an ancestor has been passed on the way down. *)
Fixpoint select_descendants (anc tag : string) (inside : bool) (n : node) : list ref :=
  match n with
  | Element e kids =>
      (if inside && has_tag tag e then [uid e] else [])
      ++ flat_map (select_descendants anc tag (inside || has_id anc e)) kids
  | _ => []
  end.

(** The propagation path of an event dispatched at [target]: the target
    first, then its ancestors up to the root of the tree. *)
Fixpoint event_path (target : ref) (n : node) : option (list element) :=
  match n with
  | Element e kids =>
      if uid e =? target then Some [e]
      else match first_some (event_path target) kids with
           | Some p => Some (p ++ [e])
           | None => None
           end
  | _ => None
  end.

(** ** Node identity for parsed fragments *)

Definition with_uid (u : ref) (e : element) : element :=
  {| uid := u; localName := localName e; attributes := attributes e;
     classList := classList e; listeners := listeners e |}.

Definition with_classList (cl : list string) (e : element) : element :=
  {| uid := uid e; localName := localName e; attributes := attributes e;
     classList := cl; listeners := listeners e |}.

Definition with_listeners (ls : list listener) (e : element) : element :=
  {| uid := uid e; localName := localName e; attributes := attributes e;
     classList := classList e; listeners := ls |}.

Fixpoint count_elements (n : node) : nat :=
  match n with
  | Element _ kids => S (list_sum (map count_elements kids))
  | _ => 0
  end.

Definition count_elements_of (f : list node) : nat := list_sum (map count_elements f).

(** Number a list of siblings from [base] on, each taking as many numbers as
    it has elements. *)
Definition number_siblings (number : ref -> node -> node) : ref -> list node -> list node :=
  fix go (base : ref) (l : list node) : list node :=
    match l with
    | [] => []
    | n :: r => number base n :: go (base + count_elements n) r
    end.

(** Fresh identities for the elements of a parsed subtree: consecutive
    numbers from [base], in tree order. *)
Fixpoint adopt (base : ref) (n : node) : node :=
  match n with
  | Element e kids => Element (with_uid base e) (number_siblings adopt (S base) kids)
  | _ => n
  end.

Definition adopt_all (base : ref) (f : list node) : list node := number_siblings adopt base f.

(** ** The document *)

(** [docNodes] is the tree under [document]; [detached] holds the nodes that
    were removed from it and may still be referenced by a listener;
    [nextUid] is the next unused node identity. *)
Record document : Type := mkDocument {
  docNodes : list node;
  detached : list node;
  nextUid : ref
}.

(** [document.getElementById(s)]: the first element in tree order whose id is
    [s], or null. *)
Definition getElementById (s : string) (d : document) : option ref :=
  option_map uid (find (has_id s) (elements_of (docNodes d))).

(** [document.querySelectorAll('#anc tag')]. *)
Definition querySelectorAll (anc tag : string) (d : document) : list ref :=
  flat_map (select_descendants anc tag false) (docNodes d).

Definition removed_children (c : ref) (d : document) : list node :=
  match first_some (childNodes_of c) (docNodes d ++ detached d) with
  | Some kids => kids
  | None => []
  end.

(** The elements whose content the tokenizer reads as text only (the RCDATA,
    RAWTEXT, script data and PLAINTEXT states of the fragment parsing
    algorithm; [noscript] counts because scripting is on when a script
    runs). *)
Definition raw_text_elements : list string :=
  ["textarea"; "title"; "style"; "xmp"; "iframe"; "noembed"; "noframes"; "noscript";
   "script"; "plaintext"].

Definition is_raw_text (tag : string) : bool := existsb (String.eqb tag) raw_text_elements.

(** Markup read as text: one text node, none for the empty string. *)
Definition text_fragment (markup : string) : list node := Html.text_node markup.

(** The nodes that the parser makes of [markup] for the children of an
    element named [tag], the context element of the fragment parsing
    algorithm.  A [template] element gets none: its fragment goes to its
    template contents, which are not among the children of any element.  An
    element whose content is raw text gets the markup as text (the templates
    have neither character references nor the end tag of such an element).
    A [select] element gets the characters and the comments, a [colgroup] or
    [frameset] element the white space and the comments, the [html] element
    a head and a body.  Any other element is read as a flow container is,
    with the tokenizer in the data state and the tree construction that
    [Html.build] follows; that is what the standard gives for the tags of
    the templates also in a table, a table section, a row, a cell or a
    caption, where the stack of open elements holds the root of the fragment
    only.  Elements outside the HTML namespace are not told apart from
    these. *)
Definition innerHTML_fragment (tag : string) (markup : string) : option (list node) :=
  if String.eqb tag "template" then None
  else if is_raw_text tag then Some (text_fragment markup)
  else if String.eqb tag "select" then Some (Html.parse_text (fun _ => true) markup)
  else if String.eqb tag "colgroup" || String.eqb tag "frameset"
       then Some (Html.parse_text Html.is_space markup)
  else if String.eqb tag "html" then Some (Html.parse_document markup)
  else Some (Html.parse markup).

(** [target.localName], for a target in the document or removed from it. *)
Definition localName_of (c : ref) (d : document) : string :=
  match find (fun e => uid e =? c) (elements_of (docNodes d ++ detached d)) with
  | Some e => localName e
  | None => EmptyString
  end.

(** The element [c] gets the nodes [parsed], with fresh identities, as its
    children; the old children leave the tree. *)
Definition replaced (c : ref) (parsed : list node) (d : document) : document :=
  {| docNodes := map (replaceChildren c (adopt_all (nextUid d) parsed)) (docNodes d);
     detached := map (replaceChildren c (adopt_all (nextUid d) parsed)) (detached d)
                 ++ removed_children c d;
     nextUid := nextUid d + count_elements_of (adopt_all (nextUid d) parsed) |}.

(** [target.innerHTML = markup]: the markup is parsed in the context of the
    target and the fragment replaces the children of the target. *)
Definition set_innerHTML (target : option ref) (markup : string) (d : document)
  : result document :=
  match target with
  | None => TypeError
  | Some c =>
      match innerHTML_fragment (localName_of c d) markup with
      | Some parsed => Ok (replaced c parsed d)
      | None => Ok d
      end
  end.

(** Update the data of the element [u], wherever it is. *)
Definition at_uid (u : ref) (f : element -> element) (e : element) : element :=
  if uid e =? u then f e else e.

Definition update_element (u : ref) (f : element -> element) (d : document) : document :=
  {| docNodes := map (map_elements (at_uid u f)) (docNodes d);
     detached := map (map_elements (at_uid u f)) (detached d);
     nextUid := nextUid d |}.

(** [target.addEventListener('click', l)].  Every evaluation of an arrow
    function is a new function object, so no registration is a duplicate of
    an earlier one. *)
Definition register (l : listener) (e : element) : element :=
  with_listeners (listeners e ++ [l]) e.

Definition addEventListener (target : option ref) (l : listener) (d : document)
  : result document :=
  match target with
  | None => TypeError
  | Some u => Ok (update_element u (register l) d)
  end.

(** [DOMTokenList.toggle] and [DOMTokenList.add]. *)
Definition contains (tok : string) (l : list string) : bool := existsb (String.eqb tok) l.

Definition token_toggle (tok : string) (l : list string) : list string :=
  if contains tok l then filter (fun t => negb (String.eqb tok t)) l else l ++ [tok].

Definition token_add (tok : string) (l : list string) : list string :=
  if contains tok l then l else l ++ [tok].

Definition classList_toggle (target : option ref) (tok : string) (d : document)
  : result document :=
  match target with
  | None => TypeError
  | Some u => Ok (update_element u (fun e => with_classList (token_toggle tok (classList e)) e) d)
  end.

Definition classList_add (target : option ref) (tok : string) (d : document)
  : result document :=
  match target with
  | None => TypeError
  | Some u => Ok (update_element u (fun e => with_classList (token_add tok (classList e)) e) d)
  end.

(** [list.forEach(f)], stopping at the first exception. *)
Fixpoint forEach {A S : Type} (l : list A) (f : A -> S -> result S) (s : S) : result S :=
  match l with
  | [] => Ok s
  | x :: r => s' <- f x s ;; forEach r f s'
  end.

(** ** header.js *)

Definition loadHeader (d : document) : result document :=
  let headerContainer := getElementById "header-container" d in
  if truthy headerContainer then
    d <- set_innerHTML headerContainer headerHTML d ;;
    let menuBtn := getElementById "menuBtn" d in
    let mobileMenu := getElementById "mobileMenu" d in
    if truthy menuBtn && truthy mobileMenu then
      d <- addEventListener menuBtn (ToggleHidden mobileMenu) d ;;
      forEach (querySelectorAll "mobileMenu" "a" d)
        (fun link d => addEventListener (Some link) (AddHidden mobileMenu) d) d
    else Ok d
  else Ok d.

(** header.js, lines 37 to 52: the block that wires the menu, run on the
    document that has the header in place. *)
Definition initMenu (d : document) : result document :=
  let menuBtn := getElementById "menuBtn" d in
  let mobileMenu := getElementById "mobileMenu" d in
  if truthy menuBtn && truthy mobileMenu then
    d <- addEventListener menuBtn (ToggleHidden mobileMenu) d ;;
    forEach (querySelectorAll "mobileMenu" "a" d)
      (fun link d => addEventListener (Some link) (AddHidden mobileMenu) d) d
  else Ok d.

(** ** footer.js *)

Definition loadFooter (d : document) : result document :=
  let footerContainer := getElementById "footer-container" d in
  if truthy footerContainer then
    set_innerHTML footerContainer footerHTML d
  else Ok d.

(** ** Click dispatch *)

(** Running a listener.  An exception inside a listener is reported and does
    not stop the dispatch; the document is as the listener left it, which for
    these one-statement listeners is as it was. *)
Definition run_listener (d : document) (l : listener) : document :=
  let r := match l with
           | ToggleHidden mobileMenu => classList_toggle mobileMenu "hidden" d
           | AddHidden mobileMenu => classList_add mobileMenu "hidden" d
           end in
  match r with
  | Ok d' => d'
  | TypeError => d
  end.

(** A click on the element [target] of the document: the listeners of the
    target run first, then those of each ancestor on the way up. *)
Definition click (target : ref) (d : document) : document :=
  match first_some (event_path target) (docNodes d) with
  | None => d
  | Some path => fold_left run_listener (flat_map listeners path) d
  end.


(** ** The last statement of both scripts *)

(** [document.readyState]. *)
Inductive readyState : Type := Loading | Interactive | Complete.

(** The two function objects that can be registered for [DOMContentLoaded]. *)
Inductive mount : Type := LoadHeader | LoadFooter.


Definition run_mount (f : mount) : document -> result document :=
  match f with
  | LoadHeader => loadHeader
  | LoadFooter => loadFooter
  end.

(** The page: its document, [document.readyState], whether
    [DOMContentLoaded] has been dispatched, the listeners of [document] for
    that event in registration order, and the history of calls of the mount
    functions, oldest first. *)
Record page : Type := mkPage {
  dom : document;
  ready : readyState;
  fired : bool;
  onDOMContentLoaded : list mount;
  calls : list mount
}.

Definition is_loading (r : readyState) : bool :=
  match r with
  | Loading => true
  | _ => false
  end.

(** A call of a mount function. *)
Definition call (p : page) (f : mount) : page :=
  {| dom := match run_mount f (dom p) with
            | Ok d => d
            | TypeError => dom p
            end;
     ready := ready p;
     fired := fired p;
     onDOMContentLoaded := onDOMContentLoaded p;
     calls := calls p ++ [f] |}.

(** The last statement of header.js ([f] is [LoadHeader]) and of footer.js
    ([f] is [LoadFooter]). *)
Definition script (f : mount) (p : page) : page :=
  if is_loading (ready p) then
    {| dom := dom p;
       ready := ready p;
       fired := fired p;
       onDOMContentLoaded := onDOMContentLoaded p ++ [f];
       calls := calls p |}
  else call p f.

(** The browser at the end of parsing: [readyState] becomes [interactive]. *)
Definition parsed (p : page) : page :=
  {| dom := dom p;
     ready := Interactive;
     fired := fired p;
     onDOMContentLoaded := onDOMContentLoaded p;
     calls := calls p |}.

(** The browser dispatching [DOMContentLoaded] to the listeners registered
    so far. *)
Definition dispatched (p : page) : page :=
  fold_left call (onDOMContentLoaded p)
    {| dom := dom p;
       ready := ready p;
       fired := true;
       onDOMContentLoaded := onDOMContentLoaded p;
       calls := calls p |}.

(** The browser when all subresources are in. *)
Definition loaded (p : page) : page :=
  {| dom := dom p;
     ready := Complete;
     fired := fired p;
     onDOMContentLoaded := onDOMContentLoaded p;
     calls := calls p |}.

(** The life of a page that starts as [p0]: scripts are executed at any
    time (also between the end of parsing and the dispatch, as deferred
    scripts are); parsing ends once, then [DOMContentLoaded] is dispatched
    once, then loading ends.  [reaches p0 s p] says that [p] is reached with
    the script executions [s], in order. *)
Inductive reaches (p0 : page) : list mount -> page -> Prop :=
| reaches_start : reaches p0 [] p0
| reaches_script s p f : reaches p0 s p -> reaches p0 (s ++ [f]) (script f p)
| reaches_parsed s p : reaches p0 s p -> ready p = Loading -> reaches p0 s (parsed p)
| reaches_dispatched s p :
    reaches p0 s p -> ready p = Interactive -> fired p = false -> reaches p0 s (dispatched p)
| reaches_loaded s p :
    reaches p0 s p -> ready p = Interactive -> fired p = true -> reaches p0 s (loaded p).



(** The document after the calls [fs], in order. *)
Definition run_calls (fs : list mount) (d : document) : document :=
  fold_left (fun d f => match run_mount f d with
                        | Ok d' => d'
                        | TypeError => d
                        end) fs d.

(** * The vocabulary of the statements *)

(** ** Observations *)

Definition lookup (u : ref) (f : list node) : option element :=
  find (fun e => uid e =? u) (elements_of f).

(** The panel [u] is in the hidden state: its class list has [hidden]. *)
Definition is_hidden (u : ref) (d : document) : bool :=
  match lookup u (docNodes d) with
  | Some e => contains "hidden" (classList e)
  | None => false
  end.

(** The content of the element [c] of the document. *)
Definition content (c : ref) (d : document) : list node :=
  match first_some (childNodes_of c) (docNodes d) with
  | Some kids => kids
  | None => []
  end.


(** The menu toggle button: [<button id=menuBtn>]. *)
Definition is_toggle_button (e : element) : bool := has_tag "button" e && has_id "menuBtn" e.

(** The mobile panel: [<nav id=mobileMenu>]. *)
Definition is_mobile_panel (e : element) : bool := has_tag "nav" e && has_id "mobileMenu" e.

(** The menu toggle button, the mobile panel and the panel links of the
    header mounted in [c]. *)
Definition toggle_button_of (c : ref) (d : document) : option ref :=
  option_map uid (find is_toggle_button (elements_of (content c d))).

Definition mobile_panel_of (c : ref) (d : document) : option ref :=
  option_map uid (find is_mobile_panel (elements_of (content c d))).

Definition panel_links_of (c : ref) (d : document) : list ref :=
  flat_map (select_descendants "mobileMenu" "a" false) (content c d).








(** The listeners a click on [u] runs, in order. *)
Definition hears (u : ref) (d : document) : option (list listener) :=
  option_map (flat_map listeners) (first_some (event_path u) (docNodes d)).

(** ** Flow containers *)

(** The elements taken as flow containers: for them the parser reads the
    markup assigned to [innerHTML] with the tokenizer in the data state and
    the tree construction that [Html.build] follows, whichever of them the
    target is. *)
Definition flow_tags : list string :=
  ["div"; "section"; "article"; "aside"; "main"; "header"; "footer"; "nav"; "body";
   "span"; "p"].

(** The element [c] of the document is a flow container. *)
Definition flow_container (c : ref) (d : document) : bool :=
  match lookup c (docNodes d) with
  | Some e => existsb (String.eqb (localName e)) flow_tags
  | None => false
  end.

(** ** The menu as a machine *)

(** The propagation path of a click on [u], as node identities with their
    listeners, the target first. *)
Definition trail (u : ref) (d : document) : option (list (ref * list listener)) :=
  option_map (map (fun e => (uid e, listeners e))) (first_some (event_path u) (docNodes d)).

(** A click on [u] reaches [a]: [u] is [a] or lies inside [a]. *)
Definition on_path (a u : ref) (d : document) : bool :=
  match trail u d with
  | Some t => existsb (fun x => fst x =? a) t
  | None => false
  end.

(** The menu as the user of the page sees it: a click that reaches the
    toggle button flips the hidden state, a click that reaches a panel link
    hides the panel, any other click leaves it. *)
Definition menu_step (c : ref) (d : document) (hidden : bool) (u : ref) : bool :=
  match toggle_button_of c d with
  | Some b =>
      if on_path b u d then negb hidden
      else if existsb (fun l => on_path l u d) (panel_links_of c d) then true
      else hidden
  | None => hidden
  end.

(** The document after clicks on the elements [us], in order. *)
Definition click_all (us : list ref) (d : document) : document :=
  fold_left (fun d u => click u d) us d.

(** The menu of the header in [c] is that machine, starting hidden,
    whatever is clicked on the page. *)
Definition menu_works (c : ref) (d : document) : Prop :=
  exists p,
    mobile_panel_of c d = Some p /\
    forall us, is_hidden p (click_all us d) = fold_left (menu_step c d) us true.

(** ** Markup and frames *)

Definition strip (e : element) : element := with_listeners [] (with_uid 0 e).

Definition markup (f : list node) : list node := map (map_elements strip) f.

(** The document with the content of [c] cut out, and its elements in tree
    order: the elements outside the content of [c]. *)
Definition cut (c : ref) (d : document) : list node :=
  map (replaceChildren c []) (docNodes d).

Definition outside (c : ref) (d : document) : list element := elements_of (cut c d).

(** A tree without its listeners. *)
Definition silence (f : list node) : list node := map (map_elements (with_listeners [])) f.

(** ** Well-formed documents *)

Definition target_of (l : listener) : option ref :=
  match l with
  | ToggleHidden m => m
  | AddHidden m => m
  end.

Definition target_below (n : ref) (l : listener) : bool :=
  match target_of l with
  | Some m => m <? n
  | None => true
  end.

(** An element known to a document whose next identity is [n]: its own
    identity and every node its listeners refer to were handed out before. *)
Definition below (n : ref) (e : element) : bool :=
  (uid e <? n) && forallb (target_below n) (listeners e).

Fixpoint distinct (l : list ref) : bool :=
  match l with
  | [] => true
  | x :: r => negb (existsb (Nat.eqb x) r) && distinct r
  end.

(** Node identities are pairwise distinct and all below [nextUid]. *)
Definition well_formed (d : document) : bool :=
  distinct (uids_of (docNodes d ++ detached d))
  && forallb (below (nextUid d)) (elements_of (docNodes d ++ detached d)).

(** The listener refers to an element, not to [null]. *)
Definition aimed (l : listener) : bool := truthy (target_of l).

(** No listener of the document refers to [null]. *)
Definition no_null_listener (d : document) : bool :=
  forallb (fun e => forallb aimed (listeners e)) (elements_of (docNodes d)).

(** ** Pages that do not use the ids of the header themselves *)

Definition free_of_ids (e : element) : bool :=
  negb (has_id "menuBtn" e) && negb (has_id "mobileMenu" e).

(** No element outside the content of [c] has the id [menuBtn] or [mobileMenu]. *)
Definition ids_unused_outside (c : ref) (d : document) : bool :=
  forallb free_of_ids (outside c d).

(** ** Sample pages *)

Definition div (u : ref) (id : string) (kids : list node) : node :=
  Element (mkElement u "div" [("id", id)] [] []) kids.

Definition body (kids : list node) : list node :=
  [Element (mkElement 0 "body" [] [] []) kids].

Definition elem (u : ref) (tag : string) (attrs : list (string * string))
  (classes : list string) (kids : list node) : node :=
  Element (mkElement u tag attrs classes []) kids.

(** A page with both placeholders, the header one holding stale text. *)
Definition samplePage : document :=
  {| docNodes := body [div 1 "header-container" [Text "loading"]; div 2 "footer-container" []];
     detached := [];
     nextUid := 3 |}.


(** A page with a button of its own that has the id [menuBtn], before the
    placeholder. *)
Definition ownButtonPage : document :=
  {| docNodes := body [elem 1 "button" [("id", "menuBtn")] [] [Text "Menu"];
                       div 2 "header-container" []];
     detached := [];
     nextUid := 3 |}.



(** A page whose footer placeholder encloses the header placeholder. *)
Definition nestedPage : document :=
  {| docNodes := body [div 1 "footer-container" [div 2 "header-container" []]];
     detached := [];
     nextUid := 3 |}.



(** A page that executes header.js while loading and footer.js between the
    end of parsing and the dispatch of [DOMContentLoaded]. *)
Definition startPage : page :=
  {| dom := samplePage; ready := Loading; fired := false;
     onDOMContentLoaded := []; calls := [] |}.

Definition endPage : page :=
  dispatched (script LoadFooter (parsed (script LoadHeader startPage))).

(** * Notions used by the proofs *)

(** The fragments that [innerHTML_fragment] makes of [markup], over all
    targets. *)
Definition fragments_of (markup : string) : list (list node) :=
  [Html.parse markup; text_fragment markup; Html.parse_text (fun _ => true) markup;
   Html.parse_text Html.is_space markup; Html.parse_document markup].

(** Element transformers that leave the identity alone. *)
Definition keeps_uid (f : element -> element) : Prop := forall e, uid (f e) = uid e.

Definition uids (n : node) : list ref := map uid (elements n).

(** In a tree with distinct identities, the element [c] splits the tree
    order [els] into what comes before it, its own content [kc], and what
    comes after; giving it new children changes the middle part only. *)
Definition splits_at (c : ref) (els : list element) (kc : option (list node))
  (els' : list node -> list element) : Prop :=
  exists pre ec kids post,
    uid ec = c /\
    els = pre ++ ec :: elements_of kids ++ post /\
    kc = Some kids /\
    forall K, els' K = pre ++ ec :: elements_of K ++ post.

Definition shift_uid (n : ref) (e : element) : element := with_uid (n + uid e) e.

Definition shift_all (n : ref) (f : list node) : list node := map (map_elements (shift_uid n)) f.

(** Listener registration as an element transformer: [f] only appends
    listeners, each satisfying [P]. *)
Definition adds_listeners (P : listener -> Prop) (f : element -> element) : Prop :=
  forall e, exists ls, f e = with_listeners (listeners e ++ ls) e /\ Forall P ls.

(** Element transformers that change the class list only. *)
Definition restyles (g : element -> element) : Prop :=
  forall e, exists cl, g e = with_classList cl e.

(** The parsed templates with the local numbering of their elements. *)
Definition headerDOM : list node := adopt_all 0 (Html.parse headerHTML).
Definition footerDOM : list node := adopt_all 0 (Html.parse footerHTML).

(** A parsed fragment with its local numbering: identities distinct and
    below the number of elements, no listeners. *)
Definition unheard (e : element) : bool :=
  match listeners e with
  | [] => true
  | _ :: _ => false
  end.

Definition fragment_ok (f : list node) : bool :=
  distinct (uids_of f)
  && forallb (fun e => (uid e <? count_elements_of f) && unheard e) (elements_of f).

(** Apply an element transformer to every node the document knows. *)
Definition transform (g : element -> element) (d : document) : document :=
  {| docNodes := map (map_elements g) (docNodes d);
     detached := map (map_elements g) (detached d);
     nextUid := nextUid d |}.

(** The document right after [target.innerHTML = markup] for a target that
    is a flow container. *)
Definition refilled (c : ref) (markup : string) (d : document) : document :=
  {| docNodes := map (replaceChildren c (adopt_all (nextUid d) (Html.parse markup))) (docNodes d);
     detached := map (replaceChildren c (adopt_all (nextUid d) (Html.parse markup))) (detached d)
                 ++ removed_children c d;
     nextUid := nextUid d + count_elements_of (adopt_all (nextUid d) (Html.parse markup)) |}.

(** The header template, numbered locally, with the listeners [loadHeader]
    registers when its lookups find the template's own button (element 7)
    and panel (element 9): the toggle on the button and the closer on the
    two panel links (elements 11 and 12). *)
Definition wire (mobileMenu : option ref) (e : element) : element :=
  at_uid 12 (register (AddHidden mobileMenu))
    (at_uid 11 (register (AddHidden mobileMenu))
       (at_uid 7 (register (ToggleHidden mobileMenu)) e)).

Definition headerMounted (mobileMenu : option ref) : list node :=
  map (map_elements (wire mobileMenu)) headerDOM.

(** The effect of one listener on the hidden state of the element [p]. *)
Definition after_listener (p : ref) (l : listener) (hidden : bool) : bool :=
  match l with
  | ToggleHidden (Some q) => if q =? p then negb hidden else hidden
  | AddHidden (Some q) => if q =? p then true else hidden
  | _ => hidden
  end.

Definition present (p : ref) (d : document) : Prop := lookup p (docNodes d) <> None.

(** Listeners that close over other nodes leave the panel as it is. *)
Definition aims_elsewhere (p : ref) (l : listener) : Prop := target_of l <> Some p.

(** A wired menu: a click on the button [b] toggles the panel [p], a click
    on each of [links] closes it, and nothing else these clicks run refers
    to [p]. *)
Record wired (b p : ref) (links : list ref) (d : document) : Prop := {
  wired_panel : present p d;
  wired_button :
    exists old, hears b d = Some (ToggleHidden (Some p) :: old) /\ Forall (aims_elsewhere p) old;
  wired_links :
    forall l, In l links ->
      exists old, hears l d = Some (AddHidden (Some p) :: old) /\ Forall (aims_elsewhere p) old
}.

(** The element with identity [u] at the head of its propagation path. *)
Definition path_target (p : option (list element)) : option element :=
  match p with
  | Some (x :: _) => Some x
  | _ => None
  end.

(** The propagation path of element [k] of the wired template. *)
Definition header_trail (m : option ref) (k : ref) : list (ref * list listener) :=
  match first_some (event_path k) (headerMounted m) with
  | Some p => map (fun e => (uid e, listeners e)) p
  | None => []
  end.

(** A path of the template with the identities that start at [n]. *)
Definition shift_trail (n : ref) (t : list (ref * list listener)) : list (ref * list listener) :=
  map (fun x => (n + fst x, snd x)) t.

(** A step of a path outside the header mounted from [n] on, with no
    listener that refers to the panel. *)
Definition quiet (n : ref) (x : ref * list listener) : Prop :=
  (fst x < n \/ n + 13 <= fst x) /\ Forall (aims_elsewhere (n + 9)) (snd x).

(** The header is mounted in [c] with the identities from [n] on: every
    element of it has the propagation path of the template, continued by the
    path of [c]; the paths of all other elements are quiet. *)
Record header_at (c n : ref) (d : document) : Prop := {
  at_content : content c d = shift_all n (headerMounted (Some (n + 9)));
  at_panel : present (n + 9) d;
  at_trail :
    exists old,
      trail c d = Some old /\
      Forall (quiet n) old /\
      forall k, k < 13 ->
        trail (n + k) d = Some (shift_trail n (header_trail (Some (n + 9)) k) ++ old);
  at_other : forall u t, ~ (n <= u < n + 13) -> trail u d = Some t -> Forall (quiet n) t
}.

(** The part of [header_at] that clicks keep: they change classes only. *)
Record menu_at (n : ref) (d : document) : Prop := {
  menu_panel : present (n + 9) d;
  menu_trail :
    forall k, k < 13 ->
      exists old,
        trail (n + k) d = Some (shift_trail n (header_trail (Some (n + 9)) k) ++ old) /\
        Forall (quiet n) old;
  menu_other : forall u t, ~ (n <= u < n + 13) -> trail u d = Some t -> Forall (quiet n) t
}.

(** The part of the menu machine that a click on element [k] of the header
    plays. *)
Definition header_step (k : nat) (hidden : bool) : bool :=
  if (k =? 7) || (k =? 8) then negb hidden
  else if (k =? 11) || (k =? 12) then true
  else hidden.

(** An element without its listeners and its identity, except whether it
    is [c]. *)
Definition mark (c : ref) (e : element) : element :=
  with_uid (if uid e =? c then 1 else 0) (with_listeners [] e).

(** * Trees *)

(** Induction on a node with the hypothesis available for every child. *)
Section NodeInduction.
Variable P : node -> Prop.
Hypothesis P_element : forall e kids, Forall P kids -> P (Element e kids).
Hypothesis P_text : forall s, P (Text s).
Hypothesis P_comment : forall s, P (Comment s).

Fixpoint node_ind (n : node) : P n :=
  match n with
  | Element e kids =>
      P_element e kids
        ((fix all (l : list node) : Forall P l :=
            match l with
            | [] => Forall_nil P
            | k :: r => Forall_cons k (node_ind k) (all r)
            end) kids)
  | Text s => P_text s
  | Comment s => P_comment s
  end.
End NodeInduction.

Ltac node_induction n :=
  induction n as [e kids IH | s | s] using node_ind.

Lemma keeps_uid_at_uid u f : keeps_uid f -> keeps_uid (at_uid u f).
Proof.
  intros H e. unfold at_uid. destruct (uid e =? u); [apply H | reflexivity].
Qed.

(** ** Lists *)

Section FindSome.
Context {A B : Type}.

Lemma first_some_app (f : A -> option B) l1 l2 :
  first_some f (l1 ++ l2) =
  match first_some f l1 with
  | Some y => Some y
  | None => first_some f l2
  end.
Proof.
  induction l1 as [|x r IH]; simpl; [reflexivity|].
  destruct (f x); [reflexivity | exact IH].
Qed.

Lemma first_some_none (f : A -> option B) l :
  Forall (fun x => f x = None) l -> first_some f l = None.
Proof.
  induction 1 as [|x r Hx _ IH]; simpl; [reflexivity|].
  rewrite Hx. exact IH.
Qed.
End FindSome.

(** ** [map_elements] *)

Lemma elements_map_elements f n : elements (map_elements f n) = map f (elements n).
Proof.
  node_induction n; simpl; try reflexivity.
  f_equal. induction IH as [|k r Hk _ IHr]; simpl; [reflexivity|].
  rewrite map_app, Hk, IHr. reflexivity.
Qed.

Lemma elements_of_map_elements f l :
  elements_of (map (map_elements f) l) = map f (elements_of l).
Proof.
  unfold elements_of. induction l as [|k r IH]; simpl; [reflexivity|].
  rewrite map_app, elements_map_elements, IH. reflexivity.
Qed.

Lemma map_elements_ext f g n :
  (forall e, In e (elements n) -> f e = g e) -> map_elements f n = map_elements g n.
Proof.
  node_induction n; simpl; intros H; try reflexivity.
  rewrite (H e) by (left; reflexivity). f_equal.
  assert (Hk : forall x, In x (flat_map elements kids) -> f x = g x)
    by (intros x Hx; apply H; right; exact Hx).
  clear H. induction IH as [|k r Hk' _ IHr]; simpl in *; [reflexivity|].
  rewrite Hk', IHr; [reflexivity | |]; intros x Hx; apply Hk, in_or_app; auto.
Qed.

Lemma map_elements_compose f g n :
  map_elements f (map_elements g n) = map_elements (fun e => f (g e)) n.
Proof.
  node_induction n; simpl; try reflexivity.
  f_equal. rewrite map_map. induction IH as [|k r Hk _ IHr]; simpl; [reflexivity|].
  rewrite Hk, IHr. reflexivity.
Qed.

Lemma map_elements_same f n :
  (forall e, In e (elements n) -> f e = e) -> map_elements f n = n.
Proof.
  node_induction n; simpl; intros H; try reflexivity.
  rewrite (H e) by (left; reflexivity). f_equal.
  assert (Hk : forall x, In x (flat_map elements kids) -> f x = x)
    by (intros x Hx; apply H; right; exact Hx).
  clear H. induction IH as [|k r Hk' _ IHr]; simpl in *; [reflexivity|].
  rewrite Hk', IHr; [reflexivity | |]; intros x Hx; apply Hk, in_or_app; auto.
Qed.

Lemma map_map_elements_ext f g l :
  (forall e, In e (elements_of l) -> f e = g e) ->
  map (map_elements f) l = map (map_elements g) l.
Proof.
  unfold elements_of. induction l as [|k r IH]; simpl; intros H; [reflexivity|].
  rewrite (map_elements_ext f g k), IH; [reflexivity | |];
    intros x Hx; apply H, in_or_app; auto.
Qed.

Lemma map_map_elements_same f l :
  (forall e, In e (elements_of l) -> f e = e) -> map (map_elements f) l = l.
Proof.
  unfold elements_of. induction l as [|k r IH]; simpl; intros H; [reflexivity|].
  rewrite (map_elements_same f k), IH; [reflexivity | |];
    intros x Hx; apply H, in_or_app; auto.
Qed.

Lemma map_map_elements_compose f g l :
  map (map_elements f) (map (map_elements g) l) = map (map_elements (fun e => f (g e))) l.
Proof.
  rewrite map_map. apply map_ext. intros n. apply map_elements_compose.
Qed.

(** ** Traversals under [map_elements] *)



Lemma replaceChildren_map_elements f c K n :
  keeps_uid f ->
  map_elements f (replaceChildren c K n) =
  replaceChildren c (map (map_elements f) K) (map_elements f n).
Proof.
  intros Hf. node_induction n; simpl; try reflexivity.
  rewrite Hf. destruct (uid e =? c); simpl; [reflexivity|].
  f_equal. rewrite !map_map. induction IH as [|k r Hk _ IHr]; simpl; [reflexivity|].
  rewrite Hk, IHr. reflexivity.
Qed.

Lemma map_replaceChildren_map_elements f c K l :
  keeps_uid f ->
  map (map_elements f) (map (replaceChildren c K) l) =
  map (replaceChildren c (map (map_elements f) K)) (map (map_elements f) l).
Proof.
  intros Hf. rewrite !map_map. apply map_ext. intros n.
  apply replaceChildren_map_elements. exact Hf.
Qed.

Lemma event_path_map_elements f u n :
  keeps_uid f ->
  event_path u (map_elements f n) = option_map (map f) (event_path u n).
Proof.
  intros Hf. node_induction n; simpl; try reflexivity.
  rewrite Hf. destruct (uid e =? u); [reflexivity|].
  assert (H : first_some (event_path u) (map (map_elements f) kids) =
              option_map (map f) (first_some (event_path u) kids)).
  { induction IH as [|k r Hk _ IHr]; simpl; [reflexivity|].
    rewrite Hk. destruct (event_path u k); simpl; [reflexivity | exact IHr]. }
  rewrite H. destruct (first_some (event_path u) kids); simpl; [|reflexivity].
  rewrite map_app. reflexivity.
Qed.

Lemma first_event_path_map_elements f u l :
  keeps_uid f ->
  first_some (event_path u) (map (map_elements f) l) =
  option_map (map f) (first_some (event_path u) l).
Proof.
  intros Hf. induction l as [|k r IH]; simpl; [reflexivity|].
  rewrite event_path_map_elements by exact Hf.
  destruct (event_path u k); simpl; [reflexivity | exact IH].
Qed.

(** Replacing twice keeps the second child list. *)
Lemma replaceChildren_twice c K1 K2 n :
  replaceChildren c K2 (replaceChildren c K1 n) = replaceChildren c K2 n.
Proof.
  node_induction n; simpl; try reflexivity.
  destruct (uid e =? c) eqn:E; simpl; rewrite E; [reflexivity|].
  f_equal. rewrite map_map. induction IH as [|k r Hk _ IHr]; simpl; [reflexivity|].
  rewrite Hk, IHr. reflexivity.
Qed.

Lemma map_replaceChildren_twice c K1 K2 l :
  map (replaceChildren c K2) (map (replaceChildren c K1) l) = map (replaceChildren c K2) l.
Proof.
  rewrite map_map. apply map_ext. intros n. apply replaceChildren_twice.
Qed.

(** ** More on lists *)

Lemma find_app {A : Type} (p : A -> bool) l1 l2 :
  find p (l1 ++ l2) =
  match find p l1 with
  | Some x => Some x
  | None => find p l2
  end.
Proof.
  induction l1 as [|x r IH]; simpl; [reflexivity|].
  destruct (p x); [reflexivity | exact IH].
Qed.

Lemma find_absent {A : Type} (p : A -> bool) l :
  (forall x, In x l -> p x = false) -> find p l = None.
Proof.
  induction l as [|x r IH]; simpl; intros H; [reflexivity|].
  rewrite (H x) by (left; reflexivity). apply IH. intros y Hy. apply H. right. exact Hy.
Qed.

Lemma find_map_keep {A : Type} (p : A -> bool) (f : A -> A) l :
  (forall x, p (f x) = p x) -> find p (map f l) = option_map f (find p l).
Proof.
  intros H. induction l as [|x r IH]; simpl; [reflexivity|].
  rewrite H. destruct (p x); [reflexivity | exact IH].
Qed.

Lemma existsb_map {A B : Type} (p : B -> bool) (f : A -> B) l :
  existsb p (map f l) = existsb (fun x => p (f x)) l.
Proof.
  induction l as [|x r IH]; simpl; [reflexivity|]. rewrite IH. reflexivity.
Qed.

Lemma NoDup_app_disjoint {A : Type} (l1 l2 : list A) :
  NoDup (l1 ++ l2) -> forall a, In a l1 -> ~ In a l2.
Proof.
  induction l1 as [|x r IH]; simpl; intros H a Ha; [contradiction|].
  inversion H as [|? ? Hx Hr]; subst. destruct Ha as [->|Ha].
  - intros Hin. apply Hx, in_or_app. right. exact Hin.
  - apply IH; assumption.
Qed.

(** ** Elements that are not in a subtree *)

Lemma uids_of_cons n l : uids_of (n :: l) = uids n ++ uids_of l.
Proof. unfold uids_of, uids, elements_of. simpl. apply map_app. Qed.

Lemma uids_of_app l1 l2 : uids_of (l1 ++ l2) = uids_of l1 ++ uids_of l2.
Proof. unfold uids_of, elements_of. rewrite flat_map_app. apply map_app. Qed.

Lemma elements_of_app l1 l2 : elements_of (l1 ++ l2) = elements_of l1 ++ elements_of l2.
Proof. apply flat_map_app. Qed.

Lemma uids_element e kids : uids (Element e kids) = uid e :: uids_of kids.
Proof. reflexivity. Qed.

Lemma absent_forall c l :
  ~ In c (uids_of l) -> Forall (fun k => ~ In c (uids k)) l.
Proof.
  induction l as [|k r IH]; intros H; constructor.
  - intros Hk. apply H. rewrite uids_of_cons. apply in_or_app. left. exact Hk.
  - apply IH. intros Hr. apply H. rewrite uids_of_cons. apply in_or_app. right. exact Hr.
Qed.

Lemma replaceChildren_absent c K n : ~ In c (uids n) -> replaceChildren c K n = n.
Proof.
  node_induction n; intros H; simpl; try reflexivity.
  rewrite uids_element in H. simpl in H.
  destruct (uid e =? c) eqn:E.
  - apply Nat.eqb_eq in E. tauto.
  - f_equal. assert (Hk : Forall (fun k => ~ In c (uids k)) kids) by (apply absent_forall; tauto).
    clear H. induction IH as [|k r Hk' _ IHr]; simpl; [reflexivity|].
    inversion Hk; subst. rewrite Hk', IHr by assumption. reflexivity.
Qed.

Lemma map_replaceChildren_absent c K l :
  ~ In c (uids_of l) -> map (replaceChildren c K) l = l.
Proof.
  intros H. apply absent_forall in H.
  induction H as [|k r Hk _ IH]; simpl; [reflexivity|].
  rewrite replaceChildren_absent, IH by assumption. reflexivity.
Qed.

Lemma childNodes_of_absent c n : ~ In c (uids n) -> childNodes_of c n = None.
Proof.
  node_induction n; intros H; simpl; try reflexivity.
  rewrite uids_element in H. simpl in H.
  destruct (uid e =? c) eqn:E.
  - apply Nat.eqb_eq in E. tauto.
  - apply first_some_none.
    assert (Hk : Forall (fun k => ~ In c (uids k)) kids) by (apply absent_forall; tauto).
    clear H. induction IH as [|k r Hk' _ IHr]; constructor; inversion Hk; subst; auto.
Qed.

Lemma event_path_absent c n : ~ In c (uids n) -> event_path c n = None.
Proof.
  node_induction n; intros H; simpl; try reflexivity.
  rewrite uids_element in H. simpl in H.
  destruct (uid e =? c) eqn:E.
  - apply Nat.eqb_eq in E. tauto.
  - rewrite first_some_none; [reflexivity|].
    assert (Hk : Forall (fun k => ~ In c (uids k)) kids) by (apply absent_forall; tauto).
    clear H. induction IH as [|k r Hk' _ IHr]; constructor; inversion Hk; subst; auto.
Qed.

(** ** The place of an element in tree order *)

Lemma splits_at_forest c l :
  Forall (fun n => NoDup (uids n) -> In c (uids n) ->
            splits_at c (elements n) (childNodes_of c n)
              (fun K => elements (replaceChildren c K n))) l ->
  NoDup (uids_of l) -> In c (uids_of l) ->
  splits_at c (elements_of l) (first_some (childNodes_of c) l)
    (fun K => elements_of (map (replaceChildren c K) l)).
Proof.
  induction 1 as [|k r Hk _ IH]; intros Hnd Hin; [contradiction|].
  rewrite uids_of_cons in Hnd, Hin.
  destruct (in_dec Nat.eq_dec c (uids k)) as [Hck|Hck].
  - destruct (Hk (NoDup_app_remove_r _ _ Hnd) Hck) as (pre & ec & kc & post & Hu & He & Hc & Hr).
    exists pre, ec, kc, (post ++ elements_of r). repeat split.
    + exact Hu.
    + unfold elements_of at 1. simpl. rewrite He.
      rewrite <- app_assoc. simpl. rewrite <- app_assoc. reflexivity.
    + simpl. rewrite Hc. reflexivity.
    + intros K. unfold elements_of at 1. simpl. rewrite Hr.
      rewrite map_replaceChildren_absent
        by (exact (NoDup_app_disjoint _ _ Hnd c Hck)).
      rewrite <- app_assoc. simpl. rewrite <- app_assoc. reflexivity.
  - assert (Hcr : In c (uids_of r))
      by (apply in_app_or in Hin; destruct Hin; [contradiction | assumption]).
    destruct (IH (NoDup_app_remove_l _ _ Hnd) Hcr) as (pre & ec & kc & post & Hu & He & Hc & Hr).
    exists (elements k ++ pre), ec, kc, post. repeat split.
    + exact Hu.
    + unfold elements_of at 1. simpl. fold (elements_of r). rewrite He.
      rewrite <- app_assoc. reflexivity.
    + simpl. rewrite childNodes_of_absent by exact Hck. exact Hc.
    + intros K. unfold elements_of at 1. simpl.
      fold (elements_of (map (replaceChildren c K) r)). rewrite Hr.
      rewrite replaceChildren_absent by exact Hck.
      rewrite <- app_assoc. reflexivity.
Qed.

Lemma splits_at_node c n :
  NoDup (uids n) -> In c (uids n) ->
  splits_at c (elements n) (childNodes_of c n) (fun K => elements (replaceChildren c K n)).
Proof.
  node_induction n; try (simpl; contradiction).
  intros Hnd Hin. rewrite uids_element in Hnd, Hin. simpl.
  destruct (uid e =? c) eqn:E.
  - apply Nat.eqb_eq in E. exists [], e, kids, []. repeat split.
    + exact E.
    + simpl. rewrite app_nil_r. reflexivity.
    + intros K. simpl. rewrite app_nil_r. reflexivity.
  - apply Nat.eqb_neq in E. destruct Hin as [Hin|Hin]; [contradiction|].
    inversion Hnd as [|? ? _ Hnd']; subst.
    destruct (splits_at_forest c kids IH Hnd' Hin) as (pre & ec & kc & post & Hu & He & Hc & Hr).
    exists (e :: pre), ec, kc, post. repeat split.
    + exact Hu.
    + simpl. f_equal. exact He.
    + exact Hc.
    + intros K. simpl. f_equal. apply Hr.
Qed.

Lemma splits_at_document c l :
  NoDup (uids_of l) -> In c (uids_of l) ->
  splits_at c (elements_of l) (first_some (childNodes_of c) l)
    (fun K => elements_of (map (replaceChildren c K) l)).
Proof.
  apply splits_at_forest. apply Forall_forall. intros n _. apply splits_at_node.
Qed.

(** ** Fresh identities are a shift of the local numbering *)

Lemma number_siblings_shift n kids :
  Forall (fun k => forall b, adopt (n + b) k = map_elements (shift_uid n) (adopt b k)) kids ->
  forall b, number_siblings adopt (n + b) kids =
            map (map_elements (shift_uid n)) (number_siblings adopt b kids).
Proof.
  induction 1 as [|k r Hk _ IH]; intros b; simpl; [reflexivity|].
  rewrite Hk, <- Nat.add_assoc, IH. reflexivity.
Qed.

Lemma adopt_shift n x : forall b, adopt (n + b) x = map_elements (shift_uid n) (adopt b x).
Proof.
  node_induction x; intros b; simpl; try reflexivity.
  f_equal. rewrite plus_n_Sm. apply number_siblings_shift. exact IH.
Qed.

Lemma adopt_all_shift n f : adopt_all n f = shift_all n (adopt_all 0 f).
Proof.
  unfold adopt_all, shift_all. rewrite <- (Nat.add_0_r n) at 1.
  apply number_siblings_shift. apply Forall_forall. intros k _ b. apply adopt_shift.
Qed.

Lemma eqb_add_l n a b : (n + a =? n + b) = (a =? b).
Proof.
  destruct (a =? b) eqn:E.
  - apply Nat.eqb_eq in E. subst. apply Nat.eqb_refl.
  - apply Nat.eqb_neq in E. apply Nat.eqb_neq. lia.
Qed.

Lemma select_descendants_shift anc tag n inside x :
  select_descendants anc tag inside (map_elements (shift_uid n) x) =
  map (Nat.add n) (select_descendants anc tag inside x).
Proof.
  revert inside. node_induction x; intros inside; simpl; try reflexivity.
  rewrite map_app. f_equal.
  - unfold has_tag. simpl. destruct (inside && (localName e =? tag)%string); reflexivity.
  - unfold has_id, elem_id. simpl.
    generalize (inside || match assoc "id" (attributes e) with
                          | Some v => (v =? anc)%string
                          | None => false
                          end).
    intros b. induction IH as [|k r Hk _ IHr]; simpl; [reflexivity|].
    rewrite map_app, Hk, IHr. reflexivity.
Qed.

Lemma event_path_shift n u x :
  event_path (n + u) (map_elements (shift_uid n) x) =
  option_map (map (shift_uid n)) (event_path u x).
Proof.
  node_induction x; simpl; try reflexivity.
  rewrite eqb_add_l. destruct (uid e =? u); [reflexivity|].
  assert (H : first_some (event_path (n + u)) (map (map_elements (shift_uid n)) kids) =
              option_map (map (shift_uid n)) (first_some (event_path u) kids)).
  { induction IH as [|k r Hk _ IHr]; simpl; [reflexivity|].
    rewrite Hk. destruct (event_path u k); simpl; [reflexivity | exact IHr]. }
  rewrite H. destruct (first_some (event_path u) kids); simpl; [|reflexivity].
  rewrite map_app. reflexivity.
Qed.

Lemma first_event_path_shift n u f :
  first_some (event_path (n + u)) (shift_all n f) =
  option_map (map (shift_uid n)) (first_some (event_path u) f).
Proof.
  unfold shift_all. induction f as [|k r IH]; simpl; [reflexivity|].
  rewrite event_path_shift. destruct (event_path u k); simpl; [reflexivity | exact IH].
Qed.

Lemma lookup_shift n u f :
  lookup (n + u) (shift_all n f) = option_map (shift_uid n) (lookup u f).
Proof.
  unfold lookup, shift_all. rewrite elements_of_map_elements.
  induction (elements_of f) as [|e r IH]; simpl; [reflexivity|].
  rewrite eqb_add_l. destruct (uid e =? u); [reflexivity | exact IH].
Qed.

(** ** Markup and registered listeners *)

Lemma markup_adopt x : forall b, map_elements strip (adopt b x) = map_elements strip x.
Proof.
  node_induction x; intros b; simpl; try reflexivity.
  f_equal. generalize (S b). induction IH as [|k r Hk _ IHr]; intros b'; simpl; [reflexivity|].
  rewrite Hk, IHr. reflexivity.
Qed.

Lemma markup_adopt_all b f : markup (adopt_all b f) = markup f.
Proof.
  unfold markup, adopt_all. revert b. induction f as [|k r IH]; intros b; simpl; [reflexivity|].
  rewrite markup_adopt, IH. reflexivity.
Qed.

Lemma with_listeners_same e : with_listeners (listeners e ++ []) e = e.
Proof. destruct e. unfold with_listeners. simpl. rewrite app_nil_r. reflexivity. Qed.

Lemma adds_listeners_id P : adds_listeners P (fun e => e).
Proof. intros e. exists []. split; [symmetry; apply with_listeners_same | constructor]. Qed.

Lemma adds_listeners_at_uid P u l :
  P l -> adds_listeners P (at_uid u (register l)).
Proof.
  intros Hl e. unfold at_uid. destruct (uid e =? u).
  - exists [l]. split; [reflexivity | repeat constructor; exact Hl].
  - apply adds_listeners_id.
Qed.

Lemma adds_listeners_compose P f g :
  adds_listeners P f -> adds_listeners P g -> adds_listeners P (fun e => f (g e)).
Proof.
  intros Hf Hg e. destruct (Hg e) as (l1 & -> & H1).
  destruct (Hf (with_listeners (listeners e ++ l1) e)) as (l2 & -> & H2).
  exists (l1 ++ l2). split.
  - unfold with_listeners. simpl. rewrite app_assoc. reflexivity.
  - apply Forall_app. split; assumption.
Qed.

Lemma adds_listeners_keeps_uid P f : adds_listeners P f -> keeps_uid f.
Proof. intros H e. destruct (H e) as (ls & -> & _). reflexivity. Qed.

Lemma adds_listeners_strip P f e : adds_listeners P f -> strip (f e) = strip e.
Proof. intros H. destruct (H e) as (ls & -> & _). reflexivity. Qed.

Lemma adds_listeners_has_id P f s e : adds_listeners P f -> has_id s (f e) = has_id s e.
Proof. intros H. destruct (H e) as (ls & -> & _). reflexivity. Qed.

(** * The mount functions *)

Lemma transform_compose f g d : transform f (transform g d) = transform (fun e => f (g e)) d.
Proof.
  unfold transform. simpl. rewrite !map_map_elements_compose. reflexivity.
Qed.

Lemma transform_same d : transform (fun e => e) d = d.
Proof.
  destruct d as [t dt n]. unfold transform. simpl.
  rewrite !map_map_elements_same by reflexivity. reflexivity.
Qed.

Lemma forEach_addEventListener (P : listener -> Prop) l links :
  P l ->
  forall d, exists g,
    adds_listeners P g /\
    forEach links (fun link d => addEventListener (Some link) l d) d = Ok (transform g d).
Proof.
  intros Hl. induction links as [|u r IH]; intros d.
  - exists (fun e => e). split; [apply adds_listeners_id | rewrite transform_same; reflexivity].
  - destruct (IH (update_element u (register l) d))
      as (g & Hg & Hr).
    exists (fun e => g (at_uid u (register l) e)). split.
    + apply adds_listeners_compose; [exact Hg | apply adds_listeners_at_uid; exact Hl].
    + refine (eq_trans Hr _). change (update_element u ?f d) with (transform (at_uid u f) d).
      rewrite transform_compose. reflexivity.
Qed.

Lemma getElementById_transform P g s d :
  adds_listeners P g -> getElementById s (transform g d) = getElementById s d.
Proof.
  intros Hg. unfold getElementById, transform. simpl.
  rewrite elements_of_map_elements.
  rewrite find_map_keep by (intros e; apply (adds_listeners_has_id _ g s e Hg)).
  destruct (find (has_id s) (elements_of (docNodes d))); simpl; [|reflexivity].
  f_equal. apply (adds_listeners_keeps_uid _ g Hg).
Qed.

Lemma getElementById_in s d c : getElementById s d = Some c -> In c (uids_of (docNodes d)).
Proof.
  unfold getElementById, uids_of. intros H.
  destruct (find (has_id s) (elements_of (docNodes d))) as [e|] eqn:E; [|discriminate].
  injection H as <-. apply in_map. apply (find_some _ _ E).
Qed.



Lemma find_present {A : Type} (p : A -> bool) l x :
  In x l -> p x = true -> exists y, find p l = Some y.
Proof.
  intros Hin Hp. destruct (find p l) as [y|] eqn:E; [exists y; reflexivity|].
  rewrite (find_none _ _ E x Hin) in Hp. discriminate.
Qed.

Lemma shift_has_id s n e : has_id s (shift_uid n e) = has_id s e.
Proof. reflexivity. Qed.

(** The header template has the two elements the script looks up; the
    button is its element 7 and the panel its element 9 in tree order. *)
Lemma headerDOM_menuBtn :
  option_map uid (find (has_id "menuBtn") (elements_of headerDOM)) = Some 7.
Proof. vm_compute. reflexivity. Qed.

Lemma headerDOM_mobileMenu :
  option_map uid (find (has_id "mobileMenu") (elements_of headerDOM)) = Some 9.
Proof. vm_compute. reflexivity. Qed.

Lemma flow_tags_fragment tag s :
  existsb (String.eqb tag) flow_tags = true -> innerHTML_fragment tag s = Some (Html.parse s).
Proof.
  intros H. apply existsb_exists in H. destruct H as (t & Hin & E).
  apply String.eqb_eq in E. subst t. unfold flow_tags in Hin. simpl in Hin.
  repeat (destruct Hin as [<-|Hin]; [reflexivity|]). contradiction.
Qed.

Lemma localName_of_lookup c d e :
  lookup c (docNodes d) = Some e -> localName_of c d = localName e.
Proof.
  unfold lookup, localName_of. intros H. rewrite elements_of_app, find_app, H. reflexivity.
Qed.

(** On a flow container the fragment is the parsed markup. *)
Lemma set_innerHTML_flow c s d :
  flow_container c d = true -> set_innerHTML (Some c) s d = Ok (refilled c s d).
Proof.
  unfold flow_container. intros H.
  destruct (lookup c (docNodes d)) as [e|] eqn:He; [|discriminate].
  unfold set_innerHTML. rewrite (localName_of_lookup c d e He), (flow_tags_fragment _ s H).
  reflexivity.
Qed.

(** On any target: the document is as it was (a [template] element), or the
    children of the target are replaced by one of the fragments that the
    parser makes of the markup. *)
Lemma set_innerHTML_shape c s d :
  set_innerHTML (Some c) s d = Ok d \/
  exists f, In f (fragments_of s) /\ set_innerHTML (Some c) s d = Ok (replaced c f d).
Proof.
  unfold set_innerHTML, innerHTML_fragment, fragments_of.
  destruct (String.eqb (localName_of c d) "template"); [left; reflexivity|].
  right. destruct (is_raw_text (localName_of c d)); [eexists; split; [|reflexivity]; simpl; auto|].
  destruct (String.eqb (localName_of c d) "select"); [eexists; split; [|reflexivity]; simpl; auto|].
  destruct (String.eqb (localName_of c d) "colgroup" || String.eqb (localName_of c d) "frameset");
    [eexists; split; [|reflexivity]; simpl; auto|].
  destruct (String.eqb (localName_of c d) "html"); eexists; (split; [|reflexivity]); simpl; auto 6.
Qed.


(** The block that wires the menu registers listeners only, all of which
    close over the element that the lookup of [mobileMenu] returns. *)
Lemma initMenu_shape d :
  exists g,
    adds_listeners
      (fun l => exists m, getElementById "mobileMenu" d = Some m /\
                          (l = ToggleHidden (Some m) \/ l = AddHidden (Some m))) g /\
    initMenu d = Ok (transform g d).
Proof.
  unfold initMenu.
  destruct (getElementById "menuBtn" d) as [b|] eqn:Hb;
    destruct (getElementById "mobileMenu" d) as [m|] eqn:Hm; cbn [truthy andb];
    try (exists (fun e => e); split; [apply adds_listeners_id | rewrite transform_same; reflexivity]).
  set (P := fun l => exists m0, Some m = Some m0 /\
                                (l = ToggleHidden (Some m0) \/ l = AddHidden (Some m0))).
  set (d2 := update_element b (register (ToggleHidden (Some m))) d).
  assert (HP : P (AddHidden (Some m))) by (exists m; split; [reflexivity | right; reflexivity]).
  destruct (forEach_addEventListener P (AddHidden (Some m)) (querySelectorAll "mobileMenu" "a" d2)
              HP d2) as (g & Hg & Hr).
  exists (fun e => g (at_uid b (register (ToggleHidden (Some m))) e)). split.
  - apply adds_listeners_compose; [exact Hg|].
    apply adds_listeners_at_uid. exists m. split; [reflexivity | left; reflexivity].
  - cbn [addEventListener bind]. refine (eq_trans Hr _).
    unfold d2. change (update_element b ?f d) with (transform (at_uid b f) d).
    rewrite transform_compose. reflexivity.
Qed.

Lemma loadHeader_blocks d :
  loadHeader d =
  if truthy (getElementById "header-container" d)
  then d1 <- set_innerHTML (getElementById "header-container" d) headerHTML d ;; initMenu d1
  else Ok d.
Proof. reflexivity. Qed.

(** What [loadHeader] does on any page that has the placeholder. *)
Lemma loadHeader_shape d c :
  getElementById "header-container" d = Some c ->
  exists d1 g,
    set_innerHTML (Some c) headerHTML d = Ok d1 /\
    adds_listeners
      (fun l => exists m, getElementById "mobileMenu" d1 = Some m /\
                          (l = ToggleHidden (Some m) \/ l = AddHidden (Some m))) g /\
    loadHeader d = Ok (transform g d1).
Proof.
  intros Hc.
  assert (Hd1 : exists d1, set_innerHTML (Some c) headerHTML d = Ok d1)
    by (destruct (set_innerHTML_shape c headerHTML d) as [H|(f & _ & H)]; eexists; exact H).
  destruct Hd1 as (d1 & Hd1). destruct (initMenu_shape d1) as (g & Hg & Hi).
  exists d1, g. split; [exact Hd1|]. split; [exact Hg|].
  rewrite loadHeader_blocks, Hc. cbn [truthy]. rewrite Hd1. exact Hi.
Qed.



Lemma loadFooter_completes d : exists d', loadFooter d = Ok d'.
Proof.
  unfold loadFooter. destruct (getElementById "footer-container" d) as [c|]; cbn [truthy].
  - destruct (set_innerHTML_shape c footerHTML d) as [H|(f & _ & H)]; eexists; exact H.
  - eexists. reflexivity.
Qed.

(** ** What a mount leaves in the placeholder *)

Lemma childNodes_of_replaceChildren c K n :
  In c (uids n) -> childNodes_of c (replaceChildren c K n) = Some K.
Proof.
  node_induction n; intros H; try (simpl in H; contradiction).
  rewrite uids_element in H. simpl. destruct (uid e =? c) eqn:E; simpl; rewrite E; [reflexivity|].
  apply Nat.eqb_neq in E. destruct H as [H|H]; [contradiction|].
  induction IH as [|k r Hk _ IHr]; [contradiction|].
  rewrite uids_of_cons in H. simpl.
  destruct (in_dec Nat.eq_dec c (uids k)) as [Hck|Hck].
  - rewrite Hk by exact Hck. reflexivity.
  - rewrite replaceChildren_absent, childNodes_of_absent by exact Hck.
    apply IHr. apply in_app_or in H. destruct H; [contradiction | assumption].
Qed.

Lemma first_childNodes_of_replaceChildren c K l :
  In c (uids_of l) -> first_some (childNodes_of c) (map (replaceChildren c K) l) = Some K.
Proof.
  induction l as [|k r IH]; intros H; [contradiction|].
  rewrite uids_of_cons in H. simpl.
  destruct (in_dec Nat.eq_dec c (uids k)) as [Hck|Hck].
  - rewrite childNodes_of_replaceChildren by exact Hck. reflexivity.
  - rewrite replaceChildren_absent, childNodes_of_absent by exact Hck.
    apply IH. apply in_app_or in H. destruct H; [contradiction | assumption].
Qed.

Lemma content_replaced c f d :
  In c (uids_of (docNodes d)) -> content c (replaced c f d) = adopt_all (nextUid d) f.
Proof.
  intros Hc. unfold content, replaced. cbn [docNodes].
  rewrite first_childNodes_of_replaceChildren by exact Hc. reflexivity.
Qed.

Lemma content_refilled c s d :
  In c (uids_of (docNodes d)) ->
  content c (refilled c s d) = adopt_all (nextUid d) (Html.parse s).
Proof. apply content_replaced. Qed.


Lemma markup_registered P g f :
  adds_listeners P g -> markup (map (map_elements g) f) = markup f.
Proof.
  intros Hg. unfold markup. rewrite map_map_elements_compose.
  apply map_map_elements_ext. intros e _. apply (adds_listeners_strip P g e Hg).
Qed.


Lemma markup_footerHTML : markup (Html.parse footerHTML) = Html.parse footerHTML.
Proof. vm_compute. reflexivity. Qed.








(** * Mounting *)









(** * Well-formed documents *)

Lemma distinct_NoDup l : distinct l = true <-> NoDup l.
Proof.
  induction l as [|x r IH]; simpl.
  - split; [constructor | reflexivity].
  - rewrite andb_true_iff, negb_true_iff, IH. split.
    + intros [Hx Hr]. constructor; [|exact Hr]. intros Hin.
      assert (E : existsb (Nat.eqb x) r = true)
        by (apply existsb_exists; exists x; split; [exact Hin | apply Nat.eqb_refl]).
      congruence.
    + intros H. inversion H as [|? ? Hx Hr]; subst. split; [|exact Hr].
      destruct (existsb (Nat.eqb x) r) eqn:E; [|reflexivity].
      apply existsb_exists in E. destruct E as (y & Hy & Hxy).
      apply Nat.eqb_eq in Hxy. subst. contradiction.
Qed.

Lemma well_formed_tree d :
  well_formed d = true ->
  NoDup (uids_of (docNodes d)) /\
  forall e, In e (elements_of (docNodes d)) -> below (nextUid d) e = true.
Proof.
  unfold well_formed. rewrite andb_true_iff, distinct_NoDup, forallb_forall.
  intros [Hnd Hb]. split.
  - rewrite uids_of_app in Hnd. exact (NoDup_app_remove_r _ _ Hnd).
  - intros e He. apply Hb. rewrite elements_of_app. apply in_or_app. left. exact He.
Qed.

Lemma below_uid n e : below n e = true -> uid e < n.
Proof. unfold below. rewrite andb_true_iff. intros [H _]. apply Nat.ltb_lt. exact H. Qed.

(** ** Lookups after a replacement *)

Lemma find_replaceChildren (p : element -> bool) c K l :
  NoDup (uids_of l) -> In c (uids_of l) ->
  (forall e, In e (elements_of (map (replaceChildren c []) l)) -> p e = false) ->
  find p (elements_of (map (replaceChildren c K) l)) = find p (elements_of K).
Proof.
  intros Hnd Hc Hout.
  destruct (splits_at_document c l Hnd Hc) as (pre & ec & kc & post & _ & _ & _ & Hr).
  rewrite (Hr []) in Hout. rewrite (Hr K). simpl in Hout.
  rewrite find_app, find_absent by (intros x Hx; apply Hout, in_or_app; left; exact Hx).
  simpl. rewrite Hout by (apply in_or_app; right; left; reflexivity).
  rewrite find_app. destruct (find p (elements_of K)); [reflexivity|].
  apply find_absent. intros x Hx. apply Hout, in_or_app. right. right. exact Hx.
Qed.

Lemma select_descendants_map_elements anc tag g inside n :
  (forall e, uid (g e) = uid e /\ has_tag tag (g e) = has_tag tag e
             /\ has_id anc (g e) = has_id anc e) ->
  select_descendants anc tag inside (map_elements g n) = select_descendants anc tag inside n.
Proof.
  intros Hg. revert inside. node_induction n; intros inside; simpl; try reflexivity.
  destruct (Hg e) as (-> & -> & ->). f_equal.
  generalize (inside || has_id anc e). intros b.
  induction IH as [|k r Hk _ IHr]; simpl; [reflexivity|].
  rewrite Hk, IHr. reflexivity.
Qed.

Lemma select_descendants_none anc tag n :
  (forall e, In e (elements n) -> has_id anc e = false) ->
  select_descendants anc tag false n = [].
Proof.
  node_induction n; intros H; simpl; try reflexivity.
  rewrite (H e) by (left; reflexivity). simpl.
  assert (Hk : forall x, In x (flat_map elements kids) -> has_id anc x = false)
    by (intros x Hx; apply H; right; exact Hx).
  clear H. induction IH as [|k r Hk' _ IHr]; simpl in *; [reflexivity|].
  rewrite Hk', IHr; [reflexivity | |]; intros x Hx; apply Hk, in_or_app; auto.
Qed.

Lemma select_descendants_replaceChildren anc tag c K n :
  NoDup (uids n) ->
  (forall e, In e (elements (replaceChildren c [] n)) -> has_id anc e = false) ->
  select_descendants anc tag false (replaceChildren c K n) =
  if in_dec Nat.eq_dec c (uids n) then flat_map (select_descendants anc tag false) K else [].
Proof.
  node_induction n; intros Hnd Hout; try reflexivity.
  destruct (in_dec Nat.eq_dec c (uids (Element e kids))) as [Hc|Hc].
  2:{ rewrite replaceChildren_absent by exact Hc. apply select_descendants_none.
      intros x Hx. apply Hout. rewrite replaceChildren_absent by exact Hc. exact Hx. }
  rewrite uids_element in Hc, Hnd. simpl in Hout |- *.
  destruct (uid e =? c) eqn:E; simpl in Hout |- *.
  - rewrite (Hout e) by (left; reflexivity). reflexivity.
  - rewrite (Hout e) by (left; reflexivity). simpl.
    apply Nat.eqb_neq in E. destruct Hc as [Hc|Hc]; [contradiction|].
    inversion Hnd as [|? ? _ Hnd']; subst.
    assert (Hk : forall x, In x (flat_map elements (map (replaceChildren c []) kids)) ->
                           has_id anc x = false)
      by (intros x Hx; apply Hout; right; exact Hx).
    clear Hout Hnd. induction IH as [|k r Hk' _ IHr]; [contradiction|].
    rewrite uids_of_cons in Hc, Hnd'. simpl in Hk |- *.
    assert (Hk1 : forall x, In x (elements (replaceChildren c [] k)) -> has_id anc x = false)
      by (intros x Hx; apply Hk, in_or_app; left; exact Hx).
    assert (Hk2 : forall x, In x (flat_map elements (map (replaceChildren c []) r)) ->
                            has_id anc x = false)
      by (intros x Hx; apply Hk, in_or_app; right; exact Hx).
    rewrite (Hk' (NoDup_app_remove_r _ _ Hnd') Hk1).
    destruct (in_dec Nat.eq_dec c (uids k)) as [Hck|Hck].
    + assert (Hcr : ~ In c (uids_of r)) by (exact (NoDup_app_disjoint _ _ Hnd' c Hck)).
      rewrite map_replaceChildren_absent by exact Hcr.
      rewrite map_replaceChildren_absent in Hk2 by exact Hcr.
      assert (Hr : flat_map (select_descendants anc tag false) r = []).
      { clear - Hk2. induction r as [|k' r' IHr']; simpl in *; [reflexivity|].
        rewrite select_descendants_none, IHr'; [reflexivity | |];
          intros x Hx; apply Hk2, in_or_app; auto. }
      rewrite Hr, app_nil_r. reflexivity.
    + simpl. apply IHr; try assumption.
      * apply in_app_or in Hc. destruct Hc; [contradiction | assumption].
      * exact (NoDup_app_remove_l _ _ Hnd').
Qed.

Lemma querySelectorAll_replaceChildren anc tag c K l :
  NoDup (uids_of l) -> In c (uids_of l) ->
  (forall e, In e (elements_of (map (replaceChildren c []) l)) -> has_id anc e = false) ->
  flat_map (select_descendants anc tag false) (map (replaceChildren c K) l) =
  flat_map (select_descendants anc tag false) K.
Proof.
  induction l as [|k r IH]; intros Hnd Hc Hout; [contradiction|].
  rewrite uids_of_cons in Hnd, Hc. unfold elements_of in Hout. simpl in Hout |- *.
  assert (Hk1 : forall x, In x (elements (replaceChildren c [] k)) -> has_id anc x = false)
    by (intros x Hx; apply Hout, in_or_app; left; exact Hx).
  assert (Hk2 : forall x, In x (elements_of (map (replaceChildren c []) r)) ->
                          has_id anc x = false)
    by (intros x Hx; apply Hout, in_or_app; right; exact Hx).
  rewrite (select_descendants_replaceChildren anc tag c K k (NoDup_app_remove_r _ _ Hnd) Hk1).
  destruct (in_dec Nat.eq_dec c (uids k)) as [Hck|Hck].
  - assert (Hcr : ~ In c (uids_of r)) by (exact (NoDup_app_disjoint _ _ Hnd c Hck)).
    rewrite map_replaceChildren_absent by exact Hcr.
    rewrite map_replaceChildren_absent in Hk2 by exact Hcr.
    assert (Hr : flat_map (select_descendants anc tag false) r = []).
    { clear - Hk2. unfold elements_of in Hk2.
      induction r as [|k' r' IHr']; simpl in *; [reflexivity|].
      rewrite select_descendants_none, IHr'; [reflexivity | |];
        intros x Hx; apply Hk2, in_or_app; auto. }
    rewrite Hr, app_nil_r. reflexivity.
  - simpl. apply IH; try assumption.
    + exact (NoDup_app_remove_l _ _ Hnd).
    + apply in_app_or in Hc. destruct Hc; [contradiction | assumption].
Qed.

(** * The header on a page that leaves its ids alone *)

Lemma at_uid_other u f e : uid e <> u -> at_uid u f e = e.
Proof. intros H. unfold at_uid. apply Nat.eqb_neq in H. rewrite H. reflexivity. Qed.

Lemma at_uid_shift n k l e :
  at_uid (n + k) (register l) (shift_uid n e) = shift_uid n (at_uid k (register l) e).
Proof.
  unfold at_uid. simpl. rewrite eqb_add_l. destruct (uid e =? k); reflexivity.
Qed.

Lemma headerDOM_links :
  flat_map (select_descendants "mobileMenu" "a" false) headerDOM = [11; 12].
Proof. vm_compute. reflexivity. Qed.

Lemma headerDOM_size : count_elements_of headerDOM = 13.
Proof. vm_compute. reflexivity. Qed.

Lemma count_elements_map_elements g x : count_elements (map_elements g x) = count_elements x.
Proof.
  node_induction x; simpl; try reflexivity.
  f_equal. induction IH as [|k r Hk _ IHr]; simpl; [reflexivity|].
  rewrite Hk, IHr. reflexivity.
Qed.

Lemma count_elements_of_map_elements g f :
  count_elements_of (map (map_elements g) f) = count_elements_of f.
Proof.
  unfold count_elements_of. induction f as [|k r IH]; simpl; [reflexivity|].
  rewrite count_elements_map_elements, IH. reflexivity.
Qed.

Lemma adopt_headerHTML n : adopt_all n (Html.parse headerHTML) = shift_all n headerDOM.
Proof. apply adopt_all_shift. Qed.

Lemma select_descendants_shift_all anc tag n f :
  flat_map (select_descendants anc tag false) (shift_all n f) =
  map (Nat.add n) (flat_map (select_descendants anc tag false) f).
Proof.
  unfold shift_all. induction f as [|k r IH]; simpl; [reflexivity|].
  rewrite map_app, select_descendants_shift, IH. reflexivity.
Qed.

Lemma select_descendants_registered anc tag u l f :
  flat_map (select_descendants anc tag false) (map (map_elements (at_uid u (register l))) f) =
  flat_map (select_descendants anc tag false) f.
Proof.
  induction f as [|k r IH]; simpl; [reflexivity|].
  rewrite select_descendants_map_elements, IH; [reflexivity|].
  intros e. unfold at_uid. destruct (uid e =? u); repeat split.
Qed.

Lemma ids_unused_outside_spec c d :
  ids_unused_outside c d = true ->
  forall e, In e (outside c d) ->
            has_id "menuBtn" e = false /\ has_id "mobileMenu" e = false.
Proof.
  unfold ids_unused_outside. rewrite forallb_forall. intros H e He.
  specialize (H e He). unfold free_of_ids in H.
  rewrite andb_true_iff, !negb_true_iff in H. exact H.
Qed.

Lemma find_shifted_id s n k :
  option_map uid (find (has_id s) (elements_of headerDOM)) = Some k ->
  option_map uid (find (has_id s) (elements_of (shift_all n headerDOM))) = Some (n + k).
Proof.
  unfold shift_all. rewrite elements_of_map_elements.
  rewrite find_map_keep by (intros e; apply shift_has_id).
  destruct (find (has_id s) (elements_of headerDOM)) as [e|]; simpl; [|discriminate].
  intros H. injection H as ->. reflexivity.
Qed.

Lemma getElementById_refilled s c d k :
  well_formed d = true ->
  In c (uids_of (docNodes d)) ->
  (forall e, In e (outside c d) -> has_id s e = false) ->
  option_map uid (find (has_id s) (elements_of headerDOM)) = Some k ->
  getElementById s (refilled c headerHTML d) = Some (nextUid d + k).
Proof.
  intros Hwf Hc Hout Hk. destruct (well_formed_tree d Hwf) as [Hnd _].
  unfold getElementById, refilled. cbn [docNodes].
  rewrite (find_replaceChildren (has_id s) c _ _ Hnd Hc Hout).
  rewrite adopt_headerHTML. apply find_shifted_id. exact Hk.
Qed.

(** The tree [loadHeader] leaves on a well-formed page that has a flow
    container as placeholder and does not use the ids [menuBtn] and [mobileMenu] outside
    it: the placeholder holds the wired template, the rest is untouched. *)
Lemma loadHeader_fresh d c :
  flow_container c d = true ->
  well_formed d = true ->
  getElementById "header-container" d = Some c ->
  ids_unused_outside c d = true ->
  exists d',
    loadHeader d = Ok d' /\
    nextUid d' = nextUid d + 13 /\
    docNodes d' =
      map (replaceChildren c (shift_all (nextUid d) (headerMounted (Some (nextUid d + 9)))))
          (docNodes d).
Proof.
  intros Hf Hwf Hc Hids. pose proof (getElementById_in _ _ _ Hc) as Hin.
  destruct (well_formed_tree d Hwf) as [Hnd Hbelow].
  pose proof (ids_unused_outside_spec c d Hids) as Hout.
  set (n := nextUid d).
  assert (Hb : getElementById "menuBtn" (refilled c headerHTML d) = Some (n + 7))
    by (apply getElementById_refilled; try assumption;
        [intros e He; apply (Hout e He) | apply headerDOM_menuBtn]).
  assert (Hm : getElementById "mobileMenu" (refilled c headerHTML d) = Some (n + 9))
    by (apply getElementById_refilled; try assumption;
        [intros e He; apply (Hout e He) | apply headerDOM_mobileMenu]).
  set (d2 := update_element (n + 7) (register (ToggleHidden (Some (n + 9))))
               (refilled c headerHTML d)).
  assert (Hq : querySelectorAll "mobileMenu" "a" d2 = [n + 11; n + 12]).
  { unfold querySelectorAll, d2, update_element, refilled. cbn [docNodes].
    rewrite select_descendants_registered.
    rewrite (querySelectorAll_replaceChildren "mobileMenu" "a" c _ _ Hnd Hin)
      by (intros e He; apply (Hout e He)).
    rewrite adopt_headerHTML, select_descendants_shift_all, headerDOM_links. reflexivity. }
  eexists. split; [|split].
  - unfold loadHeader. rewrite Hc. cbn [truthy].
    rewrite (set_innerHTML_flow c headerHTML d Hf).
    cbn [bind]. rewrite Hb, Hm. cbn [truthy andb].
    change (addEventListener (Some (n + 7)) (ToggleHidden (Some (n + 9))) (refilled c headerHTML d))
      with (Ok d2).
    cbn [bind]. rewrite Hq. reflexivity.
  - unfold d2, update_element, refilled. cbn [nextUid]. fold n.
    rewrite adopt_headerHTML. unfold shift_all.
    rewrite count_elements_of_map_elements, headerDOM_size. reflexivity.
  - unfold d2, update_element, refilled. cbn [docNodes].
    rewrite !map_map_elements_compose.
    rewrite map_replaceChildren_map_elements
      by (intros e; unfold at_uid;
          repeat match goal with
                 | |- context [if ?b then _ else _] => destruct b
                 end; reflexivity).
    fold n. f_equal.
    + f_equal. rewrite adopt_headerHTML. unfold shift_all, headerMounted.
      rewrite !map_map_elements_compose. apply map_map_elements_ext.
      intros e _. unfold wire. rewrite !at_uid_shift. reflexivity.
    + apply map_map_elements_same. intros e He.
      pose proof (below_uid _ _ (Hbelow e He)) as Hlt. fold n in Hlt.
      rewrite (at_uid_other (n + 7)) by lia.
      rewrite (at_uid_other (n + 11)) by lia.
      apply at_uid_other. lia.
Qed.

(** * Clicks *)

Lemma click_hears u d :
  click u d = match hears u d with
              | Some ls => fold_left run_listener ls d
              | None => d
              end.
Proof.
  unfold click, hears. destruct (first_some (event_path u) (docNodes d)); reflexivity.
Qed.

Lemma restyles_keeps_uid g : restyles g -> keeps_uid g.
Proof. intros H e. destruct (H e) as (cl & ->). reflexivity. Qed.

Lemma restyles_id : restyles (fun e => e).
Proof. intros e. exists (classList e). destruct e. reflexivity. Qed.

Lemma restyles_at_uid u f : restyles f -> restyles (at_uid u f).
Proof.
  intros H e. unfold at_uid. destruct (uid e =? u); [apply H | apply restyles_id].
Qed.

Lemma restyles_compose f g : restyles f -> restyles g -> restyles (fun e => f (g e)).
Proof.
  intros Hf Hg e. destruct (Hg e) as (c1 & ->).
  destruct (Hf (with_classList c1 e)) as (c2 & ->). exists c2. reflexivity.
Qed.

Lemma run_listener_restyles d l : exists g, restyles g /\ run_listener d l = transform g d.
Proof.
  destruct l as [[m|]|[m|]]; simpl.
  - eexists. split; [|reflexivity]. apply restyles_at_uid. intros e. eexists. reflexivity.
  - exists (fun e => e). split; [apply restyles_id | symmetry; apply transform_same].
  - eexists. split; [|reflexivity]. apply restyles_at_uid. intros e. eexists. reflexivity.
  - exists (fun e => e). split; [apply restyles_id | symmetry; apply transform_same].
Qed.

Lemma run_listeners_restyles ls :
  forall d, exists g, restyles g /\ fold_left run_listener ls d = transform g d.
Proof.
  induction ls as [|l r IH]; intros d; simpl.
  - exists (fun e => e). split; [apply restyles_id | symmetry; apply transform_same].
  - destruct (run_listener_restyles d l) as (g1 & Hg1 & ->).
    destruct (IH (transform g1 d)) as (g2 & Hg2 & ->).
    exists (fun e => g2 (g1 e)). split; [apply restyles_compose; assumption|].
    apply transform_compose.
Qed.

Lemma click_restyles u d : exists g, restyles g /\ click u d = transform g d.
Proof.
  rewrite click_hears. destruct (hears u d) as [ls|].
  - apply run_listeners_restyles.
  - exists (fun e => e). split; [apply restyles_id | symmetry; apply transform_same].
Qed.


Lemma lookup_transform g u d :
  keeps_uid g ->
  lookup u (docNodes (transform g d)) = option_map g (lookup u (docNodes d)).
Proof.
  intros Hg. unfold lookup, transform. simpl. rewrite elements_of_map_elements.
  apply find_map_keep. intros e. rewrite Hg. reflexivity.
Qed.

(** ** The class list *)

Lemma contains_toggle tok l : contains tok (token_toggle tok l) = negb (contains tok l).
Proof.
  unfold token_toggle. destruct (contains tok l) eqn:E; simpl.
  - clear E. unfold contains. induction l as [|t r IH]; simpl; [reflexivity|].
    destruct (String.eqb tok t) eqn:Et; simpl; [exact IH|]. rewrite Et. exact IH.
  - unfold contains. rewrite existsb_app. simpl. rewrite String.eqb_refl.
    rewrite orb_true_r. reflexivity.
Qed.

Lemma contains_add tok l : contains tok (token_add tok l) = true.
Proof.
  unfold token_add. destruct (contains tok l) eqn:E; [exact E|].
  unfold contains. rewrite existsb_app. simpl. rewrite String.eqb_refl.
  rewrite orb_true_r. reflexivity.
Qed.

Lemma present_transform g p d : keeps_uid g -> present p d -> present p (transform g d).
Proof.
  unfold present. intros Hg H. rewrite lookup_transform by exact Hg.
  destruct (lookup p (docNodes d)); [discriminate | contradiction].
Qed.

Lemma lookup_uid u f e : lookup u f = Some e -> uid e = u.
Proof.
  unfold lookup. intros H. apply find_some in H. destruct H as [_ H].
  apply Nat.eqb_eq. exact H.
Qed.

Lemma is_hidden_run_listener p d l :
  present p d ->
  is_hidden p (run_listener d l) = after_listener p l (is_hidden p d).
Proof.
  unfold present, is_hidden. intros Hp.
  destruct l as [[q|]|[q|]];
    cbn [run_listener classList_toggle classList_add after_listener]; try reflexivity.
  - change (update_element q ?f d) with (transform (at_uid q f) d).
    rewrite lookup_transform by (apply keeps_uid_at_uid; intros e; reflexivity).
    destruct (lookup p (docNodes d)) as [e|] eqn:E; [|contradiction]. simpl.
    apply lookup_uid in E. unfold at_uid. rewrite E, Nat.eqb_sym.
    destruct (q =? p); [|reflexivity]. simpl. apply contains_toggle.
  - change (update_element q ?f d) with (transform (at_uid q f) d).
    rewrite lookup_transform by (apply keeps_uid_at_uid; intros e; reflexivity).
    destruct (lookup p (docNodes d)) as [e|] eqn:E; [|contradiction]. simpl.
    apply lookup_uid in E. unfold at_uid. rewrite E, Nat.eqb_sym.
    destruct (q =? p); [|reflexivity]. simpl. apply contains_add.
Qed.

Lemma present_run_listener p d l : present p d -> present p (run_listener d l).
Proof.
  intros H. destruct (run_listener_restyles d l) as (g & Hg & ->).
  apply present_transform; [apply restyles_keeps_uid; exact Hg | exact H].
Qed.

Lemma after_listener_elsewhere p l h : aims_elsewhere p l -> after_listener p l h = h.
Proof.
  unfold aims_elsewhere. destruct l as [[q|]|[q|]]; simpl; intros H; try reflexivity;
    (destruct (q =? p) eqn:E; [apply Nat.eqb_eq in E; subst; contradiction | reflexivity]).
Qed.


(** ** A wired menu *)





(** ** Event paths through a replaced subtree *)

Lemma event_path_replaceChildren b c K pk n :
  ~ In b (uids n) ->
  first_some (event_path b) K = Some pk ->
  event_path b (replaceChildren c K n) = option_map (fun pc => pk ++ pc) (event_path c n).
Proof.
  intros Hb HK. node_induction n; try reflexivity.
  rewrite uids_element in Hb. simpl in Hb.
  assert (Eb : (uid e =? b) = false) by (apply Nat.eqb_neq; tauto).
  simpl. destruct (uid e =? c) eqn:Ec; simpl; rewrite Eb.
  - rewrite HK. reflexivity.
  - assert (Hk : Forall (fun k => ~ In b (uids k)) kids) by (apply absent_forall; tauto).
    assert (H : first_some (event_path b) (map (replaceChildren c K) kids) =
                option_map (fun pc => pk ++ pc) (first_some (event_path c) kids)).
    { clear Hb. induction IH as [|k r Hk' _ IHr]; simpl; [reflexivity|].
      inversion Hk; subst. rewrite Hk' by assumption.
      destruct (event_path c k); simpl; [reflexivity | auto]. }
    rewrite H. destruct (first_some (event_path c) kids); simpl; [|reflexivity].
    rewrite app_assoc. reflexivity.
Qed.

Lemma first_event_path_replaceChildren b c K pk l :
  ~ In b (uids_of l) ->
  first_some (event_path b) K = Some pk ->
  first_some (event_path b) (map (replaceChildren c K) l) =
  option_map (fun pc => pk ++ pc) (first_some (event_path c) l).
Proof.
  intros Hb HK. apply absent_forall in Hb.
  induction Hb as [|k r Hk _ IH]; simpl; [reflexivity|].
  rewrite (event_path_replaceChildren b c K pk k Hk HK).
  destruct (event_path c k); simpl; [reflexivity | exact IH].
Qed.

Lemma event_path_present c n :
  In c (uids n) -> exists pc, event_path c n = Some pc /\ incl pc (elements n).
Proof.
  node_induction n; intros H; try (simpl in H; contradiction).
  rewrite uids_element in H. simpl. destruct (uid e =? c) eqn:E.
  - exists [e]. split; [reflexivity|]. intros x [<-|[]]. left. reflexivity.
  - apply Nat.eqb_neq in E. destruct H as [H|H]; [contradiction|].
    assert (Hk : exists pc, first_some (event_path c) kids = Some pc /\
                            incl pc (flat_map elements kids)).
    { induction IH as [|k r Hk _ IHr]; [contradiction|].
      rewrite uids_of_cons in H. simpl.
      destruct (in_dec Nat.eq_dec c (uids k)) as [Hck|Hck].
      - destruct (Hk Hck) as (pc & -> & Hincl). exists pc. split; [reflexivity|].
        intros x Hx. apply in_or_app. left. apply Hincl, Hx.
      - rewrite event_path_absent by exact Hck.
        apply in_app_or in H. destruct H as [H|H]; [contradiction|].
        destruct (IHr H) as (pc & Hpc & Hincl). exists pc. split; [exact Hpc|].
        intros x Hx. apply in_or_app. right. apply Hincl, Hx. }
    destruct Hk as (pc & -> & Hincl). exists (pc ++ [e]). split; [reflexivity|].
    intros x Hx. apply in_app_or in Hx. destruct Hx as [Hx|[<-|[]]].
    + right. apply Hincl, Hx.
    + left. reflexivity.
Qed.

Lemma first_event_path_present c l :
  In c (uids_of l) ->
  exists pc, first_some (event_path c) l = Some pc /\ incl pc (elements_of l).
Proof.
  induction l as [|k r IH]; intros H; [contradiction|].
  rewrite uids_of_cons in H. simpl. unfold elements_of. simpl.
  destruct (in_dec Nat.eq_dec c (uids k)) as [Hck|Hck].
  - destruct (event_path_present c k Hck) as (pc & -> & Hincl). exists pc.
    split; [reflexivity|]. intros x Hx. apply in_or_app. left. apply Hincl, Hx.
  - rewrite event_path_absent by exact Hck.
    apply in_app_or in H. destruct H as [H|H]; [contradiction|].
    destruct (IH H) as (pc & Hpc & Hincl). exists pc. split; [exact Hpc|].
    intros x Hx. apply in_or_app. right. apply Hincl, Hx.
Qed.

(** ** The wired template *)

Lemma headerMounted_button m :
  option_map (flat_map listeners) (first_some (event_path 7) (headerMounted m)) =
  Some [ToggleHidden m].
Proof. vm_compute. reflexivity. Qed.

Lemma headerMounted_link m k :
  In k [11; 12] ->
  option_map (flat_map listeners) (first_some (event_path k) (headerMounted m)) =
  Some [AddHidden m].
Proof. intros [<-|[<-|[]]]; vm_compute; reflexivity. Qed.

Lemma headerMounted_panel m :
  option_map (fun e => contains "hidden" (classList e)) (lookup 9 (headerMounted m)) = Some true.
Proof. vm_compute. reflexivity. Qed.

Lemma headerMounted_parts m :
  option_map uid (find is_toggle_button (elements_of (headerMounted m))) = Some 7 /\
  option_map uid (find is_mobile_panel (elements_of (headerMounted m))) = Some 9 /\
  flat_map (select_descendants "mobileMenu" "a" false) (headerMounted m) = [11; 12].
Proof. vm_compute. repeat split. Qed.

Lemma find_shift_all (p : element -> bool) n f k :
  (forall e, p (shift_uid n e) = p e) ->
  option_map uid (find p (elements_of f)) = Some k ->
  option_map uid (find p (elements_of (shift_all n f))) = Some (n + k).
Proof.
  intros Hp. unfold shift_all. rewrite elements_of_map_elements, find_map_keep by exact Hp.
  destruct (find p (elements_of f)) as [e|]; simpl; [|discriminate].
  intros H. injection H as ->. reflexivity.
Qed.

Lemma flat_map_listeners_shift n p :
  flat_map listeners (map (shift_uid n) p) = flat_map listeners p.
Proof. induction p as [|e r IH]; simpl; [reflexivity|]. rewrite IH. reflexivity. Qed.

Lemma outside_incl c d :
  well_formed d = true -> In c (uids_of (docNodes d)) ->
  incl (outside c d) (elements_of (docNodes d)).
Proof.
  intros Hwf Hc. destruct (well_formed_tree d Hwf) as [Hnd _].
  destruct (splits_at_document c _ Hnd Hc) as (pre & ec & kc & post & _ & He & _ & Hr).
  unfold outside, cut. rewrite (Hr []), He. simpl.
  intros x Hx. apply in_app_or in Hx. apply in_or_app.
  destruct Hx as [Hx|[Hx|Hx]]; [left; exact Hx | right; left; exact Hx |].
  right. right. apply in_or_app. right. exact Hx.
Qed.

(** On a well-formed page that keeps the ids free and has a flow container
    as placeholder, [loadHeader] leaves a wired menu with the panel hidden. *)
Lemma loadHeader_wired d c :
  flow_container c d = true ->
  well_formed d = true ->
  getElementById "header-container" d = Some c ->
  ids_unused_outside c d = true ->
  exists d',
    loadHeader d = Ok d' /\
    toggle_button_of c d' = Some (nextUid d + 7) /\
    mobile_panel_of c d' = Some (nextUid d + 9) /\
    panel_links_of c d' = [nextUid d + 11; nextUid d + 12] /\
    wired (nextUid d + 7) (nextUid d + 9) [nextUid d + 11; nextUid d + 12] d' /\
    is_hidden (nextUid d + 9) d' = true.
Proof.
  intros Hf Hwf Hc Hids. pose proof (getElementById_in _ _ _ Hc) as Hin.
  destruct (well_formed_tree d Hwf) as [Hnd Hbelow].
  destruct (loadHeader_fresh d c Hf Hwf Hc Hids) as (d' & Hd' & _ & Ht).
  set (n := nextUid d) in *. set (m := Some (n + 9)) in *.
  destruct (headerMounted_parts m) as (Hpb & Hpp & Hpl).
  assert (Hcontent : content c d' = shift_all n (headerMounted m))
    by (unfold content; rewrite Ht, first_childNodes_of_replaceChildren by exact Hin;
        reflexivity).
  assert (Hfresh : forall k e, In e (elements_of (docNodes d)) -> uid e <> n + k)
    by (intros k e He; pose proof (below_uid _ _ (Hbelow e He)); fold n in H; lia).
  assert (Habsent : forall k, ~ In (n + k) (uids_of (docNodes d))).
  { intros k Hk. unfold uids_of in Hk. apply in_map_iff in Hk.
    destruct Hk as (e & He & Hin'). exact (Hfresh k e Hin' He). }
  destruct (first_event_path_present c _ Hin) as (pc & Hpc & Hincl).
  assert (Hold : Forall (aims_elsewhere (n + 9)) (flat_map listeners pc)).
  { apply Forall_forall. intros l Hl. apply in_flat_map in Hl.
    destruct Hl as (e & He & Hl). specialize (Hbelow e (Hincl e He)).
    unfold below in Hbelow. rewrite andb_true_iff, forallb_forall in Hbelow.
    destruct Hbelow as [_ Hls]. specialize (Hls l Hl). unfold target_below in Hls.
    unfold aims_elsewhere. destruct (target_of l) as [q|]; [|discriminate].
    apply Nat.ltb_lt in Hls. fold n in Hls. intros E. injection E as ->. lia. }
  assert (Hhears : forall k ls,
             option_map (flat_map listeners) (first_some (event_path k) (headerMounted m))
             = Some ls ->
             hears (n + k) d' = Some (ls ++ flat_map listeners pc)).
  { intros k ls Hk. unfold hears. rewrite Ht.
    pose proof (first_event_path_shift n k (headerMounted m)) as Hs.
    destruct (first_some (event_path k) (headerMounted m)) as [pk|]; [|discriminate].
    cbn [option_map] in Hs, Hk. injection Hk as <-.
    rewrite (first_event_path_replaceChildren _ c _ _ _ (Habsent k) Hs), Hpc.
    cbn [option_map].
    rewrite flat_map_app, flat_map_listeners_shift. reflexivity. }
  exists d'. split; [exact Hd'|]. unfold toggle_button_of, mobile_panel_of, panel_links_of.
  rewrite Hcontent. split; [|split; [|split; [|split; [split|]]]].
  - apply find_shift_all; [reflexivity | exact Hpb].
  - apply find_shift_all; [reflexivity | exact Hpp].
  - rewrite select_descendants_shift_all, Hpl. reflexivity.
  - unfold present, lookup. rewrite Ht.
    rewrite (find_replaceChildren (fun e => uid e =? n + 9) c _ _ Hnd Hin)
      by (intros e He; apply Nat.eqb_neq, Hfresh, (outside_incl c d Hwf Hin), He).
    fold (lookup (n + 9) (shift_all n (headerMounted m))). rewrite lookup_shift.
    pose proof (headerMounted_panel m) as Hp.
    destruct (lookup 9 (headerMounted m)); [discriminate | discriminate].
  - exists (flat_map listeners pc). split; [|exact Hold].
    apply (Hhears 7 [ToggleHidden m]). apply headerMounted_button.
  - intros l Hl. exists (flat_map listeners pc). split; [|exact Hold].
    assert (Hk : exists k, l = n + k /\ In k [11; 12])
      by (destruct Hl as [<-|[<-|[]]]; eexists; split; try reflexivity; simpl; auto).
    destruct Hk as (k & -> & Hk). apply (Hhears k [AddHidden m]).
    apply headerMounted_link. exact Hk.
  - unfold is_hidden, lookup. rewrite Ht.
    rewrite (find_replaceChildren (fun e => uid e =? n + 9) c _ _ Hnd Hin)
      by (intros e He; apply Nat.eqb_neq, Hfresh, (outside_incl c d Hwf Hin), He).
    fold (lookup (n + 9) (shift_all n (headerMounted m))). rewrite lookup_shift.
    pose proof (headerMounted_panel m) as Hp.
    destruct (lookup 9 (headerMounted m)) as [e|]; [|discriminate].
    cbn [option_map] in Hp |- *. injection Hp as Hp. exact Hp.
Qed.

(** * Well-formedness is kept *)

Lemma well_formed_intro d :
  NoDup (uids_of (docNodes d ++ detached d)) ->
  (forall e, In e (elements_of (docNodes d ++ detached d)) -> below (nextUid d) e = true) ->
  well_formed d = true.
Proof.
  intros Hnd Hb. unfold well_formed. rewrite andb_true_iff, distinct_NoDup, forallb_forall.
  split; assumption.
Qed.

Lemma well_formed_elim d :
  well_formed d = true ->
  NoDup (uids_of (docNodes d ++ detached d)) /\
  (forall e, In e (elements_of (docNodes d ++ detached d)) -> below (nextUid d) e = true).
Proof.
  unfold well_formed. rewrite andb_true_iff, distinct_NoDup, forallb_forall. tauto.
Qed.

Lemma below_mono n n' e : n <= n' -> below n e = true -> below n' e = true.
Proof.
  unfold below. rewrite !andb_true_iff, !forallb_forall. intros Hle [Hu Hl]. split.
  - apply Nat.ltb_lt. apply Nat.ltb_lt in Hu. lia.
  - intros l Hin. specialize (Hl l Hin). unfold target_below in *.
    destruct (target_of l); [|reflexivity].
    apply Nat.ltb_lt. apply Nat.ltb_lt in Hl. lia.
Qed.

Lemma headerDOM_ok : fragment_ok headerDOM = true.
Proof. vm_compute. reflexivity. Qed.

Lemma footerDOM_ok : fragment_ok footerDOM = true.
Proof. vm_compute. reflexivity. Qed.

Lemma removed_children_split c d kc :
  first_some (childNodes_of c) (docNodes d) = Some kc -> removed_children c d = kc.
Proof. intros H. unfold removed_children. rewrite first_some_app, H. reflexivity. Qed.

Lemma well_formed_replaced f c d :
  well_formed d = true ->
  In c (uids_of (docNodes d)) ->
  fragment_ok (adopt_all 0 f) = true ->
  well_formed (replaced c f d) = true.
Proof.
  intros Hwf Hc Hok. destruct (well_formed_elim d Hwf) as [Hnd Hb].
  set (n := nextUid d) in *. set (K0 := adopt_all 0 f) in *.
  unfold fragment_ok in Hok. rewrite andb_true_iff, distinct_NoDup, forallb_forall in Hok.
  destruct Hok as [HndK HbK].
  assert (HK : adopt_all n f = shift_all n K0) by apply adopt_all_shift.
  rewrite uids_of_app in Hnd. rewrite elements_of_app in Hb.
  destruct (splits_at_document c _ (NoDup_app_remove_r _ _ Hnd) Hc)
    as (pre & ec & kc & post & _ & He & Hkc & Hr).
  assert (HcD : ~ In c (uids_of (detached d))) by (exact (NoDup_app_disjoint _ _ Hnd c Hc)).
  assert (Hels : elements_of (docNodes (replaced c f d) ++ detached (replaced c f d)) =
                 (pre ++ [ec] ++ elements_of (shift_all n K0) ++ post)
                 ++ elements_of (detached d) ++ elements_of kc).
  { unfold replaced. cbn [docNodes detached]. fold n. rewrite HK.
    rewrite (map_replaceChildren_absent c _ (detached d) HcD).
    rewrite (removed_children_split c d kc Hkc).
    rewrite !elements_of_app, Hr. reflexivity. }
  assert (Hold : elements_of (docNodes d) ++ elements_of (detached d) =
                 (pre ++ [ec] ++ elements_of kc ++ post) ++ elements_of (detached d))
    by (rewrite He; reflexivity).
  assert (HelsK : elements_of (shift_all n K0) = map (shift_uid n) (elements_of K0))
    by apply elements_of_map_elements.
  assert (Hnew : forall e, In e (elements_of (shift_all n K0)) ->
                           n <= uid e < n + count_elements_of K0 /\ listeners e = []).
  { intros e Hin. rewrite HelsK in Hin. apply in_map_iff in Hin.
    destruct Hin as (e0 & <- & Hin0). specialize (HbK e0 Hin0).
    rewrite andb_true_iff in HbK. destruct HbK as [Hlt Hun]. apply Nat.ltb_lt in Hlt.
    simpl. split; [lia|]. unfold unheard in Hun. destruct (listeners e0); [reflexivity | discriminate]. }
  assert (Hsize : count_elements_of (adopt_all n f) = count_elements_of K0)
    by (rewrite HK; apply count_elements_of_map_elements).
  apply well_formed_intro.
  - unfold uids_of in *. rewrite Hels. rewrite <- map_app, Hold in Hnd.
    apply (NoDup_count_occ Nat.eq_dec). intros x.
    apply (proj1 (NoDup_count_occ Nat.eq_dec _)) with (x := x) in Hnd.
    assert (HKx : count_occ Nat.eq_dec (map uid (elements_of (shift_all n K0))) x <= 1).
    { apply (NoDup_count_occ Nat.eq_dec). rewrite HelsK, map_map. simpl.
      change (fun e => n + uid e) with (fun e => Nat.add n (uid e)).
      rewrite <- (map_map uid (Nat.add n)). apply NoDup_map_inv with (f := fun k => k - n).
      rewrite map_map. rewrite (map_ext _ (fun k => k)) by (intros k; lia).
      rewrite map_id. exact HndK. }
    assert (Hdisj : count_occ Nat.eq_dec (map uid (elements_of (shift_all n K0))) x > 0 ->
                    count_occ Nat.eq_dec
                      (map uid ((pre ++ [ec] ++ elements_of kc ++ post)
                                ++ elements_of (detached d))) x = 0).
    { intros Hpos. apply count_occ_In in Hpos. apply in_map_iff in Hpos.
      destruct Hpos as (e & <- & Hin). apply count_occ_not_In. intros Hin'.
      apply in_map_iff in Hin'. destruct Hin' as (e' & Heq & Hin').
      rewrite <- Hold in Hin'. pose proof (below_uid _ _ (Hb e' Hin')) as Hlt.
      destruct (Hnew e Hin) as [Hge _]. lia. }
    unfold ref in *. rewrite !map_app, !count_occ_app in *. lia.
  - intros e Hin. rewrite Hels in Hin. unfold replaced. cbn [nextUid]. fold n.
    rewrite Hsize.
    assert (Hcase : In e (elements_of (shift_all n K0)) \/
                    In e (elements_of (docNodes d) ++ elements_of (detached d))).
    { rewrite Hold. repeat (apply in_app_or in Hin; destruct Hin as [Hin|Hin]);
        try (left; exact Hin); right; repeat (rewrite in_app_iff); tauto. }
    destruct Hcase as [HinK|HinO].
    + destruct (Hnew e HinK) as [Hu Hl]. unfold below. rewrite Hl. simpl.
      rewrite andb_true_r. apply Nat.ltb_lt. lia.
    + apply (below_mono n); [lia | apply Hb; exact HinO].
Qed.


(** Every fragment that the parser makes of a template, whatever the
    target, gets distinct identities and has no listeners. *)
Lemma header_fragments_ok :
  forallb (fun f => fragment_ok (adopt_all 0 f)) (fragments_of headerHTML) = true.
Proof. vm_compute. reflexivity. Qed.

Lemma footer_fragments_ok :
  forallb (fun f => fragment_ok (adopt_all 0 f)) (fragments_of footerHTML) = true.
Proof. vm_compute. reflexivity. Qed.

(** [target.innerHTML = template] keeps a document well-formed. *)
Lemma well_formed_set_innerHTML c s d d1 :
  forallb (fun f => fragment_ok (adopt_all 0 f)) (fragments_of s) = true ->
  well_formed d = true ->
  In c (uids_of (docNodes d)) ->
  set_innerHTML (Some c) s d = Ok d1 ->
  well_formed d1 = true.
Proof.
  intros Hok Hwf Hc H. rewrite forallb_forall in Hok.
  destruct (set_innerHTML_shape c s d) as [E|(f & Hf & E)]; rewrite E in H.
  - assert (d1 = d) by congruence. subst d1. exact Hwf.
  - assert (E1 : d1 = replaced c f d) by congruence. rewrite E1.
    apply (well_formed_replaced f c d Hwf Hc (Hok f Hf)).
Qed.

Lemma well_formed_transform g d :
  well_formed d = true ->
  adds_listeners (fun l => target_below (nextUid d) l = true) g ->
  well_formed (transform g d) = true.
Proof.
  intros Hwf Hg. destruct (well_formed_elim d Hwf) as [Hnd Hb].
  assert (Hels : elements_of (docNodes (transform g d) ++ detached (transform g d)) =
                 map g (elements_of (docNodes d ++ detached d))).
  { unfold transform. cbn [docNodes detached]. rewrite <- map_app.
    apply elements_of_map_elements. }
  apply well_formed_intro.
  - unfold uids_of. rewrite Hels, map_map.
    rewrite (map_ext _ uid) by (intros e; apply (adds_listeners_keeps_uid _ g Hg)).
    exact Hnd.
  - intros e Hin. rewrite Hels in Hin. apply in_map_iff in Hin.
    destruct Hin as (e0 & <- & Hin0). specialize (Hb e0 Hin0).
    destruct (Hg e0) as (ls & -> & Hls). unfold transform. cbn [nextUid].
    unfold below in *. simpl. rewrite andb_true_iff in *. destruct Hb as [Hu Hl].
    split; [exact Hu|]. rewrite forallb_app, Hl. simpl.
    apply forallb_forall. intros l Hl'. rewrite Forall_forall in Hls. apply Hls, Hl'.
Qed.

(** [loadFooter] keeps a document well-formed. *)
Lemma well_formed_loadFooter d d' :
  well_formed d = true -> loadFooter d = Ok d' -> well_formed d' = true.
Proof.
  intros Hwf. unfold loadFooter.
  destruct (getElementById "footer-container" d) as [c|] eqn:Hc; cbn [truthy]; intros H.
  - apply (well_formed_set_innerHTML c footerHTML d d' footer_fragments_ok Hwf
             (getElementById_in _ _ _ Hc) H).
  - injection H as <-. exact Hwf.
Qed.

(** A placeholder found by id is still found after its content was replaced. *)
Lemma getElementById_kept s c K l :
  NoDup (uids_of l) ->
  option_map uid (find (has_id s) (elements_of l)) = Some c ->
  option_map uid (find (has_id s) (elements_of (map (replaceChildren c K) l))) = Some c.
Proof.
  intros Hnd Hf.
  assert (Hc : In c (uids_of l)).
  { destruct (find (has_id s) (elements_of l)) as [e|] eqn:E; [|discriminate].
    injection Hf as <-. apply in_map. apply (find_some _ _ E). }
  destruct (splits_at_document c l Hnd Hc) as (pre & ec & kc & post & Hu & He & _ & Hr).
  rewrite (Hr K). rewrite He in Hf. unfold uids_of in Hnd. rewrite He, map_app in Hnd.
  simpl in Hnd. apply NoDup_remove_2 in Hnd. rewrite Hu in Hnd.
  rewrite find_app in Hf |- *.
  destruct (find (has_id s) pre) as [e1|] eqn:E1.
  - exfalso. apply Hnd, in_or_app. left. simpl in Hf. injection Hf as <-.
    apply in_map. apply (find_some _ _ E1).
  - simpl in Hf |- *. destruct (has_id s ec); [simpl; f_equal; exact Hu|].
    exfalso. apply Hnd, in_or_app. right.
    destruct (find (has_id s) (elements_of kc ++ post)) as [e2|] eqn:E2; [|discriminate].
    injection Hf as <-. apply in_map. apply (find_some _ _ E2).
Qed.

(** The children of an element change, its place and its data do not. *)
Lemma find_replaced_placeholder s c f d :
  NoDup (uids_of (docNodes d)) ->
  getElementById s d = Some c ->
  getElementById s (replaced c f d) = Some c.
Proof.
  intros Hnd Hc. unfold getElementById, replaced. cbn [docNodes].
  apply getElementById_kept; [exact Hnd | exact Hc].
Qed.

(** What every run of [loadHeader] on a well-formed page with the
    placeholder amounts to, whatever the placeholder is: [innerHTML] leaves
    a well-formed document that keeps the placeholder, then listeners are
    registered that close over the panel found in it, and the document stays
    well-formed. *)
Lemma loadHeader_step_any d c :
  well_formed d = true ->
  getElementById "header-container" d = Some c ->
  exists d1 g,
    set_innerHTML (Some c) headerHTML d = Ok d1 /\
    (d1 = d \/ exists f, In f (fragments_of headerHTML) /\ d1 = replaced c f d) /\
    well_formed d1 = true /\
    getElementById "header-container" d1 = Some c /\
    adds_listeners
      (fun l => exists m, getElementById "mobileMenu" d1 = Some m /\
                          (l = ToggleHidden (Some m) \/ l = AddHidden (Some m))) g /\
    loadHeader d = Ok (transform g d1) /\
    well_formed (transform g d1) = true /\
    getElementById "header-container" (transform g d1) = Some c.
Proof.
  intros Hwf Hc. pose proof (getElementById_in _ _ _ Hc) as Hin.
  destruct (well_formed_tree d Hwf) as [Hnd _].
  destruct (loadHeader_shape d c Hc) as (d1 & g & Hd1 & Hg & Hd').
  pose proof (well_formed_set_innerHTML c headerHTML d d1 header_fragments_ok Hwf Hin Hd1)
    as Hwf1.
  assert (Hshape : d1 = d \/ exists f, In f (fragments_of headerHTML) /\ d1 = replaced c f d).
  { destruct (set_innerHTML_shape c headerHTML d) as [E|(f & Hf & E)]; rewrite E in Hd1.
    - left. congruence.
    - right. exists f. split; [exact Hf | congruence]. }
  assert (Hc1 : getElementById "header-container" d1 = Some c).
  { destruct Hshape as [->|(f & _ & ->)]; [exact Hc|].
    apply find_replaced_placeholder; assumption. }
  exists d1, g. split; [exact Hd1|]. split; [exact Hshape|]. split; [exact Hwf1|].
  split; [exact Hc1|]. split; [exact Hg|]. split; [exact Hd'|]. split.
  - apply well_formed_transform; [exact Hwf1|].
    intros e. destruct (Hg e) as (ls & Hls & HP). exists ls. split; [exact Hls|].
    apply Forall_forall. intros l Hl. rewrite Forall_forall in HP.
    destruct (HP l Hl) as (m & Hm & Hlm).
    assert (Hmlt : m < nextUid d1).
    { destruct (well_formed_tree _ Hwf1) as [_ Hb1]. unfold getElementById in Hm.
      destruct (find (has_id "mobileMenu") (elements_of (docNodes d1))) as [e1|] eqn:E;
        [|discriminate].
      injection Hm as <-. apply below_uid, Hb1. apply (find_some _ _ E). }
    unfold target_below. destruct Hlm as [-> | ->]; simpl; apply Nat.ltb_lt; exact Hmlt.
  - rewrite (getElementById_transform _ g _ _ Hg). exact Hc1.
Qed.


(** [loadHeader] keeps a document well-formed. *)
Lemma well_formed_loadHeader d d' :
  well_formed d = true -> loadHeader d = Ok d' -> well_formed d' = true.
Proof.
  intros Hwf H. destruct (getElementById "header-container" d) as [c|] eqn:Hc.
  - destruct (loadHeader_step_any d c Hwf Hc) as (d1 & g & _ & _ & _ & _ & _ & Hd1 & Hwf1 & _).
    assert (E : d' = transform g d1) by congruence. rewrite E. exact Hwf1.
  - unfold loadHeader in H. rewrite Hc in H. injection H as <-. exact Hwf.
Qed.

(** * The menu *)







Lemma cut_replaced c f d : cut c (replaced c f d) = cut c d.
Proof. unfold cut, replaced. cbn [docNodes]. apply map_replaceChildren_twice. Qed.

(** The part outside the placeholder after [innerHTML] was assigned: as
    before, whatever the placeholder is. *)
Lemma cut_set_innerHTML c s d d1 :
  set_innerHTML (Some c) s d = Ok d1 -> cut c d1 = cut c d.
Proof.
  intros H. destruct (set_innerHTML_shape c s d) as [E|(f & _ & E)]; rewrite E in H.
  - assert (d1 = d) by congruence. subst d1. reflexivity.
  - assert (E1 : d1 = replaced c f d) by congruence. rewrite E1. apply cut_replaced.
Qed.

Lemma cut_transform g c d :
  keeps_uid g -> cut c (transform g d) = map (map_elements g) (cut c d).
Proof.
  intros Hk. unfold cut, transform. cbn [docNodes].
  rewrite (map_replaceChildren_map_elements g c [] _ Hk). reflexivity.
Qed.

(** * Mounting again *)

(** The part outside the placeholder after [loadHeader]: as before, up to
    listeners that were registered. *)
Lemma cut_loadHeader d c :
  getElementById "header-container" d = Some c ->
  exists d' g,
    loadHeader d = Ok d' /\
    adds_listeners (fun _ => True) g /\
    cut c d' = map (map_elements g) (cut c d).
Proof.
  intros Hc. destruct (loadHeader_shape d c Hc) as (d1 & g & Hd1 & Hg & Hd').
  exists (transform g d1), g. split; [exact Hd'|]. split.
  - intros e. destruct (Hg e) as (ls & Hls & _). exists ls. split; [exact Hls|].
    apply Forall_forall. intros; exact I.
  - rewrite (cut_transform g c d1 (adds_listeners_keeps_uid _ g Hg)).
    rewrite (cut_set_innerHTML c headerHTML d d1 Hd1). reflexivity.
Qed.




(** An element keeps its data when its children are replaced. *)
Lemma lookup_replaceChildren_self c K l :
  NoDup (uids_of l) -> In c (uids_of l) ->
  lookup c (map (replaceChildren c K) l) = lookup c l.
Proof.
  intros Hnd Hc.
  destruct (splits_at_document c l Hnd Hc) as (pre & ec & kc & post & Hu & He & _ & Hr).
  unfold lookup. rewrite (Hr K), He, !find_app.
  destruct (find (fun e => uid e =? c) pre); [reflexivity|].
  simpl. rewrite Hu, Nat.eqb_refl. reflexivity.
Qed.

Lemma localName_registered P g e : adds_listeners P g -> localName (g e) = localName e.
Proof. intros H. destruct (H e) as (ls & -> & _). reflexivity. Qed.








(** ** Counting after a mount *)









(** * Frame *)

Lemma silence_registered P g f :
  adds_listeners P g -> silence (map (map_elements g) f) = silence f.
Proof.
  intros Hg. unfold silence. rewrite map_map_elements_compose.
  apply map_map_elements_ext. intros e _. destruct (Hg e) as (ls & -> & _). reflexivity.
Qed.

(** ** The menu block touches the content of the placeholder only *)

Lemma forEach_addEventListener_on l links :
  forall d, exists g,
    keeps_uid g /\
    (forall e, ~ In (uid e) links -> g e = e) /\
    forEach links (fun link d => addEventListener (Some link) l d) d = Ok (transform g d).
Proof.
  induction links as [|u r IH]; intros d.
  - exists (fun e => e). split; [intros e; reflexivity|]. split; [reflexivity|].
    rewrite transform_same. reflexivity.
  - destruct (IH (update_element u (register l) d)) as (g & Hk & Hg & Hr).
    exists (fun e => g (at_uid u (register l) e)). split; [|split].
    + intros e. rewrite Hk. unfold at_uid. destruct (uid e =? u); reflexivity.
    + intros e He. rewrite at_uid_other by (intros E; apply He; left; symmetry; exact E).
      apply Hg. intros Hin. apply He. right. exact Hin.
    + refine (eq_trans Hr _). change (update_element u ?f d) with (transform (at_uid u f) d).
      rewrite transform_compose. reflexivity.
Qed.

Lemma select_descendants_uids anc tag n :
  forall inside, incl (select_descendants anc tag inside n) (uids n).
Proof.
  node_induction n; intros inside u Hu; try (simpl in Hu; contradiction).
  rewrite uids_element. simpl in Hu. apply in_app_or in Hu. destruct Hu as [Hu|Hu].
  - destruct (inside && has_tag tag e); [|contradiction].
    destruct Hu as [<-|[]]. left. reflexivity.
  - right. revert Hu. generalize (inside || has_id anc e). intros b Hu.
    induction IH as [|k r Hk _ IHr]; [contradiction|].
    rewrite uids_of_cons. simpl in Hu. apply in_or_app. apply in_app_or in Hu.
    destruct Hu as [Hu|Hu]; [left; apply (Hk b); exact Hu | right; apply IHr; exact Hu].
Qed.

Lemma querySelectorAll_uids anc tag l :
  incl (flat_map (select_descendants anc tag false) l) (uids_of l).
Proof.
  induction l as [|k r IH]; intros u Hu; [contradiction|].
  rewrite uids_of_cons. simpl in Hu. apply in_or_app. apply in_app_or in Hu.
  destruct Hu as [Hu|Hu]; [left; apply (select_descendants_uids anc tag k false); exact Hu|].
  right. apply IH. exact Hu.
Qed.

Lemma childNodes_of_found c n kc : childNodes_of c n = Some kc -> In c (uids n).
Proof.
  intros H. destruct (in_dec Nat.eq_dec c (uids n)) as [Hin|Hin]; [exact Hin|].
  rewrite (childNodes_of_absent c n Hin) in H. discriminate.
Qed.

(** Giving an element the children it has changes nothing. *)
Lemma map_replaceChildren_own c kc l :
  Forall (fun n => NoDup (uids n) -> childNodes_of c n = Some kc ->
                   replaceChildren c kc n = n) l ->
  NoDup (uids_of l) ->
  first_some (childNodes_of c) l = Some kc ->
  map (replaceChildren c kc) l = l.
Proof.
  intros IH. induction IH as [|k r Hk _ IHr]; intros Hnd H; [discriminate|].
  rewrite uids_of_cons in Hnd. simpl in H |- *.
  destruct (childNodes_of c k) as [kc'|] eqn:E.
  - injection H as ->. rewrite (Hk (NoDup_app_remove_r _ _ Hnd) eq_refl).
    rewrite map_replaceChildren_absent; [reflexivity|].
    apply (NoDup_app_disjoint _ _ Hnd c). apply (childNodes_of_found c k kc E).
  - rewrite IHr by (exact (NoDup_app_remove_l _ _ Hnd) || exact H).
    rewrite replaceChildren_absent; [reflexivity|].
    intros Hin. destruct (in_dec Nat.eq_dec c (uids k)) as [_|Hn]; [|contradiction].
    revert E. clear -Hin. revert Hin. node_induction k; intros Hin E;
      try (simpl in Hin; contradiction).
    rewrite uids_element in Hin. simpl in E. destruct (uid e =? c) eqn:Ec; [discriminate|].
    apply Nat.eqb_neq in Ec. destruct Hin as [Hin|Hin]; [contradiction|].
    induction IH as [|k r Hk _ IHr]; [contradiction|].
    rewrite uids_of_cons in Hin. simpl in E.
    destruct (childNodes_of c k) eqn:Ek; [discriminate|].
    apply in_app_or in Hin. destruct Hin as [Hin|Hin]; [exact (Hk Hin eq_refl) | exact (IHr Hin E)].
Qed.

Lemma replaceChildren_own c kc n :
  NoDup (uids n) -> childNodes_of c n = Some kc -> replaceChildren c kc n = n.
Proof.
  node_induction n; intros Hnd H; try discriminate.
  rewrite uids_element in Hnd. simpl in H |- *. destruct (uid e =? c); [congruence|].
  f_equal. apply map_replaceChildren_own; [exact IH | | exact H].
  apply NoDup_cons_iff in Hnd. apply Hnd.
Qed.

Lemma document_replaceChildren_own c kc l :
  NoDup (uids_of l) -> first_some (childNodes_of c) l = Some kc ->
  map (replaceChildren c kc) l = l.
Proof.
  apply map_replaceChildren_own. apply Forall_forall. intros n _. apply replaceChildren_own.
Qed.

Lemma NoDup_middle_disjoint {A : Type} (l1 l2 l3 : list A) x :
  NoDup (l1 ++ l2 ++ l3) -> In x l2 -> ~ In x (l1 ++ l3).
Proof.
  intros Hnd H2 H13. apply in_app_or in H13. destruct H13 as [H1|H3].
  - apply (NoDup_app_disjoint l1 (l2 ++ l3) Hnd x H1). apply in_or_app. left. exact H2.
  - apply NoDup_app_remove_l in Hnd. apply (NoDup_app_disjoint l2 l3 Hnd x H2 H3).
Qed.

(** On a page that does not use the ids [menuBtn] and [mobileMenu] outside
    the content of [c], the block that wires the menu leaves everything
    outside that content as it was. *)
Lemma initMenu_frame c d d' :
  NoDup (uids_of (docNodes d)) ->
  In c (uids_of (docNodes d)) ->
  ids_unused_outside c d = true ->
  initMenu d = Ok d' ->
  cut c d' = cut c d.
Proof.
  intros Hnd Hc Hids H. pose proof (ids_unused_outside_spec c d Hids) as Hout.
  destruct (splits_at_document c _ Hnd Hc) as (pre & ec & kc & post & Hu & He & Hkc & Hr).
  unfold initMenu in H.
  destruct (getElementById "menuBtn" d) as [b|] eqn:Hb;
    destruct (getElementById "mobileMenu" d) as [m|] eqn:Hm; cbn [truthy andb] in H;
    try (assert (E : d' = d) by congruence; rewrite E; reflexivity).
  set (d2 := update_element b (register (ToggleHidden (Some m))) d).
  destruct (forEach_addEventListener_on (AddHidden (Some m))
              (querySelectorAll "mobileMenu" "a" d2) d2) as (g & Hk & Hg & Hr').
  assert (E0 : Ok (transform g d2) = Ok d') by (rewrite <- Hr'; exact H).
  assert (E : d' = transform g d2) by congruence. rewrite E.
  unfold d2. change (update_element b ?f d) with (transform (at_uid b f) d).
  rewrite transform_compose.
  assert (Hlinks : querySelectorAll "mobileMenu" "a" d2 =
                   flat_map (select_descendants "mobileMenu" "a" false) kc).
  { unfold querySelectorAll, d2, update_element. cbn [docNodes].
    rewrite select_descendants_registered.
    rewrite <- (document_replaceChildren_own c kc (docNodes d) Hnd Hkc) at 1.
    apply (querySelectorAll_replaceChildren "mobileMenu" "a" c kc _ Hnd Hc).
    intros e He'. apply (Hout e He'). }
  assert (Hbin : In b (uids_of kc)).
  { unfold getElementById in Hb. rewrite He in Hb.
    assert (Ho : forall x, In x (pre ++ ec :: post) -> has_id "menuBtn" x = false).
    { intros x Hx. apply (Hout x). unfold outside, cut. rewrite (Hr []). exact Hx. }
    rewrite find_app, find_absent in Hb by (intros x Hx; apply Ho, in_or_app; left; exact Hx).
    simpl in Hb. rewrite (Ho ec) in Hb by (apply in_or_app; right; left; reflexivity).
    rewrite find_app in Hb.
    destruct (find (has_id "menuBtn") (elements_of kc)) as [eb|] eqn:Eb.
    - injection Hb as <-. apply in_map. apply (find_some _ _ Eb).
    - rewrite find_absent in Hb by (intros x Hx; apply Ho, in_or_app; right; right; exact Hx).
      discriminate. }
  assert (Hdisj : forall u e, In u (uids_of kc) -> In e (outside c d) -> uid e <> u).
  { intros u e Hin Hout' Eu. unfold outside, cut in Hout'. rewrite (Hr []) in Hout'.
    simpl in Hout'. unfold uids_of in Hnd. rewrite He in Hnd.
    change (pre ++ ec :: elements_of kc ++ post)
      with (pre ++ [ec] ++ elements_of kc ++ post) in Hnd.
    rewrite app_assoc, !map_app in Hnd.
    apply (NoDup_middle_disjoint _ _ _ u) in Hnd; [|exact Hin].
    apply Hnd. rewrite <- Eu. apply in_app_or in Hout'.
    destruct Hout' as [Hp|[<-|Hp]].
    - apply in_or_app; left; apply in_or_app; left; apply in_map; exact Hp.
    - apply in_or_app; left; apply in_or_app; right; left; reflexivity.
    - apply in_or_app; right; apply in_map; exact Hp. }
  assert (Hkg : keeps_uid (fun e => g (at_uid b (register (ToggleHidden (Some m))) e)))
    by (intros e; rewrite Hk; unfold at_uid; destruct (uid e =? b); reflexivity).
  rewrite (cut_transform _ c d Hkg). apply map_map_elements_same. intros e Hin.
  rewrite at_uid_other by (apply (Hdisj b e Hbin Hin)).
  apply Hg. rewrite Hlinks. intros Hl.
  apply (Hdisj (uid e) e); [|exact Hin|reflexivity].
  apply (querySelectorAll_uids "mobileMenu" "a" kc). exact Hl.
Qed.

(** The same for [loadHeader], whatever the placeholder is. *)
Lemma loadHeader_frame d c d' :
  well_formed d = true ->
  getElementById "header-container" d = Some c ->
  ids_unused_outside c d = true ->
  loadHeader d = Ok d' ->
  cut c d' = cut c d.
Proof.
  intros Hwf Hc Hids Hd'.
  destruct (loadHeader_step_any d c Hwf Hc)
    as (d1 & g & Hd1 & _ & Hwf1 & Hc1 & _ & _ & _ & _).
  pose proof (cut_set_innerHTML c headerHTML d d1 Hd1) as Hcut.
  rewrite loadHeader_blocks, Hc in Hd'. cbn [truthy] in Hd'. rewrite Hd1 in Hd'.
  cbn [bind] in Hd'. destruct (well_formed_tree d1 Hwf1) as [Hnd1 _].
  rewrite <- Hcut. apply (initMenu_frame c d1 d' Hnd1 (getElementById_in _ _ _ Hc1)); [|exact Hd'].
  unfold ids_unused_outside, outside. rewrite Hcut. exact Hids.
Qed.

(** C8, as the code has it.  [loadHeader] leaves every node outside the
    content of the header placeholder with its tag, attributes, class list
    and children; on a well-formed page that does not use the ids [menuBtn]
    and [mobileMenu] outside the placeholder it leaves the listeners there
    as well.  [loadFooter] leaves everything outside the content of the
    footer placeholder as it was. *)
Theorem mounts_frame d :
  (forall c, getElementById "header-container" d = Some c ->
     exists d',
       loadHeader d = Ok d' /\
       silence (cut c d') = silence (cut c d) /\
       (well_formed d = true -> ids_unused_outside c d = true -> cut c d' = cut c d)) /\
  (forall c, getElementById "footer-container" d = Some c ->
     exists d', loadFooter d = Ok d' /\ cut c d' = cut c d).
Proof.
  split; intros c Hc.
  - destruct (cut_loadHeader d c Hc) as (d' & g & Hd' & Hg & Hcut).
    exists d'. split; [exact Hd'|]. split.
    + rewrite Hcut. apply (silence_registered _ g _ Hg).
    + intros Hwf Hids. apply (loadHeader_frame d c d' Hwf Hc Hids Hd').
  - destruct (loadFooter_completes d) as (d' & Hd'). exists d'. split; [exact Hd'|].
    unfold loadFooter in Hd'. rewrite Hc in Hd'. cbn [truthy] in Hd'.
    apply (cut_set_innerHTML c footerHTML d d' Hd').
Qed.

Lemma mounts_frame_witness :
  (exists d',
     loadHeader samplePage = Ok d' /\
     silence (cut 1 d') = silence (cut 1 samplePage) /\
     cut 1 d' = cut 1 samplePage) /\
  (exists d', loadFooter samplePage = Ok d' /\ cut 2 d' = cut 2 samplePage).
Proof.
  destruct (mounts_frame samplePage) as [H F]. split.
  - destruct (H 1 eq_refl) as (d' & Hd' & Hs & Hc). exists d'.
    split; [exact Hd'|]. split; [exact Hs|]. apply Hc; reflexivity.
  - exact (F 2 eq_refl).
Defined.

(** C8 as stated fails on [ownButtonPage]: the page's own button (element 1)
    is outside the placeholder and had no listener; after [loadHeader] it
    has the toggle listener. *)
Lemma mounts_frame_counterexample :
  exists d',
    loadHeader ownButtonPage = Ok d' /\
    option_map listeners (lookup 1 (cut 2 ownButtonPage)) = Some [] /\
    option_map listeners (lookup 1 (cut 2 d')) = Some [ToggleHidden (Some 12)].
Proof. eexists. split; [vm_compute; reflexivity|]. vm_compute. repeat split. Qed.

(** * Document-wide lookups *)





(** * Scheduling *)






Lemma dom_fold_call fs : forall p, dom (fold_left call fs p) = run_calls fs (dom p).
Proof. induction fs as [|f r IH]; intros p; [reflexivity|]. simpl. rewrite IH. reflexivity. Qed.





(** * Paths and lookups through a replacement *)

Lemma uids_of_shift_all n f : uids_of (shift_all n f) = map (Nat.add n) (uids_of f).
Proof.
  unfold uids_of, shift_all. rewrite elements_of_map_elements, !map_map. reflexivity.
Qed.

Lemma uids_adopt_all_fresh m f u : In u (uids_of (adopt_all m f)) -> m <= u.
Proof.
  rewrite adopt_all_shift, uids_of_shift_all. intros H. apply in_map_iff in H.
  destruct H as (k & <- & _). lia.
Qed.

Lemma fragment_unheard n f e :
  fragment_ok f = true -> In e (elements_of (shift_all n f)) -> listeners e = [].
Proof.
  unfold fragment_ok. rewrite andb_true_iff, forallb_forall. intros [_ Hok] He.
  unfold shift_all in He. rewrite elements_of_map_elements in He. apply in_map_iff in He.
  destruct He as (e0 & <- & He0). specialize (Hok e0 He0). rewrite andb_true_iff in Hok.
  destruct Hok as [_ Hun]. unfold unheard in Hun. simpl.
  destruct (listeners e0); [reflexivity | discriminate].
Qed.

Lemma docNodes_refilled c s d :
  docNodes (refilled c s d) =
  map (replaceChildren c (adopt_all (nextUid d) (Html.parse s))) (docNodes d).
Proof. reflexivity. Qed.

Lemma below_in d u :
  well_formed d = true -> In u (uids_of (docNodes d)) -> u < nextUid d.
Proof.
  intros Hwf Hin. destruct (well_formed_tree d Hwf) as [_ Hb].
  unfold uids_of in Hin. apply in_map_iff in Hin. destruct Hin as (e & <- & He).
  apply (below_uid _ _ (Hb e He)).
Qed.

(** The elements after a replacement are elements from before or new ones. *)
Lemma elements_replaceChildren_from c K n x :
  In x (elements (replaceChildren c K n)) -> In x (elements n) \/ In x (elements_of K).
Proof.
  node_induction n; intros H; try (simpl in H; contradiction).
  simpl in H. destruct (uid e =? c).
  - destruct H as [H|H]; [left; left; exact H | right; exact H].
  - destruct H as [H|H]; [left; left; exact H|].
    assert (Hk : In x (flat_map elements kids) \/ In x (elements_of K)).
    { induction IH as [|k r Hk _ IHr]; [contradiction|].
      simpl in H. apply in_app_or in H. destruct H as [H|H].
      - destruct (Hk H) as [H1|H1]; [left; simpl; apply in_or_app; left; exact H1 | right; exact H1].
      - destruct (IHr H) as [H1|H1]; [left; simpl; apply in_or_app; right; exact H1 | right; exact H1]. }
    destruct Hk as [Hk|Hk]; [left; right; exact Hk | right; exact Hk].
Qed.

Lemma elements_of_replaceChildren_from c K l e :
  In e (elements_of (map (replaceChildren c K) l)) ->
  In e (elements_of l) \/ In e (elements_of K).
Proof.
  unfold elements_of at 1 2. induction l as [|k r IH]; simpl; intros H; [contradiction|].
  apply in_app_or in H. destruct H as [H|H].
  - destruct (elements_replaceChildren_from c K k e H) as [H1|H1];
      [left; apply in_or_app; left; exact H1 | right; exact H1].
  - destruct (IH H) as [H1|H1]; [left; apply in_or_app; right; exact H1 | right; exact H1].
Qed.

Lemma uids_replaceChildren_from c K n u :
  In u (uids (replaceChildren c K n)) -> In u (uids n) \/ In u (uids_of K).
Proof.
  unfold uids, uids_of. intros H. apply in_map_iff in H. destruct H as (x & <- & Hx).
  destruct (elements_replaceChildren_from c K n x Hx) as [H|H]; [left | right];
    apply in_map; exact H.
Qed.

Lemma uids_of_replaceChildren_from c K l u :
  In u (uids_of (map (replaceChildren c K) l)) -> In u (uids_of l) \/ In u (uids_of K).
Proof.
  unfold uids_of. intros H. apply in_map_iff in H. destruct H as (x & <- & Hx).
  destruct (elements_of_replaceChildren_from c K l x Hx) as [H|H]; [left | right];
    apply in_map; exact H.
Qed.

Lemma first_event_path_absent u l : ~ In u (uids_of l) -> first_some (event_path u) l = None.
Proof.
  intros Hout. apply first_some_none. apply absent_forall in Hout.
  induction Hout as [|k r Hk _ IH]; constructor; [apply event_path_absent; exact Hk | exact IH].
Qed.

Lemma event_path_found u n p : event_path u n = Some p -> In u (uids n).
Proof.
  intros H. destruct (in_dec Nat.eq_dec u (uids n)) as [Hin|Hout]; [exact Hin|].
  rewrite event_path_absent in H by exact Hout. discriminate.
Qed.

Lemma first_event_path_found u l p : first_some (event_path u) l = Some p -> In u (uids_of l).
Proof.
  intros H. destruct (in_dec Nat.eq_dec u (uids_of l)) as [Hin|Hout]; [exact Hin|].
  rewrite first_event_path_absent in H by exact Hout. discriminate.
Qed.

Lemma first_event_path_incl u l p :
  first_some (event_path u) l = Some p -> incl p (elements_of l).
Proof.
  intros H. destruct (first_event_path_present u l (first_event_path_found u l p H))
    as (p' & Hp' & Hincl).
  rewrite H in Hp'. injection Hp' as <-. exact Hincl.
Qed.

Lemma event_path_none_replaceChildren u c K n :
  event_path u n = None -> ~ In u (uids_of K) ->
  event_path u (replaceChildren c K n) = None.
Proof.
  intros H HK. apply event_path_absent. intros Hin.
  destruct (uids_replaceChildren_from c K n u Hin) as [Hn|Hn]; [|exact (HK Hn)].
  destruct (event_path_present u n Hn) as (p & Hp & _). rewrite H in Hp. discriminate.
Qed.

Lemma first_event_path_none_replaceChildren u c K l :
  first_some (event_path u) l = None -> ~ In u (uids_of K) ->
  first_some (event_path u) (map (replaceChildren c K) l) = None.
Proof.
  intros H HK. apply first_event_path_absent. intros Hin.
  destruct (uids_of_replaceChildren_from c K l u Hin) as [Hn|Hn]; [|exact (HK Hn)].
  destruct (first_event_path_present u l Hn) as (p & Hp & _). rewrite H in Hp. discriminate.
Qed.

(** Replacing the children of [c] keeps the path of [c]. *)
Lemma event_path_same c K n : event_path c (replaceChildren c K n) = event_path c n.
Proof.
  node_induction n; try reflexivity.
  simpl. destruct (uid e =? c) eqn:E; simpl; rewrite E; [reflexivity|].
  assert (H : first_some (event_path c) (map (replaceChildren c K) kids) =
              first_some (event_path c) kids).
  { induction IH as [|k r Hk _ IHr]; simpl; [reflexivity|]. rewrite Hk, IHr. reflexivity. }
  rewrite H. reflexivity.
Qed.

Lemma first_event_path_same c K l :
  first_some (event_path c) (map (replaceChildren c K) l) = first_some (event_path c) l.
Proof.
  induction l as [|k r IH]; simpl; [reflexivity|]. rewrite event_path_same, IH. reflexivity.
Qed.

(** Replacing the children of an element that is not on the path of [u]
    keeps the path of [u]. *)
Lemma event_path_off_path u c K n :
  ~ In u (uids_of K) ->
  forall p, event_path u n = Some p -> ~ In c (map uid p) ->
            event_path u (replaceChildren c K n) = Some p.
Proof.
  intros HK. node_induction n; intros p H Hc; try discriminate.
  simpl in H. destruct (uid e =? u) eqn:Eu.
  - injection H as <-. simpl in Hc.
    assert (Ec : (uid e =? c) = false) by (apply Nat.eqb_neq; tauto).
    simpl. rewrite Ec. simpl. rewrite Eu. reflexivity.
  - destruct (first_some (event_path u) kids) as [p'|] eqn:Hp'; [|discriminate].
    injection H as <-. rewrite map_app, in_app_iff in Hc. simpl in Hc.
    assert (Ec : (uid e =? c) = false) by (apply Nat.eqb_neq; tauto).
    simpl. rewrite Ec. simpl. rewrite Eu.
    assert (Hk : first_some (event_path u) (map (replaceChildren c K) kids) = Some p').
    { clear Eu Ec. induction IH as [|k r Hk _ IHr]; [discriminate|].
      simpl in Hp' |- *. destruct (event_path u k) as [q|] eqn:Ek.
      - injection Hp' as ->. rewrite (Hk p' eq_refl) by tauto. reflexivity.
      - rewrite (event_path_none_replaceChildren u c K k Ek HK). apply IHr, Hp'. }
    rewrite Hk. reflexivity.
Qed.

Lemma first_event_path_off_path u c K l p :
  ~ In u (uids_of K) ->
  first_some (event_path u) l = Some p -> ~ In c (map uid p) ->
  first_some (event_path u) (map (replaceChildren c K) l) = Some p.
Proof.
  intros HK H Hc. induction l as [|k r IH]; [discriminate|].
  simpl in H |- *. destruct (event_path u k) as [q|] eqn:Ek.
  - injection H as ->. rewrite (event_path_off_path u c K k HK p Ek Hc). reflexivity.
  - rewrite (event_path_none_replaceChildren u c K k Ek HK). apply IH, H.
Qed.

Section Wiped.
Variables (u c : ref) (K : list node).
Hypothesis HK : ~ In u (uids_of K).
Hypothesis Hne : u <> c.

(** Replacing the children of an element around [u] removes [u]. *)
Lemma first_event_path_wiped_among l :
  Forall (fun n => NoDup (uids n) ->
                   forall p, event_path u n = Some p -> In c (map uid p) ->
                             event_path u (replaceChildren c K n) = None) l ->
  NoDup (uids_of l) ->
  forall p, first_some (event_path u) l = Some p -> In c (map uid p) ->
            first_some (event_path u) (map (replaceChildren c K) l) = None.
Proof.
  induction 1 as [|k r Hk _ IH]; intros Hnd p Hp Hc; [discriminate|].
  rewrite uids_of_cons in Hnd. simpl in Hp |- *.
  destruct (event_path u k) as [q|] eqn:Ek.
  - injection Hp as ->. rewrite (Hk (NoDup_app_remove_r _ _ Hnd) p eq_refl Hc).
    apply first_event_path_absent. intros Hin.
    destruct (uids_of_replaceChildren_from c K r u Hin) as [Hr|Hr]; [|exact (HK Hr)].
    exact (NoDup_app_disjoint _ _ Hnd u (event_path_found u k p Ek) Hr).
  - rewrite (event_path_none_replaceChildren u c K k Ek HK).
    apply (IH (NoDup_app_remove_l _ _ Hnd) p Hp Hc).
Qed.

Lemma event_path_wiped n :
  NoDup (uids n) ->
  forall p, event_path u n = Some p -> In c (map uid p) ->
            event_path u (replaceChildren c K n) = None.
Proof.
  node_induction n; intros Hnd p Hp Hc; try discriminate.
  rewrite uids_element in Hnd. inversion Hnd as [|u0 l0 Hout Hkids]; subst.
  simpl in Hp. destruct (uid e =? u) eqn:Eu.
  - injection Hp as <-. simpl in Hc. apply Nat.eqb_eq in Eu.
    destruct Hc as [Hc|[]]. congruence.
  - destruct (first_some (event_path u) kids) as [p'|] eqn:Hp'; [|discriminate].
    injection Hp as <-. simpl. destruct (uid e =? c) eqn:Ec; simpl; rewrite Eu.
    + rewrite first_event_path_absent by exact HK. reflexivity.
    + rewrite map_app, in_app_iff in Hc. apply Nat.eqb_neq in Ec.
      destruct Hc as [Hc|[Hc|[]]]; [|contradiction].
      rewrite (first_event_path_wiped_among kids IH Hkids p' Hp' Hc). reflexivity.
Qed.

Lemma first_event_path_wiped l p :
  NoDup (uids_of l) ->
  first_some (event_path u) l = Some p -> In c (map uid p) ->
  first_some (event_path u) (map (replaceChildren c K) l) = None.
Proof.
  intros Hnd. apply first_event_path_wiped_among; [|exact Hnd].
  apply Forall_forall. intros n _. apply event_path_wiped.
Qed.
End Wiped.

(** An element the page had before a replacement is removed by it or keeps
    its path. *)
Lemma first_event_path_wiped_or_kept u c K l :
  NoDup (uids_of l) -> ~ In u (uids_of K) ->
  first_some (event_path u) (map (replaceChildren c K) l) = None \/
  first_some (event_path u) (map (replaceChildren c K) l) = first_some (event_path u) l.
Proof.
  intros Hnd HK. destruct (first_some (event_path u) l) as [p|] eqn:Hp.
  - destruct (in_dec Nat.eq_dec c (map uid p)) as [Hin|Hout].
    + destruct (Nat.eq_dec u c) as [->|Hne].
      * right. rewrite first_event_path_same. exact Hp.
      * left. apply (first_event_path_wiped u c K HK Hne l p Hnd Hp Hin).
    + right. apply first_event_path_off_path; assumption.
  - left. apply first_event_path_none_replaceChildren; assumption.
Qed.

(** The element with identity [u] is the target of its propagation path. *)
Lemma event_path_nonempty u n : event_path u n <> Some [].
Proof.
  destruct n as [e kids|t|t]; simpl; try discriminate.
  destruct (uid e =? u); [discriminate|].
  destruct (first_some (event_path u) kids) as [[|y q]|]; discriminate.
Qed.

Lemma first_event_path_nonempty u l : first_some (event_path u) l <> Some [].
Proof.
  induction l as [|k r IH]; simpl; [discriminate|].
  destruct (event_path u k) as [q|] eqn:Ek; [|exact IH].
  intros H. injection H as ->. exact (event_path_nonempty u k Ek).
Qed.

Lemma first_event_path_target u l :
  Forall (fun n => find (fun e => uid e =? u) (elements n) = path_target (event_path u n)) l ->
  find (fun e => uid e =? u) (flat_map elements l) = path_target (first_some (event_path u) l).
Proof.
  induction 1 as [|k r Hk _ IH]; simpl; [reflexivity|].
  rewrite find_app, Hk. destruct (event_path u k) as [q|] eqn:Ek; [|exact IH].
  destruct q as [|x q]; [|reflexivity]. destruct (event_path_nonempty u k Ek).
Qed.

Lemma event_path_target u n :
  find (fun e => uid e =? u) (elements n) = path_target (event_path u n).
Proof.
  node_induction n; try reflexivity.
  simpl. destruct (uid e =? u) eqn:E; [reflexivity|].
  rewrite (first_event_path_target u kids IH).
  pose proof (first_event_path_nonempty u kids) as Hne.
  destruct (first_some (event_path u) kids) as [[|x q]|]; [contradiction | reflexivity..].
Qed.

Lemma lookup_path_target u l : lookup u l = path_target (first_some (event_path u) l).
Proof.
  apply first_event_path_target. apply Forall_forall. intros n _. apply event_path_target.
Qed.

Lemma childNodes_of_present c n : In c (uids n) -> childNodes_of c n <> None.
Proof.
  intros H E. destruct (event_path_present c n H) as (p & Hp & _).
  revert p Hp. clear H. node_induction n; intros p Hp; try discriminate.
  simpl in E, Hp. destruct (uid e =? c); [discriminate|].
  destruct (first_some (event_path c) kids) as [p'|] eqn:Hp'; [|discriminate].
  clear Hp. induction IH as [|k r Hk _ IHr]; [discriminate|].
  simpl in E, Hp'. destruct (childNodes_of c k) eqn:Ek; [discriminate|].
  destruct (event_path c k) as [q|] eqn:Eq; [exact (Hk eq_refl q eq_refl) | exact (IHr E Hp')].
Qed.

Section OffPath.
Variables (c1 c2 : ref) (K : list node).
Hypothesis HK : ~ In c1 (uids_of K).

Lemma childNodes_none_replaceChildren n :
  event_path c1 n = None -> childNodes_of c1 (replaceChildren c2 K n) = None.
Proof.
  intros H. apply childNodes_of_absent. intros Hin.
  destruct (uids_replaceChildren_from c2 K n c1 Hin) as [Hn|Hn]; [|exact (HK Hn)].
  destruct (event_path_present c1 n Hn) as (p & Hp & _). rewrite H in Hp. discriminate.
Qed.

(** Replacing the children of [c2] keeps the children of [c1], when [c2] is
    neither around [c1] nor inside it. *)
Lemma first_childNodes_keeps l :
  Forall (fun n =>
            forall p, event_path c1 n = Some p -> ~ In c2 (map uid p) ->
              (forall kc, childNodes_of c1 n = Some kc -> ~ In c2 (uids_of kc)) ->
              childNodes_of c1 (replaceChildren c2 K n) = childNodes_of c1 n) l ->
  forall p, first_some (event_path c1) l = Some p -> ~ In c2 (map uid p) ->
    (forall kc, first_some (childNodes_of c1) l = Some kc -> ~ In c2 (uids_of kc)) ->
    first_some (childNodes_of c1) (map (replaceChildren c2 K) l) =
    first_some (childNodes_of c1) l.
Proof.
  induction 1 as [|k r Hk _ IH]; intros p Hp Hc Hkc; [reflexivity|].
  simpl in Hp, Hkc |- *. destruct (event_path c1 k) as [q|] eqn:Ek.
  - injection Hp as ->.
    pose proof (childNodes_of_present c1 k (event_path_found c1 k p Ek)) as Hsome.
    destruct (childNodes_of c1 k) as [kc|] eqn:Ekc; [|contradiction].
    rewrite (Hk p eq_refl Hc)
      by (intros kc' E; injection E as <-; apply Hkc; reflexivity).
    reflexivity.
  - rewrite (childNodes_none_replaceChildren k Ek).
    assert (En : childNodes_of c1 k = None).
    { apply childNodes_of_absent. intros Hin.
      destruct (event_path_present c1 k Hin) as (p' & Hp' & _). rewrite Ek in Hp'. discriminate. }
    rewrite En in Hkc |- *. apply (IH p Hp Hc Hkc).
Qed.

Lemma childNodes_keeps n :
  forall p, event_path c1 n = Some p -> ~ In c2 (map uid p) ->
    (forall kc, childNodes_of c1 n = Some kc -> ~ In c2 (uids_of kc)) ->
    childNodes_of c1 (replaceChildren c2 K n) = childNodes_of c1 n.
Proof.
  node_induction n; intros p Hp Hc Hkc; try reflexivity.
  simpl in Hp, Hkc. destruct (uid e =? c1) eqn:E1.
  - injection Hp as <-. simpl in Hc.
    assert (E2 : (uid e =? c2) = false) by (apply Nat.eqb_neq; tauto).
    simpl. rewrite E2. simpl. rewrite E1.
    rewrite map_replaceChildren_absent by (apply Hkc; reflexivity). reflexivity.
  - destruct (first_some (event_path c1) kids) as [p'|] eqn:Hp'; [|discriminate].
    injection Hp as <-. rewrite map_app, in_app_iff in Hc. simpl in Hc.
    assert (E2 : (uid e =? c2) = false) by (apply Nat.eqb_neq; tauto).
    simpl. rewrite E2. simpl. rewrite E1.
    apply (first_childNodes_keeps kids IH p' Hp'); [tauto | exact Hkc].
Qed.

Lemma first_childNodes_off_path l p :
  first_some (event_path c1) l = Some p -> ~ In c2 (map uid p) ->
  (forall kc, first_some (childNodes_of c1) l = Some kc -> ~ In c2 (uids_of kc)) ->
  first_some (childNodes_of c1) (map (replaceChildren c2 K) l) =
  first_some (childNodes_of c1) l.
Proof.
  apply first_childNodes_keeps. apply Forall_forall. intros n _. apply childNodes_keeps.
Qed.
End OffPath.

Section FindOffPath.
Variables (q : element -> bool) (c : ref) (K : list node).
Hypothesis HK : forall x, In x (elements_of K) -> q x = false.

Lemma find_none_replaceChildren n :
  find q (elements n) = None -> find q (elements (replaceChildren c K n)) = None.
Proof.
  intros H. apply find_absent. intros x Hx.
  destruct (elements_replaceChildren_from c K n x Hx) as [Hn|Hn];
    [exact (find_none _ _ H x Hn) | exact (HK x Hn)].
Qed.

(** Replacing the children of [c] keeps the first element that satisfies
    [q], when [c] is not around it and the new children do not satisfy
    [q]. *)
Lemma find_among_off_path l :
  Forall (fun n =>
            NoDup (uids n) ->
            forall x p, find q (elements n) = Some x -> event_path (uid x) n = Some p ->
                        ~ In c (map uid p) ->
                        find q (elements (replaceChildren c K n)) = Some x) l ->
  NoDup (uids_of l) ->
  forall x p, find q (flat_map elements l) = Some x ->
              first_some (event_path (uid x)) l = Some p ->
              ~ In c (map uid p) ->
              find q (flat_map elements (map (replaceChildren c K) l)) = Some x.
Proof.
  induction 1 as [|k r Hk _ IH]; intros Hnd x p Hf Hp Hc; [discriminate|].
  rewrite uids_of_cons in Hnd. simpl in Hf, Hp |- *. rewrite find_app in Hf |- *.
  destruct (find q (elements k)) as [x'|] eqn:Fk.
  - injection Hf as ->. apply find_some in Fk as Hin. destruct Hin as [Hin _].
    destruct (event_path_present (uid x) k (in_map uid _ _ Hin)) as (p' & Hp' & _).
    rewrite Hp' in Hp. injection Hp as ->.
    rewrite (Hk (NoDup_app_remove_r _ _ Hnd) x p eq_refl Hp' Hc). reflexivity.
  - rewrite (find_none_replaceChildren k Fk).
    destruct (event_path (uid x) k) as [p'|] eqn:Ek.
    + apply find_some in Hf. destruct Hf as [Hin _].
      destruct (NoDup_app_disjoint _ _ Hnd (uid x) (event_path_found _ _ _ Ek)).
      apply (in_map uid _ _ Hin).
    + apply (IH (NoDup_app_remove_l _ _ Hnd) x p Hf Hp Hc).
Qed.

Lemma find_node_off_path n :
  NoDup (uids n) ->
  forall x p, find q (elements n) = Some x -> event_path (uid x) n = Some p ->
              ~ In c (map uid p) ->
              find q (elements (replaceChildren c K n)) = Some x.
Proof.
  node_induction n; intros Hnd x p Hf Hp Hc; try discriminate.
  rewrite uids_element in Hnd. inversion Hnd as [|u0 l0 Hout Hkids]; subst.
  simpl in Hf, Hp. destruct (q e) eqn:Qe.
  - injection Hf as <-. rewrite Nat.eqb_refl in Hp. injection Hp as <-. simpl in Hc.
    assert (Ec : (uid e =? c) = false) by (apply Nat.eqb_neq; tauto).
    simpl. rewrite Ec. simpl. rewrite Qe. reflexivity.
  - destruct (uid e =? uid x) eqn:Eu.
    + apply Nat.eqb_eq in Eu. apply find_some in Hf. destruct Hf as [Hin _].
      destruct Hout. rewrite Eu. apply (in_map uid _ _ Hin).
    + destruct (first_some (event_path (uid x)) kids) as [p'|] eqn:Hp'; [|discriminate].
      injection Hp as <-. rewrite map_app, in_app_iff in Hc. simpl in Hc.
      assert (Ec : (uid e =? c) = false) by (apply Nat.eqb_neq; tauto).
      simpl. rewrite Ec. simpl. rewrite Qe.
      apply (find_among_off_path kids IH Hkids x p' Hf Hp'). tauto.
Qed.

Lemma find_off_path l x p :
  NoDup (uids_of l) ->
  find q (elements_of l) = Some x ->
  first_some (event_path (uid x)) l = Some p ->
  ~ In c (map uid p) ->
  find q (elements_of (map (replaceChildren c K) l)) = Some x.
Proof.
  intros Hnd. apply find_among_off_path; [|exact Hnd].
  apply Forall_forall. intros n _. apply find_node_off_path.
Qed.
End FindOffPath.

(** Replacements in two different elements commute. *)
Lemma replaceChildren_commute c1 c2 K1 K2 n :
  c1 <> c2 -> ~ In c1 (uids_of K2) -> ~ In c2 (uids_of K1) ->
  replaceChildren c1 K1 (replaceChildren c2 K2 n) =
  replaceChildren c2 K2 (replaceChildren c1 K1 n).
Proof.
  intros Hne H1 H2. node_induction n; try reflexivity.
  simpl. destruct (uid e =? c1) eqn:E1; destruct (uid e =? c2) eqn:E2; simpl;
    rewrite ?E1, ?E2.
  - apply Nat.eqb_eq in E1, E2. congruence.
  - rewrite map_replaceChildren_absent by exact H2. reflexivity.
  - rewrite map_replaceChildren_absent by exact H1. reflexivity.
  - f_equal. rewrite !map_map. induction IH as [|k r Hk _ IHr]; simpl; [reflexivity|].
    rewrite Hk, IHr. reflexivity.
Qed.

Lemma map_replaceChildren_commute c1 c2 K1 K2 l :
  c1 <> c2 -> ~ In c1 (uids_of K2) -> ~ In c2 (uids_of K1) ->
  map (replaceChildren c1 K1) (map (replaceChildren c2 K2) l) =
  map (replaceChildren c2 K2) (map (replaceChildren c1 K1) l).
Proof.
  intros Hne H1 H2. rewrite !map_map. apply map_ext. intros n.
  apply replaceChildren_commute; assumption.
Qed.

(** * The menu as a two-state machine *)

Lemma hears_trail u d : hears u d = option_map (flat_map snd) (trail u d).
Proof.
  unfold hears, trail. destruct (first_some (event_path u) (docNodes d)) as [p|]; simpl; [|reflexivity].
  f_equal. induction p as [|e r IH]; simpl; [reflexivity|]. rewrite IH. reflexivity.
Qed.

Lemma trail_transform g u d : restyles g -> trail u (transform g d) = trail u d.
Proof.
  intros Hg. unfold trail, transform. cbn [docNodes].
  rewrite first_event_path_map_elements by (apply restyles_keeps_uid; exact Hg).
  destruct (first_some (event_path u) (docNodes d)) as [p|]; simpl; [|reflexivity].
  f_equal. rewrite map_map. apply map_ext. intros e. destruct (Hg e) as (cl & ->). reflexivity.
Qed.

Lemma trail_path u d t :
  trail u d = Some t ->
  exists p, first_some (event_path u) (docNodes d) = Some p /\
            t = map (fun e => (uid e, listeners e)) p /\ map fst t = map uid p.
Proof.
  unfold trail. destruct (first_some (event_path u) (docNodes d)) as [p|]; [|discriminate].
  intros H. injection H as <-. exists p. split; [reflexivity|]. split; [reflexivity|].
  rewrite map_map. reflexivity.
Qed.

Lemma off_path_absent a u d t :
  trail u d = Some t -> on_path a u d = false -> ~ In a (map fst t).
Proof.
  unfold on_path. intros -> H Hin. apply in_map_iff in Hin. destruct Hin as (x & <- & Hx).
  assert (E : existsb (fun y => fst y =? fst x) t = true)
    by (apply existsb_exists; exists x; split; [exact Hx | apply Nat.eqb_refl]).
  rewrite H in E. discriminate.
Qed.

Lemma on_path_self u d : In u (uids_of (docNodes d)) -> on_path u u d = true.
Proof.
  intros Hin. destruct (first_event_path_present u _ Hin) as (p & Hp & _).
  unfold on_path, trail. rewrite Hp. cbn [option_map].
  pose proof (lookup_path_target u (docNodes d)) as Hl. rewrite Hp in Hl.
  destruct p as [|x r]; [destruct (first_event_path_nonempty u _ Hp)|].
  cbn [path_target] in Hl. unfold lookup in Hl. apply find_some in Hl.
  destruct Hl as [_ Hx]. simpl. rewrite Hx. reflexivity.
Qed.

(** The elements a well-formed page has are quiet for a header mounted from
    [nextUid] on. *)
Lemma old_elements_quiet d p :
  well_formed d = true -> incl p (elements_of (docNodes d)) ->
  Forall (quiet (nextUid d)) (map (fun e => (uid e, listeners e)) p).
Proof.
  intros Hwf Hincl. destruct (well_formed_tree d Hwf) as [_ Hbelow].
  apply Forall_forall. intros x Hx. apply in_map_iff in Hx. destruct Hx as (e & <- & He).
  specialize (Hbelow e (Hincl e He)). split; cbn [fst snd].
  - left. apply (below_uid _ _ Hbelow).
  - apply Forall_forall. intros l Hl.
    unfold below in Hbelow. rewrite andb_true_iff, forallb_forall in Hbelow.
    destruct Hbelow as [_ Hls]. specialize (Hls l Hl). unfold target_below in Hls.
    unfold aims_elsewhere. destruct (target_of l) as [q|]; [|discriminate].
    apply Nat.ltb_lt in Hls. intros E. injection E as ->. lia.
Qed.

Lemma header_at_menu c n d : header_at c n d -> menu_at n d.
Proof.
  intros [_ Hp (old & _ & Hold & Ht) Ho]. split; [exact Hp | | exact Ho].
  intros k Hk. exists old. split; [apply Ht, Hk | exact Hold].
Qed.

Lemma menu_at_transform g n d : restyles g -> menu_at n d -> menu_at n (transform g d).
Proof.
  intros Hg [Hp Ht Ho]. split.
  - apply present_transform; [apply restyles_keeps_uid; exact Hg | exact Hp].
  - intros k Hk. rewrite trail_transform by exact Hg. apply Ht. exact Hk.
  - intros u t Hu. rewrite trail_transform by exact Hg. apply Ho. exact Hu.
Qed.

Lemma menu_at_click n u d : menu_at n d -> menu_at n (click u d).
Proof.
  intros H. destruct (click_restyles u d) as (g & Hg & ->). apply menu_at_transform; assumption.
Qed.

(** The paths and the listeners of the wired template, element by element. *)
Lemma header_trail_table m k :
  k < 13 ->
  map fst (header_trail m k) =
    nth k [[0]; [1; 0]; [2; 1; 0]; [3; 2; 1; 0]; [4; 2; 1; 0]; [5; 4; 2; 1; 0]; [6; 4; 2; 1; 0];
           [7; 1; 0]; [8; 7; 1; 0]; [9; 0]; [10; 9; 0]; [11; 10; 9; 0]; [12; 10; 9; 0]] [] /\
  flat_map snd (header_trail m k) =
    nth k [[]; []; []; []; []; []; []; [ToggleHidden m]; [ToggleHidden m]; [];
           []; [AddHidden m]; [AddHidden m]] [].
Proof.
  intros Hk. do 13 (destruct k as [|k]; [vm_compute; split; reflexivity|]). lia.
Qed.

Lemma headerMounted_uids m : uids_of (headerMounted m) = seq 0 13.
Proof. vm_compute. reflexivity. Qed.

Lemma header_trail_found m k :
  k < 13 ->
  exists p, first_some (event_path k) (headerMounted m) = Some p /\
            header_trail m k = map (fun e => (uid e, listeners e)) p.
Proof.
  intros Hk.
  assert (Hin : In k (uids_of (headerMounted m))) by (rewrite headerMounted_uids; apply in_seq; lia).
  destruct (first_event_path_present k _ Hin) as (p & Hp & _).
  exists p. split; [exact Hp|]. unfold header_trail. rewrite Hp. reflexivity.
Qed.

(** What a list of listeners does to the hidden state of [p]. *)
Lemma is_hidden_run_listeners p ls :
  forall d, present p d ->
    is_hidden p (fold_left run_listener ls d) =
    fold_left (fun h l => after_listener p l h) ls (is_hidden p d).
Proof.
  induction ls as [|l r IH]; intros d Hp; simpl; [reflexivity|].
  rewrite IH by (apply present_run_listener; exact Hp).
  rewrite is_hidden_run_listener by exact Hp. reflexivity.
Qed.

Lemma after_listeners_elsewhere p ls h :
  Forall (aims_elsewhere p) ls -> fold_left (fun h l => after_listener p l h) ls h = h.
Proof.
  intros H. revert h. induction H as [|l r Hl _ IH]; intros h; simpl; [reflexivity|].
  rewrite after_listener_elsewhere by exact Hl. apply IH.
Qed.

Lemma quiet_listeners n t :
  Forall (quiet n) t -> Forall (aims_elsewhere (n + 9)) (flat_map snd t).
Proof.
  intros H. apply Forall_forall. intros l Hl. apply in_flat_map in Hl.
  destruct Hl as (x & Hx & Hl). rewrite Forall_forall in H. destruct (H x Hx) as [_ Hls].
  rewrite Forall_forall in Hls. apply Hls, Hl.
Qed.

Lemma quiet_off n t j :
  Forall (quiet n) t -> j < 13 -> existsb (fun x => fst x =? n + j) t = false.
Proof.
  intros H Hj. destruct (existsb (fun x => fst x =? n + j) t) eqn:E; [|reflexivity].
  apply existsb_exists in E. destruct E as (x & Hx & Hxj). apply Nat.eqb_eq in Hxj.
  rewrite Forall_forall in H. destruct (H x Hx) as [Hlt _]. unfold ref in *. lia.
Qed.

Lemma menu_at_click_effect n d k :
  menu_at n d -> k < 13 ->
  is_hidden (n + 9) (click (n + k) d) = header_step k (is_hidden (n + 9) d).
Proof.
  intros [Hp Ht _] Hk. destruct (Ht k Hk) as (old & Htr & Hold).
  rewrite click_hears, hears_trail, Htr. cbn [option_map].
  rewrite is_hidden_run_listeners by exact Hp.
  rewrite flat_map_app, fold_left_app.
  rewrite (after_listeners_elsewhere (n + 9) (flat_map snd old)) by (apply quiet_listeners, Hold).
  assert (Hls : flat_map snd (shift_trail n (header_trail (Some (n + 9)) k)) =
                flat_map snd (header_trail (Some (n + 9)) k)).
  { unfold shift_trail. generalize (header_trail (Some (n + 9)) k). intros t.
    induction t as [|x r IH]; simpl; [reflexivity|]. rewrite IH. reflexivity. }
  rewrite Hls. destruct (header_trail_table (Some (n + 9)) k Hk) as [_ ->].
  do 13 (destruct k as [|k];
         [cbn [nth fold_left after_listener]; rewrite ?Nat.eqb_refl; reflexivity|]).
  lia.
Qed.

Lemma menu_at_click_other n d u :
  menu_at n d -> ~ (n <= u < n + 13) ->
  is_hidden (n + 9) (click u d) = is_hidden (n + 9) d.
Proof.
  intros [Hp _ Ho] Hu. rewrite click_hears, hears_trail.
  destruct (trail u d) as [t|] eqn:Ht; cbn [option_map]; [|reflexivity].
  rewrite is_hidden_run_listeners by exact Hp.
  apply after_listeners_elsewhere, quiet_listeners, (Ho u t Hu Ht).
Qed.

Lemma menu_at_on_path n d j k :
  menu_at n d -> j < 13 -> k < 13 ->
  on_path (n + j) (n + k) d = existsb (Nat.eqb j) (map fst (header_trail (Some (n + 9)) k)).
Proof.
  intros [_ Ht _] Hj Hk. destruct (Ht k Hk) as (old & Htr & Hold).
  unfold on_path. rewrite Htr, existsb_app. unfold ref in *.
  rewrite (quiet_off n old j Hold Hj), orb_false_r.
  unfold shift_trail. rewrite existsb_map, existsb_map.
  generalize (header_trail (Some (n + 9)) k). intros t.
  induction t as [|x r IH]; cbn [existsb]; [reflexivity|].
  rewrite IH. cbn [fst]. rewrite eqb_add_l, (Nat.eqb_sym _ j). reflexivity.
Qed.

Lemma menu_at_off_path n d j u :
  menu_at n d -> j < 13 -> ~ (n <= u < n + 13) -> on_path (n + j) u d = false.
Proof.
  intros [_ _ Ho] Hj Hu. unfold on_path.
  destruct (trail u d) as [t|] eqn:Ht; [|reflexivity].
  apply quiet_off; [exact (Ho u t Hu Ht) | exact Hj].
Qed.

Lemma mounted_parts c n d :
  content c d = shift_all n (headerMounted (Some (n + 9))) ->
  toggle_button_of c d = Some (n + 7) /\
  mobile_panel_of c d = Some (n + 9) /\
  panel_links_of c d = [n + 11; n + 12].
Proof.
  intros Hc. destruct (headerMounted_parts (Some (n + 9))) as (Hpb & Hpp & Hpl).
  unfold toggle_button_of, mobile_panel_of, panel_links_of. rewrite Hc.
  split; [|split].
  - apply find_shift_all; [reflexivity | exact Hpb].
  - apply find_shift_all; [reflexivity | exact Hpp].
  - rewrite select_descendants_shift_all, Hpl. reflexivity.
Qed.

Lemma markup_mounted c n d :
  content c d = shift_all n (headerMounted (Some (n + 9))) ->
  markup (content c d) = Html.parse headerHTML.
Proof.
  intros ->. unfold markup, shift_all. rewrite map_map_elements_compose.
  rewrite (map_map_elements_ext _ strip) by reflexivity.
  vm_compute. reflexivity.
Qed.

Lemma menu_at_step c n d k h :
  menu_at n d -> k < 13 ->
  content c d = shift_all n (headerMounted (Some (n + 9))) ->
  menu_step c d h (n + k) = header_step k h.
Proof.
  intros Ha Hk Hc. destruct (mounted_parts c n d Hc) as (Hb & _ & Hl).
  unfold menu_step. rewrite Hb, Hl. cbn [existsb].
  rewrite (menu_at_on_path n d 7 k Ha) by (exact Hk || lia).
  rewrite (menu_at_on_path n d 11 k Ha) by (exact Hk || lia).
  rewrite (menu_at_on_path n d 12 k Ha) by (exact Hk || lia).
  destruct (header_trail_table (Some (n + 9)) k Hk) as [-> _].
  do 13 (destruct k as [|k]; [reflexivity|]). lia.
Qed.

Lemma menu_at_step_other c n d u h :
  menu_at n d -> ~ (n <= u < n + 13) ->
  content c d = shift_all n (headerMounted (Some (n + 9))) ->
  menu_step c d h u = h.
Proof.
  intros Ha Hu Hc. destruct (mounted_parts c n d Hc) as (Hb & _ & Hl).
  unfold menu_step. rewrite Hb, Hl. cbn [existsb].
  rewrite !(menu_at_off_path n d _ u Ha) by (exact Hu || lia). reflexivity.
Qed.

(** A mounted header is the two-state machine, from whatever state the
    panel is in and whatever is clicked. *)
Lemma header_at_machine c n d us :
  header_at c n d ->
  is_hidden (n + 9) (click_all us d) =
  fold_left (menu_step c d) us (is_hidden (n + 9) d).
Proof.
  intros Ha. pose proof (at_content c n d Ha) as Hcontent.
  pose proof (header_at_menu c n d Ha) as Hm.
  assert (Hgen : forall dk, menu_at n dk ->
             is_hidden (n + 9) (click_all us dk) =
             fold_left (menu_step c d) us (is_hidden (n + 9) dk)).
  { induction us as [|u r IH]; intros dk Hk; [reflexivity|].
    cbn [click_all fold_left]. fold (click_all r (click u dk)).
    rewrite IH by (apply menu_at_click; exact Hk). f_equal.
    destruct (le_lt_dec n u) as [Hge|Hlt]; [destruct (le_lt_dec (n + 13) u) as [Hge'|Hlt']|].
    - rewrite (menu_at_click_other n dk u Hk) by lia.
      rewrite (menu_at_step_other c n d u _ Hm) by (exact Hcontent || lia). reflexivity.
    - replace u with (n + (u - n)) by lia.
      rewrite (menu_at_click_effect n dk (u - n) Hk) by lia.
      rewrite (menu_at_step c n d (u - n) _ Hm) by (exact Hcontent || lia). reflexivity.
    - rewrite (menu_at_click_other n dk u Hk) by lia.
      rewrite (menu_at_step_other c n d u _ Hm) by (exact Hcontent || lia). reflexivity. }
  apply Hgen, Hm.
Qed.

Lemma header_at_works c n d :
  header_at c n d -> is_hidden (n + 9) d = true -> menu_works c d.
Proof.
  intros Ha Hh. destruct (mounted_parts c n d (at_content _ _ _ Ha)) as (_ & Hp & _).
  exists (n + 9). split; [exact Hp|].
  intros us. rewrite (header_at_machine c n d us Ha), Hh. reflexivity.
Qed.

(** On a well-formed page that keeps the ids free and has a flow container
    as placeholder, [loadHeader] leaves the header mounted with the
    identities from [nextUid d] on. *)
Lemma loadHeader_header_at d c :
  flow_container c d = true ->
  well_formed d = true ->
  getElementById "header-container" d = Some c ->
  ids_unused_outside c d = true ->
  exists d',
    loadHeader d = Ok d' /\
    nextUid d' = nextUid d + 13 /\
    header_at c (nextUid d) d' /\
    is_hidden (nextUid d + 9) d' = true /\
    trail c d' = trail c d.
Proof.
  intros Hf Hwf Hc Hids. pose proof (getElementById_in _ _ _ Hc) as Hin.
  destruct (well_formed_tree d Hwf) as [Hnd Hbelow].
  destruct (loadHeader_wired d c Hf Hwf Hc Hids) as (d' & Hd' & _ & _ & _ & [Hp _ _] & Hh).
  destruct (loadHeader_fresh d c Hf Hwf Hc Hids) as (d2 & Hd2 & Hnext & Ht).
  rewrite Hd' in Hd2. injection Hd2 as <-.
  set (n := nextUid d) in *. set (m := Some (n + 9)) in *.
  assert (Hcontent : content c d' = shift_all n (headerMounted m))
    by (unfold content; rewrite Ht, first_childNodes_of_replaceChildren by exact Hin;
        reflexivity).
  assert (Habsent : forall k, ~ In (n + k) (uids_of (docNodes d)))
    by (intros k Hk; pose proof (below_in d _ Hwf Hk) as Hlt; fold n in Hlt; lia).
  destruct (first_event_path_present c _ Hin) as (pc & Hpc & Hincl).
  assert (Hcp : first_some (event_path c) (map (replaceChildren c (shift_all n (headerMounted m)))
                                               (docNodes d)) = Some pc)
    by (rewrite first_event_path_same; exact Hpc).
  exists d'. split; [exact Hd'|]. split; [exact Hnext|].
  split; [|split; [exact Hh | unfold trail; rewrite Ht, Hcp, Hpc; reflexivity]].
  split; [exact Hcontent | exact Hp | |].
  - exists (map (fun e => (uid e, listeners e)) pc). split; [|split].
    + unfold trail. rewrite Ht, Hcp. reflexivity.
    + apply (old_elements_quiet d pc Hwf Hincl).
    + intros k Hk. destruct (header_trail_found m k Hk) as (pk & Hpk & Htk).
      unfold trail. rewrite Ht.
      pose proof (first_event_path_shift n k (headerMounted m)) as Hs.
      rewrite Hpk in Hs. cbn [option_map] in Hs.
      rewrite (first_event_path_replaceChildren _ c _ _ _ (Habsent k) Hs), Hpc.
      cbn [option_map]. fold m. rewrite map_app, Htk. unfold shift_trail. rewrite !map_map.
      reflexivity.
  - intros u t Hu Htu. unfold trail in Htu. rewrite Ht in Htu.
    assert (HuK : ~ In u (uids_of (shift_all n (headerMounted m)))).
    { rewrite uids_of_shift_all, headerMounted_uids. intros H. apply in_map_iff in H.
      destruct H as (k & <- & Hk). apply in_seq in Hk. lia. }
    destruct (first_event_path_wiped_or_kept u c _ (docNodes d) Hnd HuK) as [E|E];
      rewrite E in Htu; [discriminate|].
    destruct (first_some (event_path u) (docNodes d)) as [p|] eqn:Hp'; [|discriminate].
    injection Htu as <-.
    apply (old_elements_quiet d p Hwf (first_event_path_incl u _ p Hp')).
Qed.



(** * No handler closes over a missing panel *)

Lemma no_null_set_innerHTML c s d d1 :
  forallb (fun f => fragment_ok (adopt_all 0 f)) (fragments_of s) = true ->
  no_null_listener d = true ->
  set_innerHTML (Some c) s d = Ok d1 ->
  no_null_listener d1 = true.
Proof.
  intros Hok Hd H. rewrite forallb_forall in Hok.
  destruct (set_innerHTML_shape c s d) as [E|(f & Hf & E)]; rewrite E in H.
  - assert (d1 = d) by congruence. subst d1. exact Hd.
  - assert (E1 : d1 = replaced c f d) by congruence. rewrite E1.
    unfold no_null_listener, replaced. cbn [docNodes].
    rewrite forallb_forall. intros e He.
    apply elements_of_replaceChildren_from in He. destruct He as [He|He].
    + unfold no_null_listener in Hd. rewrite forallb_forall in Hd. apply Hd, He.
    + rewrite adopt_all_shift in He.
      rewrite (fragment_unheard _ _ e (Hok f Hf) He). reflexivity.
Qed.

(** X2. [loadHeader] never registers a handler that closes over a missing
    panel: on a page none of whose listeners refers to [null], none does
    after the call, so no click on the page runs a handler of the header
    against [null]. *)
Theorem loadHeader_registers_no_null d d' :
  no_null_listener d = true ->
  loadHeader d = Ok d' ->
  no_null_listener d' = true /\
  forall u ls, hears u d' = Some ls -> forallb aimed ls = true.
Proof.
  intros Hd Hl.
  assert (Hd' : no_null_listener d' = true).
  { destruct (getElementById "header-container" d) as [c|] eqn:Hc.
    - destruct (loadHeader_shape d c Hc) as (d1 & g & Hs & Hg & Hl').
      assert (E : d' = transform g d1) by congruence. rewrite E.
      pose proof (no_null_set_innerHTML c headerHTML d d1 header_fragments_ok Hd Hs) as Hd1.
      unfold no_null_listener, transform. cbn [docNodes].
      rewrite elements_of_map_elements, forallb_forall. intros e' He'.
      apply in_map_iff in He'. destruct He' as (e & <- & He).
      destruct (Hg e) as (ls & -> & Hls). cbn [listeners with_listeners].
      rewrite forallb_app, andb_true_iff. split.
      + unfold no_null_listener in Hd1. rewrite forallb_forall in Hd1. apply Hd1, He.
      + apply forallb_forall. intros l Hin. rewrite Forall_forall in Hls.
        destruct (Hls l Hin) as (m & _ & [->| ->]); reflexivity.
    - unfold loadHeader in Hl. rewrite Hc in Hl. cbn [truthy] in Hl.
      injection Hl as <-. exact Hd. }
  split; [exact Hd'|].
  intros u ls Hh. unfold hears in Hh.
  destruct (first_some (event_path u) (docNodes d')) as [p|] eqn:Hp; [|discriminate].
  injection Hh as <-. apply forallb_forall. intros l Hin. apply in_flat_map in Hin.
  destruct Hin as (e & He & Hin). unfold no_null_listener in Hd'.
  rewrite forallb_forall in Hd'. specialize (Hd' e (first_event_path_incl u _ p Hp e He)).
  rewrite forallb_forall in Hd'. apply Hd', Hin.
Qed.

Lemma loadHeader_registers_no_null_witness :
  exists d',
    loadHeader samplePage = Ok d' /\
    no_null_listener d' = true /\
    forall u ls, hears u d' = Some ls -> forallb aimed ls = true.
Proof.
  eexists. split; [vm_compute; reflexivity|].
  apply (loadHeader_registers_no_null samplePage); [reflexivity | vm_compute; reflexivity].
Defined.

(** * Mounting again changes nothing a reader of the page sees *)

Lemma strip_of_silenced e e' :
  with_listeners [] e = with_listeners [] e' -> uid e = uid e' /\ strip e = strip e'.
Proof.
  destruct e, e'. unfold with_listeners, strip, with_uid. simpl.
  intros H. injection H as -> -> -> ->. split; reflexivity.
Qed.

(** The markup of a document after a replacement depends on the markup of
    the new children and on the document up to listeners only. *)
Lemma markup_replaceChildren_alike c K K' :
  markup K = markup K' ->
  forall n n',
    map_elements (with_listeners []) n = map_elements (with_listeners []) n' ->
    map_elements strip (replaceChildren c K n) = map_elements strip (replaceChildren c K' n').
Proof.
  intros HK n. node_induction n; intros n' H; destruct n' as [e' kids'|s'|s'];
    cbn [map_elements] in H; try discriminate; try (injection H as ->; reflexivity).
  assert (He : with_listeners [] e = with_listeners [] e') by congruence.
  assert (Hkids : map (map_elements (with_listeners [])) kids =
                  map (map_elements (with_listeners [])) kids') by congruence.
  clear H. destruct (strip_of_silenced e e' He) as [Hu Hs].
  simpl. rewrite <- Hu. destruct (uid e =? c); simpl; rewrite Hs; f_equal.
  - exact HK.
  - revert kids' Hkids. induction IH as [|k r Hk _ IHr]; intros kids' Hkids;
      destruct kids' as [|k' r']; simpl in Hkids; try discriminate; [reflexivity|].
    injection Hkids as Hk' Hr'. simpl. rewrite (Hk k' Hk'), (IHr r' Hr'). reflexivity.
Qed.

Lemma markup_map_replaceChildren_alike c K K' l l' :
  markup K = markup K' -> silence l = silence l' ->
  markup (map (replaceChildren c K) l) = markup (map (replaceChildren c K') l').
Proof.
  intros HK. revert l'. unfold silence, markup.
  induction l as [|k r IH]; intros l' H; destruct l' as [|k' r']; simpl in H;
    try discriminate; [reflexivity|].
  injection H as Hk Hr. simpl.
  rewrite (markup_replaceChildren_alike c K K' HK k k' Hk), (IH r' Hr). reflexivity.
Qed.

Lemma lookup_present c l : In c (uids_of l) -> exists e, lookup c l = Some e.
Proof.
  unfold uids_of, lookup. intros H. apply in_map_iff in H. destruct H as (e & <- & He).
  apply (find_present _ _ e He). apply Nat.eqb_refl.
Qed.

(** The target keeps its tag when its children are replaced and when
    listeners are registered. *)
Lemma localName_of_replaced c f d :
  NoDup (uids_of (docNodes d)) -> In c (uids_of (docNodes d)) ->
  localName_of c (replaced c f d) = localName_of c d.
Proof.
  intros Hnd Hc. destruct (lookup_present c _ Hc) as (e & He).
  rewrite (localName_of_lookup c d e He). apply localName_of_lookup.
  unfold replaced. cbn [docNodes]. rewrite lookup_replaceChildren_self by assumption.
  exact He.
Qed.

Lemma localName_of_transform P g c d :
  adds_listeners P g -> In c (uids_of (docNodes d)) ->
  localName_of c (transform g d) = localName_of c d.
Proof.
  intros Hg Hc. destruct (lookup_present c _ Hc) as (e & He).
  rewrite (localName_of_lookup c d e He).
  rewrite (localName_of_lookup c (transform g d) (g e)); [apply (localName_registered P g e Hg)|].
  rewrite lookup_transform by (apply (adds_listeners_keeps_uid _ g Hg)).
  rewrite He. reflexivity.
Qed.

Lemma set_innerHTML_cases c s d :
  (innerHTML_fragment (localName_of c d) s = None /\ set_innerHTML (Some c) s d = Ok d) \/
  (exists f, innerHTML_fragment (localName_of c d) s = Some f /\
             set_innerHTML (Some c) s d = Ok (replaced c f d)).
Proof.
  unfold set_innerHTML. destruct (innerHTML_fragment (localName_of c d) s) as [f|].
  - right. exists f. split; reflexivity.
  - left. split; reflexivity.
Qed.

Lemma innerHTML_fragment_in tag s f :
  innerHTML_fragment tag s = Some f -> In f (fragments_of s).
Proof.
  unfold innerHTML_fragment, fragments_of.
  destruct (String.eqb tag "template"); [discriminate|].
  destruct (is_raw_text tag); [intros H; injection H as <-; simpl; auto|].
  destruct (String.eqb tag "select"); [intros H; injection H as <-; simpl; auto|].
  destruct (String.eqb tag "colgroup" || String.eqb tag "frameset");
    [intros H; injection H as <-; simpl; auto|].
  destruct (String.eqb tag "html"); intros H; injection H as <-; simpl; auto 6.
Qed.

(** Two documents in which the target has the same tag get the same
    fragment. *)
Lemma set_innerHTML_alike c s d d' :
  localName_of c d' = localName_of c d ->
  (innerHTML_fragment (localName_of c d) s = None /\
   set_innerHTML (Some c) s d = Ok d /\ set_innerHTML (Some c) s d' = Ok d') \/
  (exists f, In f (fragments_of s) /\
             set_innerHTML (Some c) s d = Ok (replaced c f d) /\
             set_innerHTML (Some c) s d' = Ok (replaced c f d')).
Proof.
  intros E. unfold set_innerHTML. rewrite E.
  destruct (innerHTML_fragment (localName_of c d) s) as [f|] eqn:Hf.
  - right. exists f. split; [apply (innerHTML_fragment_in _ s f Hf)|]. split; reflexivity.
  - left. repeat split.
Qed.

(** X3. [loadHeader] is idempotent on what the page shows: on a well-formed
    page a second call completes and leaves the markup of the whole document
    as the first call left it (the header is replaced, never appended). *)
Theorem loadHeader_idempotent_markup d d1 :
  well_formed d = true ->
  loadHeader d = Ok d1 ->
  exists d2, loadHeader d1 = Ok d2 /\ markup (docNodes d2) = markup (docNodes d1).
Proof.
  intros Hwf Hl. destruct (getElementById "header-container" d) as [c|] eqn:Hc.
  - destruct (well_formed_tree d Hwf) as [Hnd _].
    pose proof (getElementById_in _ _ _ Hc) as Hin.
    destruct (loadHeader_step_any d c Hwf Hc)
      as (e1 & g1 & Hs1 & _ & Hwfe1 & Hce1 & Hg1 & Hd1 & Hwf1 & Hc1).
    assert (E1 : d1 = transform g1 e1) by congruence.
    rewrite <- E1 in Hwf1, Hc1.
    destruct (loadHeader_step_any d1 c Hwf1 Hc1)
      as (e2 & g2 & Hs2 & _ & _ & _ & Hg2 & Hd2 & _ & _).
    exists (transform g2 e2). split; [exact Hd2|].
    unfold transform at 1. cbn [docNodes]. rewrite (markup_registered _ g2 _ Hg2).
    assert (Hname : localName_of c e1 = localName_of c d).
    { destruct (set_innerHTML_cases c headerHTML d) as [(_ & E)|(f & _ & E)];
        rewrite E in Hs1.
      - assert (e1 = d) by congruence. subst e1. reflexivity.
      - assert (Ee : e1 = replaced c f d) by congruence. rewrite Ee.
        apply localName_of_replaced; assumption. }
    assert (Hname1 : localName_of c d1 = localName_of c d).
    { rewrite E1, (localName_of_transform _ g1 c e1 Hg1 (getElementById_in _ _ _ Hce1)).
      exact Hname. }
    destruct (set_innerHTML_alike c headerHTML d d1 Hname1) as [(_ & Ea & Eb)|(f & _ & Ea & Eb)];
      rewrite Ea in Hs1; rewrite Eb in Hs2.
    + assert (E2 : e2 = d1) by congruence. rewrite E2. reflexivity.
    + assert (Ee1 : e1 = replaced c f d) by congruence.
      assert (Ee2 : e2 = replaced c f d1) by congruence.
      rewrite Ee2, E1, Ee1. unfold replaced, transform. cbn [docNodes nextUid].
      rewrite (markup_registered _ g1 _ Hg1).
      rewrite (map_replaceChildren_map_elements g1 c _ _ (adds_listeners_keeps_uid _ g1 Hg1)).
      rewrite map_replaceChildren_twice.
      apply markup_map_replaceChildren_alike.
      * rewrite !markup_adopt_all. reflexivity.
      * apply (silence_registered _ g1 _ Hg1).
  - unfold loadHeader in Hl. rewrite Hc in Hl. cbn [truthy] in Hl. injection Hl as <-.
    exists d. split; [|reflexivity]. unfold loadHeader. rewrite Hc. reflexivity.
Qed.

Lemma loadHeader_idempotent_markup_witness :
  exists d1,
    loadHeader samplePage = Ok d1 /\
    exists d2, loadHeader d1 = Ok d2 /\ markup (docNodes d2) = markup (docNodes d1).
Proof.
  eexists. split; [vm_compute; reflexivity|].
  apply (loadHeader_idempotent_markup samplePage); [reflexivity | vm_compute; reflexivity].
Defined.

(** X4. [loadFooter] is idempotent on what the page shows: on a well-formed
    page a second call completes and leaves the markup of the whole document
    as the first call left it. *)
Theorem loadFooter_idempotent_markup d d1 :
  well_formed d = true ->
  loadFooter d = Ok d1 ->
  exists d2, loadFooter d1 = Ok d2 /\ markup (docNodes d2) = markup (docNodes d1).
Proof.
  intros Hwf Hl. unfold loadFooter in Hl.
  destruct (getElementById "footer-container" d) as [c|] eqn:Hc; cbn [truthy] in Hl.
  - destruct (well_formed_tree d Hwf) as [Hnd _].
    pose proof (getElementById_in _ _ _ Hc) as Hin.
    destruct (set_innerHTML_cases c footerHTML d) as [(_ & E)|(f & Hf & E)];
      rewrite E in Hl.
    + assert (E1 : d1 = d) by congruence. rewrite E1. exists d. split; [|reflexivity].
      unfold loadFooter. rewrite Hc. cbn [truthy]. exact E.
    + assert (E1 : d1 = replaced c f d) by congruence. rewrite E1.
      pose proof (find_replaced_placeholder "footer-container" c f d Hnd Hc) as Hc1.
      exists (replaced c f (replaced c f d)). split.
      * unfold loadFooter. rewrite Hc1. cbn [truthy]. unfold set_innerHTML.
        rewrite (localName_of_replaced c f d Hnd Hin), Hf. reflexivity.
      * unfold replaced. cbn [docNodes nextUid]. rewrite map_replaceChildren_twice.
        apply markup_map_replaceChildren_alike; [|reflexivity].
        rewrite !markup_adopt_all. reflexivity.
  - injection Hl as <-. exists d. split; [|reflexivity].
    unfold loadFooter. rewrite Hc. reflexivity.
Qed.

Lemma loadFooter_idempotent_markup_witness :
  exists d1,
    loadFooter samplePage = Ok d1 /\
    exists d2, loadFooter d1 = Ok d2 /\ markup (docNodes d2) = markup (docNodes d1).
Proof.
  eexists. split; [vm_compute; reflexivity|].
  apply (loadFooter_idempotent_markup samplePage); [reflexivity | vm_compute; reflexivity].
Defined.

(** * Mounting the footer keeps the menu *)

(** Refilling [c] keeps the path and the element of every [u] the page had
    before, when [c] is not on the path of [u]. *)
Lemma refilled_off_path u c s d t :
  trail u d = Some t -> ~ In c (map fst t) -> u < nextUid d ->
  trail u (refilled c s d) = Some t /\
  lookup u (docNodes (refilled c s d)) = lookup u (docNodes d).
Proof.
  intros Ht Hc Hu. destruct (trail_path u d t Ht) as (p & Hp & -> & Hfst).
  rewrite Hfst in Hc.
  assert (HK : ~ In u (uids_of (adopt_all (nextUid d) (Html.parse s))))
    by (intros H; apply uids_adopt_all_fresh in H; lia).
  pose proof (first_event_path_off_path u c _ _ p HK Hp Hc) as Hp'.
  split.
  - unfold trail. rewrite docNodes_refilled, Hp'. reflexivity.
  - rewrite !lookup_path_target, docNodes_refilled, Hp', Hp. reflexivity.
Qed.

(** Refilling another placeholder keeps a mounted header, when that
    placeholder is not around the header's. *)
Lemma header_at_refilled cf s c n d :
  well_formed d = true ->
  fragment_ok (adopt_all 0 (Html.parse s)) = true ->
  In cf (uids_of (docNodes d)) ->
  header_at c n d -> c < n -> cf < n -> n + 13 <= nextUid d ->
  on_path cf c d = false ->
  header_at c n (refilled cf s d) /\
  is_hidden (n + 9) (refilled cf s d) = is_hidden (n + 9) d.
Proof.
  intros Hwf Hok Hin [Hcontent Hp (old & Hold & Hall & Ht) Ho] Hc Hcf Hn Hoff.
  destruct (well_formed_tree d Hwf) as [Hnd _].
  pose proof (off_path_absent cf c d old Hold Hoff) as Hcfold.
  assert (Hk : forall k, k < 13 ->
               ~ In cf (map fst (shift_trail n (header_trail (Some (n + 9)) k) ++ old))).
  { intros k _. rewrite map_app, in_app_iff. intros [H|H]; [|exact (Hcfold H)].
    unfold shift_trail in H. rewrite map_map in H. apply in_map_iff in H.
    destruct H as (x & Hx & _). cbn [fst] in Hx. unfold ref in *. lia. }
  destruct (refilled_off_path (n + 9) cf s d _ (Ht 9 ltac:(lia)) (Hk 9 ltac:(lia)) ltac:(lia))
    as [_ Hlook].
  split; [split|].
  - destruct (trail_path c d old Hold) as (p & Hpc & _ & Hfst). rewrite Hfst in Hcfold.
    unfold content in *. rewrite docNodes_refilled.
    rewrite (first_childNodes_off_path c cf (adopt_all (nextUid d) (Html.parse s))
               ltac:(intros H; apply uids_adopt_all_fresh in H; lia) (docNodes d) p Hpc Hcfold).
    + exact Hcontent.
    + intros kc Hkc. rewrite Hkc in Hcontent. rewrite Hcontent, uids_of_shift_all.
      intros H. apply in_map_iff in H. destruct H as (k & Hk' & _). lia.
  - unfold present. rewrite Hlook. exact Hp.
  - exists old. split; [|split; [exact Hall|]].
    + apply (refilled_off_path c cf s d old Hold Hcfold). lia.
    + intros k Hk13. apply (refilled_off_path (n + k) cf s d _ (Ht k Hk13) (Hk k Hk13)). lia.
  - intros u t Hu Htu. unfold trail in Htu. rewrite docNodes_refilled in Htu.
    set (K := adopt_all (nextUid d) (Html.parse s)) in *.
    destruct (in_dec Nat.eq_dec u (uids_of K)) as [HuK|HuK].
    + assert (Hfresh : nextUid d <= u) by (apply (uids_adopt_all_fresh _ _ u HuK)).
      assert (Hout : ~ In u (uids_of (docNodes d)))
        by (intros H; pose proof (below_in d u Hwf H); lia).
      destruct (first_event_path_present u K HuK) as (pk & Hpk & Hincl).
      rewrite (first_event_path_replaceChildren u cf K pk _ Hout Hpk) in Htu.
      destruct (first_event_path_present cf _ Hin) as (pcf & Hpcf & _).
      rewrite Hpcf in Htu. cbn [option_map] in Htu. injection Htu as <-.
      rewrite map_app. apply Forall_app. split.
      * apply Forall_forall. intros x Hx. apply in_map_iff in Hx.
        destruct Hx as (e & <- & He). specialize (Hincl e He). split; cbn [fst snd].
        -- right. pose proof (uids_adopt_all_fresh (nextUid d) (Html.parse s) (uid e)
                                (in_map uid _ _ Hincl)). lia.
        -- unfold K in Hincl. rewrite adopt_all_shift in Hincl.
           rewrite (fragment_unheard _ _ e Hok Hincl). constructor.
      * apply (Ho cf _ ltac:(lia)). unfold trail. rewrite Hpcf. reflexivity.
    + destruct (first_event_path_wiped_or_kept u cf K (docNodes d) Hnd HuK) as [E|E];
        rewrite E in Htu; [discriminate|].
      apply (Ho u t Hu). exact Htu.
  - unfold is_hidden. rewrite Hlook. reflexivity.
Qed.

Lemma headerMounted_no_footer_id m :
  forallb (fun e => negb (has_id "footer-container" e)) (elements_of (headerMounted m)) = true.
Proof. vm_compute. reflexivity. Qed.

Lemma loadFooter_after_loadHeader d ch dh cf :
  flow_container ch d = true ->
  flow_container cf dh = true ->
  well_formed d = true ->
  getElementById "header-container" d = Some ch ->
  ids_unused_outside ch d = true ->
  loadHeader d = Ok dh ->
  getElementById "footer-container" dh = Some cf ->
  on_path cf ch dh = false ->
  loadFooter dh = Ok (refilled cf footerHTML dh) /\
  header_at ch (nextUid d) (refilled cf footerHTML dh) /\
  is_hidden (nextUid d + 9) (refilled cf footerHTML dh) = true.
Proof.
  intros Hfh Hff Hwf Hch Hids Hdh Hcf Hoff. pose proof (getElementById_in _ _ _ Hch) as Hin.
  destruct (well_formed_tree d Hwf) as [Hnd Hbelow].
  destruct (loadHeader_header_at d ch Hfh Hwf Hch Hids) as (dh' & Hdh' & Hnext & Ha & Hh & _).
  rewrite Hdh in Hdh'. injection Hdh' as <-.
  destruct (loadHeader_fresh d ch Hfh Hwf Hch Hids) as (dh' & Hdh' & _ & Hdoc).
  rewrite Hdh in Hdh'. injection Hdh' as <-.
  pose proof (well_formed_loadHeader d dh Hwf Hdh) as Hwfh.
  set (n := nextUid d) in *.
  assert (Hchn : ch < n) by (apply (below_in d ch Hwf Hin)).
  assert (Hcfn : cf < n).
  { unfold getElementById in Hcf.
    destruct (find (has_id "footer-container") (elements_of (docNodes dh))) as [e|] eqn:Hf;
      [|discriminate].
    injection Hcf as <-. apply find_some in Hf. destruct Hf as [He Hid].
    rewrite Hdoc in He. apply elements_of_replaceChildren_from in He.
    destruct He as [He|He]; [apply (below_uid _ _ (Hbelow e He))|].
    unfold shift_all in He. rewrite elements_of_map_elements in He. apply in_map_iff in He.
    destruct He as (e0 & <- & He0). rewrite shift_has_id in Hid.
    pose proof (headerMounted_no_footer_id (Some (n + 9))) as Hno.
    rewrite forallb_forall in Hno. specialize (Hno e0 He0). rewrite Hid in Hno. discriminate. }
  destruct (header_at_refilled cf footerHTML ch n dh Hwfh footerDOM_ok
              (getElementById_in _ _ _ Hcf) Ha Hchn Hcfn ltac:(lia) Hoff) as [Ha' Hh'].
  split; [unfold loadFooter; rewrite Hcf; cbn [truthy]; apply (set_innerHTML_flow cf footerHTML dh Hff)|].
  split; [exact Ha'|]. rewrite Hh'. exact Hh.
Qed.

(** X5. Mounting the footer after the header keeps the menu: when both
    placeholders are flow containers and the footer placeholder is not
    around the header placeholder, [loadFooter] fills its placeholder and
    leaves the header's content and its two-state menu as [loadHeader] made
    them. *)
Theorem footer_mount_keeps_menu d ch dh cf :
  well_formed d = true ->
  getElementById "header-container" d = Some ch ->
  flow_container ch d = true ->
  ids_unused_outside ch d = true ->
  loadHeader d = Ok dh ->
  getElementById "footer-container" dh = Some cf ->
  flow_container cf dh = true ->
  on_path cf ch dh = false ->
  exists df,
    loadFooter dh = Ok df /\
    markup (content cf df) = Html.parse footerHTML /\
    markup (content ch df) = Html.parse headerHTML /\
    menu_works ch df.
Proof.
  intros Hwf Hch Hfh Hids Hdh Hcf Hff Hoff.
  destruct (loadFooter_after_loadHeader d ch dh cf Hfh Hff Hwf Hch Hids Hdh Hcf Hoff)
    as (Hdf & Ha & Hh).
  exists (refilled cf footerHTML dh). split; [exact Hdf|]. split; [|split].
  - rewrite (content_refilled cf footerHTML dh (getElementById_in _ _ _ Hcf)).
    rewrite markup_adopt_all. apply markup_footerHTML.
  - apply (markup_mounted ch _ _ (at_content _ _ _ Ha)).
  - apply (header_at_works ch _ _ Ha Hh).
Qed.

Lemma footer_mount_keeps_menu_witness :
  exists dh,
    loadHeader samplePage = Ok dh /\
    exists df,
      loadFooter dh = Ok df /\
      markup (content 2 df) = Html.parse footerHTML /\
      markup (content 1 df) = Html.parse headerHTML /\
      menu_works 1 df.
Proof.
  eexists. split; [vm_compute; reflexivity|].
  apply (footer_mount_keeps_menu samplePage 1); try reflexivity; vm_compute; reflexivity.
Defined.

(** * Both mounts, in either order *)

(** A lookup by id finds the same element after the children of [c] are
    replaced, when [c] is not around that element and the new children do
    not carry the id. *)
Lemma getElementById_off_path s c K d u :
  NoDup (uids_of (docNodes d)) ->
  getElementById s d = Some u ->
  on_path c u d = false ->
  (forall x, In x (elements_of K) -> has_id s x = false) ->
  option_map uid (find (has_id s) (elements_of (map (replaceChildren c K) (docNodes d)))) =
  Some u.
Proof.
  intros Hnd Hg Hoff HK. unfold getElementById in Hg.
  destruct (find (has_id s) (elements_of (docNodes d))) as [x|] eqn:Hf; [|discriminate].
  injection Hg as <-. apply find_some in Hf as Hin. destruct Hin as [Hin _].
  destruct (first_event_path_present (uid x) _ (in_map uid _ _ Hin)) as (p & Hp & _).
  assert (Ht : trail (uid x) d = Some (map (fun e => (uid e, listeners e)) p))
    by (unfold trail; rewrite Hp; reflexivity).
  pose proof (off_path_absent c (uid x) d _ Ht Hoff) as Hc. rewrite map_map in Hc.
  rewrite (find_off_path (has_id s) c K HK (docNodes d) x p Hnd Hf Hp Hc). reflexivity.
Qed.

(** So does a lookup by identity, and with it the tag of the element. *)
Lemma lookup_off_path c K d u :
  NoDup (uids_of (docNodes d)) ->
  In u (uids_of (docNodes d)) ->
  on_path c u d = false ->
  ~ In u (uids_of K) ->
  lookup u (map (replaceChildren c K) (docNodes d)) = lookup u (docNodes d).
Proof.
  intros Hnd Hu Hoff HK. destruct (lookup_present u _ Hu) as (x & Hx). rewrite Hx.
  pose proof (lookup_uid _ _ _ Hx) as Hux. unfold lookup in Hx |- *.
  destruct (first_event_path_present u _ Hu) as (p & Hp & _).
  assert (Ht : trail u d = Some (map (fun e => (uid e, listeners e)) p))
    by (unfold trail; rewrite Hp; reflexivity).
  pose proof (off_path_absent c u d _ Ht Hoff) as Hc. rewrite map_map in Hc.
  rewrite <- Hux in Hp.
  apply (find_off_path (fun e => uid e =? u) c K) with (p := p); try assumption.
  intros y Hy. apply Nat.eqb_neq. intros E. apply HK. rewrite <- E. apply in_map. exact Hy.
Qed.









(** * The document stays well formed *)

Lemma well_formed_run_calls fs :
  forall d, well_formed d = true -> well_formed (run_calls fs d) = true.
Proof.
  induction fs as [|f r IH]; intros d Hwf; [exact Hwf|].
  cbn [run_calls fold_left]. apply IH.
  destruct (run_mount f d) as [d'|] eqn:E; [|exact Hwf].
  destruct f; cbn [run_mount] in E;
    [apply (well_formed_loadHeader d d' Hwf E) | apply (well_formed_loadFooter d d' Hwf E)].
Qed.

Lemma well_formed_restyled g d :
  restyles g -> well_formed d = true -> well_formed (transform g d) = true.
Proof.
  intros Hg Hwf. destruct (well_formed_elim d Hwf) as [Hnd Hb].
  assert (Hels : elements_of (docNodes (transform g d) ++ detached (transform g d)) =
                 map g (elements_of (docNodes d ++ detached d)))
    by (unfold transform; cbn [docNodes detached];
        rewrite <- map_app; apply elements_of_map_elements).
  apply well_formed_intro.
  - unfold uids_of. rewrite Hels, map_map.
    rewrite (map_ext _ uid) by (intros e; apply (restyles_keeps_uid g Hg)). exact Hnd.
  - intros e' He'. rewrite Hels in He'. apply in_map_iff in He'.
    destruct He' as (e & <- & He). destruct (Hg e) as (cl & ->). apply (Hb e He).
Qed.

Lemma well_formed_click u d : well_formed d = true -> well_formed (click u d) = true.
Proof.
  intros Hwf. destruct (click_restyles u d) as (g & Hg & ->).
  apply well_formed_restyled; assumption.
Qed.

(** X8. The mounts and the clicks keep the document well formed: node
    identities stay distinct and every listener refers to a node that has
    been created, all along the life of a page and whatever is clicked
    afterwards. *)
Theorem life_keeps_well_formed p0 s p us :
  well_formed (dom p0) = true ->
  reaches p0 s p ->
  well_formed (click_all us (dom p)) = true.
Proof.
  intros Hwf Hreach.
  assert (Hp : well_formed (dom p) = true).
  { induction Hreach as [|s p f _ IH|s p _ IH Hl|s p _ IH Hi Hf|s p _ IH Hi Hf];
      try assumption.
    - unfold script. destruct (is_loading (ready p)); [exact IH|].
      cbn [call dom]. apply (well_formed_run_calls [f] _ IH).
    - unfold dispatched. rewrite dom_fold_call. apply well_formed_run_calls, IH. }
  clear Hreach. revert Hp. generalize (dom p). induction us as [|u r IH]; intros d Hd; [exact Hd|].
  cbn [click_all fold_left]. apply IH, well_formed_click, Hd.
Qed.

Lemma life_keeps_well_formed_witness :
  well_formed (click_all [10; 14; 10] (dom endPage)) = true.
Proof.
  assert (Hreach : reaches startPage [LoadHeader; LoadFooter] endPage).
  { apply reaches_dispatched; [|reflexivity|reflexivity].
    apply (reaches_script startPage [LoadHeader] _ LoadFooter).
    apply reaches_parsed; [|reflexivity].
    apply (reaches_script startPage [] _ LoadHeader). apply reaches_start. }
  apply (life_keeps_well_formed startPage [LoadHeader; LoadFooter] endPage _ eq_refl Hreach).
Defined.

(** * The two mounts commute *)

Lemma mark_inv c e e' :
  mark c e = mark c e' -> (uid e =? c) = (uid e' =? c) /\ strip e = strip e'.
Proof.
  destruct e, e'. unfold mark, with_listeners, strip, with_uid. cbn [uid localName attributes classList listeners].
  intros H. injection H as Hu -> -> ->. split; [|reflexivity].
  destruct (uid0 =? c), (uid1 =? c); (reflexivity || discriminate).
Qed.

(** The markup of a document after a replacement in [c] depends on the
    markup of the new children and on the document up to listeners and
    identities other than [c] only. *)
Lemma markup_replaceChildren_marked c K K' :
  markup K = markup K' ->
  forall n n',
    map_elements (mark c) n = map_elements (mark c) n' ->
    map_elements strip (replaceChildren c K n) = map_elements strip (replaceChildren c K' n').
Proof.
  intros HK n. node_induction n; intros n' H; destruct n' as [e' kids'|s'|s'];
    cbn [map_elements] in H; try discriminate; try (injection H as ->; reflexivity).
  assert (He : mark c e = mark c e') by congruence.
  assert (Hkids : map (map_elements (mark c)) kids = map (map_elements (mark c)) kids')
    by congruence.
  clear H. destruct (mark_inv c e e' He) as [Hu Hs].
  simpl. rewrite <- Hu. destruct (uid e =? c); simpl; rewrite Hs; f_equal.
  - exact HK.
  - revert kids' Hkids. induction IH as [|k r Hk _ IHr]; intros kids' Hkids;
      destruct kids' as [|k' r']; simpl in Hkids; try discriminate; [reflexivity|].
    injection Hkids as Hk' Hr'. simpl. rewrite (Hk k' Hk'), (IHr r' Hr'). reflexivity.
Qed.

Lemma markup_map_replaceChildren_marked c K K' l l' :
  markup K = markup K' ->
  map (map_elements (mark c)) l = map (map_elements (mark c)) l' ->
  markup (map (replaceChildren c K) l) = markup (map (replaceChildren c K') l').
Proof.
  intros HK. revert l'. unfold markup.
  induction l as [|k r IH]; intros l' H; destruct l' as [|k' r']; simpl in H;
    try discriminate; [reflexivity|].
  injection H as Hk Hr. simpl.
  rewrite (markup_replaceChildren_marked c K K' HK k k' Hk), (IH r' Hr). reflexivity.
Qed.

Lemma marked_replaceChildren c c2 K K' n :
  map (map_elements (mark c)) K = map (map_elements (mark c)) K' ->
  map_elements (mark c) (replaceChildren c2 K n) =
  map_elements (mark c) (replaceChildren c2 K' n).
Proof.
  intros HK. node_induction n; try reflexivity.
  simpl. destruct (uid e =? c2); simpl; f_equal; [exact HK|].
  induction IH as [|k r Hk _ IHr]; simpl; [reflexivity|]. rewrite Hk, IHr. reflexivity.
Qed.

Lemma marked_absent c K :
  ~ In c (uids_of K) -> map (map_elements (mark c)) K = markup K.
Proof.
  intros Hc. unfold markup. apply map_map_elements_ext. intros e He.
  assert (E : (uid e =? c) = false).
  { apply Nat.eqb_neq. intros Eu. apply Hc. rewrite <- Eu. apply (in_map uid _ _ He). }
  unfold mark. rewrite E. reflexivity.
Qed.

(** No fragment of the header template has an element with the id of the
    footer placeholder, and no fragment of the footer template one with the
    id of the header placeholder. *)
Lemma header_fragments_ids :
  forallb (fun f => forallb (fun e => negb (has_id "footer-container" e))
                      (elements_of (adopt_all 0 f)))
          (fragments_of headerHTML) = true.
Proof. vm_compute. reflexivity. Qed.

Lemma footer_fragments_ids :
  forallb (fun f => forallb (fun e => negb (has_id "header-container" e))
                      (elements_of (adopt_all 0 f)))
          (fragments_of footerHTML) = true.
Proof. vm_compute. reflexivity. Qed.

(** A placeholder is still found, with its tag, after the children of an
    element that is not around it were replaced. *)
Lemma found_after_replaced s c f d u :
  NoDup (uids_of (docNodes d)) ->
  getElementById s d = Some u ->
  on_path c u d = false ->
  forallb (fun e => negb (has_id s e)) (elements_of (adopt_all 0 f)) = true ->
  getElementById s (replaced c f d) = Some u.
Proof.
  intros Hnd Hg Hoff Hno. unfold getElementById, replaced. cbn [docNodes].
  apply (getElementById_off_path s c _ d u Hnd Hg Hoff).
  intros x Hx. rewrite adopt_all_shift in Hx. unfold shift_all in Hx.
  rewrite elements_of_map_elements in Hx. apply in_map_iff in Hx.
  destruct Hx as (e0 & <- & He0). rewrite shift_has_id.
  rewrite forallb_forall in Hno. apply negb_true_iff, Hno, He0.
Qed.

Lemma localName_of_off_path c f d u :
  well_formed d = true ->
  In u (uids_of (docNodes d)) ->
  on_path c u d = false ->
  localName_of u (replaced c f d) = localName_of u d.
Proof.
  intros Hwf Hu Hoff. destruct (well_formed_tree d Hwf) as [Hnd _].
  destruct (lookup_present u _ Hu) as (e & He).
  rewrite (localName_of_lookup u d e He). apply localName_of_lookup.
  unfold replaced. cbn [docNodes]. rewrite lookup_off_path; try assumption.
  intros H. apply uids_adopt_all_fresh in H. pose proof (below_in d u Hwf Hu). lia.
Qed.

(** X9. The two mounts commute on what the page shows: on a page that has
    both placeholders, neither inside the other, and keeps the ids of the
    menu free, mounting the header then the footer and mounting the footer
    then the header leave documents with the same markup. *)
Theorem mounts_commute d ch cf :
  well_formed d = true ->
  getElementById "header-container" d = Some ch ->
  getElementById "footer-container" d = Some cf ->
  ids_unused_outside ch d = true ->
  on_path cf ch d = false ->
  on_path ch cf d = false ->
  markup (docNodes (run_calls [LoadHeader; LoadFooter] d)) =
  markup (docNodes (run_calls [LoadFooter; LoadHeader] d)).
Proof.
  intros Hwf Hch Hcf Hids Hoff1 Hoff2.
  destruct (well_formed_tree d Hwf) as [Hnd _].
  pose proof (getElementById_in _ _ _ Hch) as Hinh.
  pose proof (getElementById_in _ _ _ Hcf) as Hinf.
  pose proof (below_in d ch Hwf Hinh) as Hchn.
  pose proof (below_in d cf Hwf Hinf) as Hcfn.
  assert (Hne : cf <> ch).
  { intros E. rewrite E in Hoff1. rewrite (on_path_self ch d Hinh) in Hoff1. discriminate. }
  pose proof header_fragments_ids as HFh. rewrite forallb_forall in HFh.
  pose proof footer_fragments_ids as HFf. rewrite forallb_forall in HFf.
  destruct (loadHeader_shape d ch Hch) as (eh & g1 & Hsh & Hg1 & Hdh).
  assert (Hcfh : getElementById "footer-container" (transform g1 eh) = Some cf /\
                 localName_of cf (transform g1 eh) = localName_of cf d).
  { destruct (set_innerHTML_cases ch headerHTML d) as [(_ & E)|(f & Hf & E)];
      rewrite E in Hsh.
    - assert (Ee : eh = d) by congruence. rewrite Ee. split.
      + rewrite (getElementById_transform _ g1 _ _ Hg1). exact Hcf.
      + apply (localName_of_transform _ g1 cf d Hg1 Hinf).
    - assert (Ee : eh = replaced ch f d) by congruence.
      assert (Hcf1 : getElementById "footer-container" eh = Some cf).
      { rewrite Ee. apply found_after_replaced; try assumption.
        apply HFh. apply (innerHTML_fragment_in _ _ _ Hf). }
      split.
      + rewrite (getElementById_transform _ g1 _ _ Hg1). exact Hcf1.
      + rewrite (localName_of_transform _ g1 cf eh Hg1 (getElementById_in _ _ _ Hcf1)).
        rewrite Ee. apply localName_of_off_path; assumption. }
  destruct Hcfh as [Hcf' Hname'].
  assert (Hlf : forall x, getElementById "footer-container" x = Some cf ->
                          loadFooter x = set_innerHTML (Some cf) footerHTML x)
    by (intros x Hx; unfold loadFooter; rewrite Hx; reflexivity).
  cbn [run_calls fold_left run_mount]. rewrite Hdh, (Hlf _ Hcf'), (Hlf _ Hcf).
  destruct (set_innerHTML_alike cf footerHTML d (transform g1 eh) Hname')
    as [(_ & Eda & Edb)|(ff & Hff & Eda & Edb)]; rewrite Eda, Edb.
  - rewrite Hdh. reflexivity.
  - assert (Hch' : getElementById "header-container" (replaced cf ff d) = Some ch)
      by (apply found_after_replaced; try assumption; apply HFf; exact Hff).
    assert (Hnameh : localName_of ch (replaced cf ff d) = localName_of ch d)
      by (apply localName_of_off_path; assumption).
    destruct (loadHeader_shape (replaced cf ff d) ch Hch') as (e2 & g2 & Hs2 & Hg2 & Hdfh).
    rewrite Hdfh. unfold transform at 2. cbn [docNodes].
    rewrite (markup_registered _ g2 _ Hg2).
    destruct (set_innerHTML_alike ch headerHTML d (replaced cf ff d) Hnameh)
      as [(_ & Eha & Ehb)|(fh & Hfh & Eha & Ehb)]; rewrite Eha in Hsh; rewrite Ehb in Hs2.
    + assert (Ee : eh = d) by congruence.
      assert (Ee2 : e2 = replaced cf ff d) by congruence.
      rewrite Ee, Ee2. unfold replaced, transform. cbn [docNodes nextUid].
      apply markup_map_replaceChildren_alike; [reflexivity|].
      apply (silence_registered _ g1 _ Hg1).
    + assert (Ee : eh = replaced ch fh d) by congruence.
      assert (Ee2 : e2 = replaced ch fh (replaced cf ff d)) by congruence.
      rewrite Ee, Ee2. unfold replaced, transform. cbn [docNodes nextUid].
      set (n := nextUid d) in *.
      set (KH1 := adopt_all n fh).
      set (KF2 := adopt_all (n + count_elements_of KH1) ff).
      set (KF1 := adopt_all n ff).
      set (KH2 := adopt_all (n + count_elements_of KF1) fh).
      assert (HKH1 : ~ In cf (uids_of KH1))
        by (intros H; apply uids_adopt_all_fresh in H; lia).
      assert (HKF2 : ~ In ch (uids_of KF2))
        by (intros H; apply uids_adopt_all_fresh in H; lia).
      assert (HKF1 : ~ In ch (uids_of KF1))
        by (intros H; apply uids_adopt_all_fresh in H; lia).
      rewrite (markup_map_replaceChildren_alike cf KF2 KF2
                 (map (map_elements g1) (map (replaceChildren ch KH1) (docNodes d)))
                 (map (replaceChildren ch KH1) (docNodes d)) eq_refl
                 (silence_registered _ g1 _ Hg1)).
      rewrite (map_replaceChildren_commute cf ch KF2 KH1 (docNodes d) Hne HKH1 HKF2).
      apply markup_map_replaceChildren_marked.
      * unfold KH1, KH2. rewrite !markup_adopt_all. reflexivity.
      * rewrite !map_map. apply map_ext. intros x. apply marked_replaceChildren.
        rewrite !marked_absent by assumption. unfold KF2, KF1. rewrite !markup_adopt_all.
        reflexivity.
Qed.

Lemma mounts_commute_witness :
  markup (docNodes (run_calls [LoadHeader; LoadFooter] samplePage)) =
  markup (docNodes (run_calls [LoadFooter; LoadHeader] samplePage)).
Proof. apply (mounts_commute samplePage 1 2); vm_compute; reflexivity. Defined.

(** * A footer placeholder around the header *)

(** X10. A footer placeholder that encloses the header placeholder
    destroys the header: when both placeholders are flow containers, the
    footer, mounted after the header, removes the header placeholder and
    every element of the header from the document, and fills its own
    placeholder with the footer. *)
Theorem enclosing_footer_removes_header d ch dh cf :
  well_formed d = true ->
  getElementById "header-container" d = Some ch ->
  flow_container ch d = true ->
  ids_unused_outside ch d = true ->
  loadHeader d = Ok dh ->
  getElementById "footer-container" dh = Some cf ->
  flow_container cf dh = true ->
  cf <> ch ->
  on_path cf ch dh = true ->
  exists df,
    loadFooter dh = Ok df /\
    markup (content cf df) = Html.parse footerHTML /\
    lookup ch (docNodes df) = None /\
    forall u, In u (uids_of (content ch dh)) -> lookup u (docNodes df) = None.
Proof.
  intros Hwf Hch Hfh Hids Hdh Hcf Hff Hne Hon.
  destruct (loadHeader_header_at d ch Hfh Hwf Hch Hids) as (dh' & Hdh' & Hnext & Ha & _ & _).
  rewrite Hdh in Hdh'. injection Hdh' as <-.
  pose proof (well_formed_loadHeader d dh Hwf Hdh) as Hwfh.
  destruct (well_formed_tree dh Hwfh) as [Hnd _].
  pose proof (below_in d ch Hwf (getElementById_in _ _ _ Hch)) as Hchn.
  set (n := nextUid d) in *.
  destruct Ha as [Hcontent _ (old & Hold & Hq & Ht) _].
  assert (Hin : In cf (map fst old)).
  { unfold on_path in Hon. rewrite Hold in Hon. apply existsb_exists in Hon.
    destruct Hon as (x & Hx & Hxc). apply Nat.eqb_eq in Hxc. rewrite <- Hxc.
    apply (in_map fst _ _ Hx). }
  assert (Hgone : forall u t, trail u dh = Some t -> In cf (map fst t) -> u <> cf ->
                              u < nextUid dh ->
                              lookup u (docNodes (refilled cf footerHTML dh)) = None).
  { intros u t Htu Hcft Hu Hlt. destruct (trail_path u dh t Htu) as (p & Hp & _ & Hfst).
    rewrite Hfst in Hcft. rewrite lookup_path_target, docNodes_refilled.
    rewrite (first_event_path_wiped u cf (adopt_all (nextUid dh) (Html.parse footerHTML))
               ltac:(intros H; apply uids_adopt_all_fresh in H; lia) Hu (docNodes dh) p Hnd Hp Hcft).
    reflexivity. }
  exists (refilled cf footerHTML dh).
  split; [unfold loadFooter; rewrite Hcf; cbn [truthy];
          apply (set_innerHTML_flow cf footerHTML dh Hff)|].
  split.
  { rewrite (content_refilled cf footerHTML dh (getElementById_in _ _ _ Hcf)).
    rewrite markup_adopt_all. apply markup_footerHTML. }
  split.
  - apply (Hgone ch old Hold Hin); [congruence | lia].
  - intros u Hu. rewrite Hcontent, uids_of_shift_all, headerMounted_uids in Hu.
    apply in_map_iff in Hu. destruct Hu as (k & <- & Hk). apply in_seq in Hk.
    assert (Hcfn : cf < n).
    { pose proof (below_in dh cf Hwfh (getElementById_in _ _ _ Hcf)) as Hlt.
      apply in_map_iff in Hin. destruct Hin as (x & Hxc & Hx).
      rewrite Forall_forall in Hq. destruct (Hq x Hx) as [Hx' _].
      unfold ref in *. lia. }
    apply (Hgone (n + k) _ (Ht k ltac:(lia))); [|lia|lia].
    rewrite map_app. apply in_or_app. right. exact Hin.
Qed.

Lemma enclosing_footer_removes_header_witness :
  exists dh,
    loadHeader nestedPage = Ok dh /\
    exists df,
      loadFooter dh = Ok df /\
      markup (content 1 df) = Html.parse footerHTML /\
      lookup 2 (docNodes df) = None /\
      forall u, In u (uids_of (content 2 dh)) -> lookup u (docNodes df) = None.
Proof.
  eexists. split; [vm_compute; reflexivity|].
  apply (enclosing_footer_removes_header nestedPage 2);
    try reflexivity; try (vm_compute; reflexivity). discriminate.
Defined.
